(** * Home Assistant adapter: service selection, registry index, event
      forwarding, value classification, sensor action names and the
      illuminance accumulator

    A shallow embedding of the decision logic of [set-property.py],
    [ygg_ha_adapter.py] and [adjust_lux_on_events.py], followed by the
    properties proved about it.

    Conventions of the embedding:
    - a Python [str] is the list of its code points ([pystr]); literals are
      written [py "..."] and decoded from UTF-8;
    - the interpreter's Unicode tables and renderings are the fields of the
      class [PyRuntime]; its laws fix them on ASCII text only;
    - a Python [float] is an IEEE binary64 number ([spec_float] at precision
      53 and maximal exponent 1024);
    - a JSON document or Python object whose shape is not fixed is a
      [pyvalue]; a [dict] read by key is a [gmap], a [dict] that is iterated
      is an association list in insertion order;
    - [x.get(k)] on a missing key and JSON [null] are both [None]. *)

From Stdlib Require Import ZArith NArith List String Ascii Lia.
From Stdlib Require Import SpecFloat.
From stdpp Require Import gmap list.

Set Default Proof Using "Type".

(* ===================================================================== *)
(** * Part I: the model                                                    *)
(* ===================================================================== *)

(** ** Python strings *)

Abbreviation pystr := (list N).

Module PyStr.

Local Open Scope N_scope.

(** Decoding of the UTF-8 bytes of a literal into code points. *)
Fixpoint utf8_decode (bs : list N) : pystr :=
  match bs with
  | [] => []
  | b :: r =>
    if b <? 128 then b :: utf8_decode r
    else
      match r with
      | [] => [b]
      | b1 :: r1 =>
        if b <? 224 then
          N.lor (N.shiftl (N.land b 31) 6) (N.land b1 63) :: utf8_decode r1
        else
          match r1 with
          | [] => [b]
          | b2 :: r2 =>
            if b <? 240 then
              N.lor (N.shiftl (N.land b 15) 12)
                (N.lor (N.shiftl (N.land b1 63) 6) (N.land b2 63))
              :: utf8_decode r2
            else
              match r2 with
              | [] => [b]
              | b3 :: r3 =>
                N.lor (N.shiftl (N.land b 7) 18)
                  (N.lor (N.shiftl (N.land b1 63) 12)
                     (N.lor (N.shiftl (N.land b2 63) 6) (N.land b3 63)))
                :: utf8_decode r3
              end
          end
      end
  end.

(** A string literal of the source. *)
Definition py (s : string) : pystr :=
  utf8_decode (map Byte.to_N (list_byte_of_string s)).

(** [s.encode("utf-8")] of one code point. *)
Definition utf8_encode1 (c : N) : list N :=
  if c <? 128 then [c]
  else if c <? 2048 then
    [N.lor 192 (N.shiftr c 6); N.lor 128 (N.land c 63)]
  else if c <? 65536 then
    [N.lor 224 (N.shiftr c 12); N.lor 128 (N.land (N.shiftr c 6) 63);
     N.lor 128 (N.land c 63)]
  else
    [N.lor 240 (N.shiftr c 18); N.lor 128 (N.land (N.shiftr c 12) 63);
     N.lor 128 (N.land (N.shiftr c 6) 63); N.lor 128 (N.land c 63)].

Definition utf8_encode (s : pystr) : list N := flat_map utf8_encode1 s.

(** *** Character classes on the ASCII range *)

Definition between (lo hi c : N) : bool := (lo <=? c) && (c <=? hi).

Definition is_ascii (c : N) : bool := c <? 128.

(** [str.isspace] on ASCII: TAB, LF, VT, FF, CR, FS, GS, RS, US and space. *)
Definition ascii_isspace (c : N) : bool := between 9 13 c || between 28 32 c.

(** C's [Py_ISSPACE], used by the number parsers: TAB..CR and space. *)
Definition c_isspace (c : N) : bool := between 9 13 c || (c =? 32).

Definition ascii_isdigit (c : N) : bool := between 48 57 c.
Definition ascii_isupper (c : N) : bool := between 65 90 c.
Definition ascii_islower (c : N) : bool := between 97 122 c.

Definition ascii_isalnum (c : N) : bool :=
  ascii_isdigit c || ascii_isupper c || ascii_islower c.

Definition ascii_lower (c : N) : N := if ascii_isupper c then c + 32 else c.
Definition ascii_upper (c : N) : N := if ascii_islower c then c - 32 else c.

(** [s.capitalize()] on ASCII text: first character upper, the rest lower. *)
Definition ascii_capitalize (s : pystr) : pystr :=
  match s with
  | [] => []
  | c :: r => ascii_upper c :: map ascii_lower r
  end.

(** *** Operations that need no Unicode table *)

Definition eqb (a b : pystr) : bool := bool_decide (a = b).

(** [x in xs] for a tuple or set of strings. *)
Definition mem (x : pystr) (xs : list pystr) : bool := bool_decide (x ∈ xs).

Fixpoint startswith (s p : pystr) : bool :=
  match p, s with
  | [], _ => true
  | _ :: _, [] => false
  | a :: p', b :: s' => (a =? b) && startswith s' p'
  end.

(** [needle in hay] for two strings: substring test. *)
Fixpoint contains (needle hay : pystr) : bool :=
  startswith hay needle ||
  match hay with
  | [] => false
  | _ :: hay' => contains needle hay'
  end.

Fixpoint lstrip_by (p : N -> bool) (s : pystr) : pystr :=
  match s with
  | [] => []
  | c :: r => if p c then lstrip_by p r else s
  end.

Definition rstrip_by (p : N -> bool) (s : pystr) : pystr :=
  rev (lstrip_by p (rev s)).

Definition strip_by (p : N -> bool) (s : pystr) : pystr :=
  rstrip_by p (lstrip_by p s).

(** [s.rstrip(chars)]. *)
Definition rstrip_chars (chars : pystr) (s : pystr) : pystr :=
  rstrip_by (fun c => bool_decide (c ∈ chars)) s.

(** The pieces [s.split(sep)] cuts at the first [sep]: what stands before it
    and, when there is one, what follows it. *)
Fixpoint cut (sep : N) (s : pystr) : pystr * option pystr :=
  match s with
  | [] => ([], None)
  | c :: r =>
    if c =? sep then ([], Some r)
    else let '(a, b) := cut sep r in (c :: a, b)
  end.

(** [s.split(sep)[0]] *)
Definition split_first (sep : N) (s : pystr) : pystr := fst (cut sep s).

(** [s.split(sep, 1)[-1]] *)
Definition split1_last (sep : N) (s : pystr) : pystr :=
  match snd (cut sep s) with
  | Some r => r
  | None => s
  end.

(** The runs of characters between separators, empty runs dropped: with the
    whitespace test as [sep] this is [s.split()]. *)
Definition push_word (w : pystr) (ws : list pystr) : list pystr :=
  match w with
  | [] => ws
  | _ :: _ => w :: ws
  end.

Fixpoint words (sep : N -> bool) (s : pystr) : pystr * list pystr :=
  match s with
  | [] => ([], [])
  | c :: r =>
    let '(w, ws) := words sep r in
    if sep c then ([], push_word w ws) else (c :: w, ws)
  end.

Definition tokens (sep : N -> bool) (s : pystr) : list pystr :=
  let '(w, ws) := words sep s in push_word w ws.

(** [str(n)] for an [int]. *)
Fixpoint uint_digits (u : Decimal.uint) : pystr :=
  match u with
  | Decimal.Nil => []
  | Decimal.D0 u => 48 :: uint_digits u
  | Decimal.D1 u => 49 :: uint_digits u
  | Decimal.D2 u => 50 :: uint_digits u
  | Decimal.D3 u => 51 :: uint_digits u
  | Decimal.D4 u => 52 :: uint_digits u
  | Decimal.D5 u => 53 :: uint_digits u
  | Decimal.D6 u => 54 :: uint_digits u
  | Decimal.D7 u => 55 :: uint_digits u
  | Decimal.D8 u => 56 :: uint_digits u
  | Decimal.D9 u => 57 :: uint_digits u
  end.

Definition str_of_N (n : N) : pystr :=
  match n with
  | 0 => [48]
  | _ => uint_digits (N.to_uint n)
  end.

Definition str_of_Z (z : Z) : pystr :=
  match z with
  | Zneg p => 45 :: str_of_N (Npos p)
  | _ => str_of_N (Z.to_N z)
  end.

(** [urllib.parse.quote(s, safe="")]: the UTF-8 bytes of [s], every byte
    outside letters, digits and [_.-~] written [%XX]. *)
Definition hex_digit (n : N) : N := if n <? 10 then 48 + n else 55 + n.

Definition unreserved (b : N) : bool :=
  ascii_isalnum b || bool_decide (b ∈ [95; 46; 45; 126]).

Definition quote_byte (b : N) : pystr :=
  if unreserved b then [b] else [37; hex_digit (b / 16); hex_digit (b mod 16)].

Definition quote (s : pystr) : pystr := flat_map quote_byte (utf8_encode s).

End PyStr.

Import PyStr.

(** ** Python values *)

(** IEEE binary64, the format of a Python [float]. *)
Abbreviation float64 := spec_float.

Module F64.

Definition prec : Z := 53.
Definition emax : Z := 1024.

Definition zero : float64 := S754_zero false.
Definition add : float64 -> float64 -> float64 := SFadd prec emax.
Definition ltb : float64 -> float64 -> bool := SFltb.
Definition eqb : float64 -> float64 -> bool := SFeqb.

(** The double nearest to an integer (ties to even). *)
Definition of_Z (z : Z) : float64 := binary_normalize prec emax z 0 false.

(** The double nearest to [(-1)^neg * m * 10^e] (ties to even): what the
    interpreter's decimal-to-binary conversion returns; overflow gives an
    infinity and underflow a zero. *)
Definition of_decimal (neg : bool) (m : N) (e : Z) : float64 :=
  match m with
  | N0 => S754_zero neg
  | Npos p =>
    if (0 <=? e)%Z then binary_round prec emax neg (p * Z.to_pos (10 ^ e)) 0
    else
      let '(q, e', l) :=
        SFdiv_core_binary prec emax (Zpos p) 0 (10 ^ (- e)) 0 in
      binary_round_aux prec emax neg q e' l
  end.

(** [int(f)]: truncation towards zero; [None] for NaN and the infinities,
    where Python raises. *)
Definition trunc (f : float64) : option Z :=
  match f with
  | S754_zero _ => Some 0%Z
  | S754_finite s m e =>
    let a := match e with
             | Zneg k => Z.shiftr (Zpos m) (Zpos k)
             | _ => Z.shiftl (Zpos m) e
             end in
    Some (if s then (- a)%Z else a)
  | _ => None
  end.

(** [f] is exactly the rational [n / d]. *)
Definition is_ratio (f : float64) (n d : Z) : Prop :=
  match f with
  | S754_zero _ => n = 0%Z
  | S754_finite s m e =>
    let a := if s then Zneg m else Zpos m in
    match e with
    | Zneg k => (a * d = n * 2 ^ Zpos k)%Z
    | _ => (a * 2 ^ e * d = n)%Z
    end
  | _ => False
  end.

End F64.

#[warnings="-register-all"]
Inductive pyvalue :=
| PNone
| PBool (b : bool)
| PInt (z : Z)
| PFloat (f : float64)
| PStr (s : pystr)
| PList (l : list pyvalue)
| PDict (d : list (pystr * pyvalue)).

(** ** The interpreter's tables

    What the code obtains from the Unicode database and from the renderings
    of the interpreter. The laws state their values on ASCII text, and that
    no alphanumeric character is whitespace. *)
Class PyRuntime := {
  (** [ch.isspace()] *)
  isspace : N -> bool;
  (** [ch.isalnum()] *)
  isalnum : N -> bool;
  (** the decimal digit value of a character, when it has one *)
  todecimal : N -> option N;
  (** [s.lower()] *)
  lower : pystr -> pystr;
  (** [s.capitalize()] *)
  capitalize : pystr -> pystr;
  (** [str(x)] of a float, a list or a dict *)
  repr : pyvalue -> pystr;
  (** [sys.get_int_max_str_digits()]; 0 means no limit *)
  int_max_str_digits : N;
  isspace_ascii : forall c, is_ascii c = true -> isspace c = ascii_isspace c;
  isalnum_ascii : forall c, is_ascii c = true -> isalnum c = ascii_isalnum c;
  lower_ascii : forall s,
    forallb is_ascii s = true -> lower s = map ascii_lower s;
  capitalize_ascii : forall s,
    forallb is_ascii s = true -> capitalize s = ascii_capitalize s;
  isalnum_not_isspace : forall c, isalnum c = true -> isspace c = false
}.

(** ** Conversions of the interpreter: [int], [float], [str], truth *)

Module Py.

(** The characters an integer literal is made of: whitespace, a sign, digits
    and underscores. *)
Definition int_char (c : N) : bool :=
  c_isspace c || (c =? 43)%N || (c =? 45)%N || ascii_isdigit c || (c =? 95)%N.

Section WithRuntime.
Context `{PyRuntime}.

Local Open Scope N_scope.

(** The numeric constructors first rewrite a non-ASCII string: whitespace
    becomes a space and a decimal digit its ASCII digit; any other character
    above DEL makes the string unreadable. An ASCII string is taken as is. *)
Definition to_ascii (c : N) : option N :=
  if c <? 127 then Some c
  else if isspace c then Some 32
  else (fun d => 48 + d) <$> todecimal c.

Definition transform (s : pystr) : option pystr :=
  if forallb is_ascii s then Some s else mapM to_ascii s.

Definition split_sign (s : pystr) : bool * pystr :=
  match s with
  | 45 :: r => (true, r)
  | 43 :: r => (false, r)
  | _ => (false, s)
  end.

Definition digits_value (ds : list N) : N :=
  fold_left (fun acc d => 10 * acc + d) ds 0.

Definition signed (neg : bool) (n : N) : Z :=
  if neg then (- Z.of_N n)%Z else Z.of_N n.

(** The digit scan of [int]: digits with single underscores between them.
    Returns the digit values and what follows them. *)
Fixpoint scan (prev_us : bool) (s : pystr) : option (list N * pystr) :=
  match s with
  | [] => if prev_us then None else Some ([], [])
  | c :: r =>
    if c =? 95 then (if prev_us then None else scan true r)
    else if ascii_isdigit c then
      match scan false r with
      | Some (ds, rest) => Some ((c - 48) :: ds, rest)
      | None => None
      end
    else if prev_us then None else Some ([], s)
  end.

Definition too_many_digits (n : N) : bool :=
  (640 <? n) && (0 <? int_max_str_digits) && (int_max_str_digits <? n).

(** [int(s)] for a string; [None] where Python raises [ValueError]. *)
Definition int_of_str (s : pystr) : option Z :=
  match transform s with
  | None => None
  | Some t =>
    let '(neg, r) := split_sign (lstrip_by c_isspace t) in
    if startswith r [95] then None
    else
      match scan false r with
      | None => None
      | Some (ds, rest) =>
        match ds, lstrip_by c_isspace rest with
        | _ :: _, [] =>
          if too_many_digits (N.of_nat (length ds)) then None
          else Some (signed neg (digits_value ds))
        | _, _ => None
        end
      end
  end.

(** [float] drops underscores that stand between two digits and rejects any
    other underscore. *)
Fixpoint drop_underscores (prev : N) (s : pystr) : option pystr :=
  match s with
  | [] => if prev =? 95 then None else Some []
  | c :: r =>
    if c =? 95 then
      (if ascii_isdigit prev then drop_underscores c r else None)
    else if (prev =? 95) && negb (ascii_isdigit c) then None
    else cons c <$> drop_underscores c r
  end.

Definition without_underscores (s : pystr) : option pystr :=
  if bool_decide (95 ∈ s) then drop_underscores 0 s else Some s.

Fixpoint take_digits (s : pystr) : list N * pystr :=
  match s with
  | [] => ([], [])
  | c :: r =>
    if ascii_isdigit c then
      let '(ds, rest) := take_digits r in ((c - 48) :: ds, rest)
    else ([], s)
  end.

(** The exponent part: [e] or [E], an optional sign and at least one digit;
    when no digit follows, nothing is consumed. *)
Definition take_exponent (s : pystr) : Z * pystr :=
  match s with
  | c :: r =>
    if (c =? 101) || (c =? 69) then
      let '(neg, r1) := split_sign r in
      match take_digits r1 with
      | ([], _) => (0%Z, s)
      | (ds, rest) => (signed neg (digits_value ds), rest)
      end
    else (0%Z, s)
  | [] => (0%Z, s)
  end.

(** A decimal number: digits, an optional point and digits, an optional
    exponent; at least one digit before the exponent. *)
Definition parse_decimal (neg : bool) (s : pystr) : option (float64 * pystr) :=
  let '(ip, r1) := take_digits s in
  let '(fp, r2) := match r1 with
                   | 46 :: r => take_digits r
                   | _ => ([], r1)
                   end in
  match ip ++ fp with
  | [] => None
  | ds =>
    let '(e, r3) := take_exponent r2 in
    Some (F64.of_decimal neg (digits_value ds) (e - Z.of_nat (length fp)), r3)
  end.

(** [inf], [infinity] and [nan], in any case. *)
Definition parse_inf_or_nan (neg : bool) (s : pystr) : option (float64 * pystr) :=
  let l := map ascii_lower s in
  if startswith l (py "infinity") then Some (S754_infinity neg, drop 8 s)
  else if startswith l (py "inf") then Some (S754_infinity neg, drop 3 s)
  else if startswith l (py "nan") then Some (S754_nan, drop 3 s)
  else None.

(** [float(s)] for a string; [None] where Python raises [ValueError]. *)
Definition float_of_str (s : pystr) : option float64 :=
  match transform s with
  | None => None
  | Some t =>
    match without_underscores t with
    | None => None
    | Some u =>
      let '(neg, r) := split_sign (strip_by c_isspace u) in
      match
        match parse_inf_or_nan neg r with
        | Some x => Some x
        | None => parse_decimal neg r
        end
      with
      | Some (f, []) => Some f
      | _ => None
      end
    end
  end.

(** [float(n)] for an [int]; [None] where Python raises [OverflowError]. *)
Definition float_of_Z (z : Z) : option float64 :=
  match F64.of_Z z with
  | S754_infinity _ => None
  | f => Some f
  end.

(** [int(x)]; [None] where Python raises. *)
Definition int_ (v : pyvalue) : option Z :=
  match v with
  | PBool b => Some (if b then 1 else 0)%Z
  | PInt z => Some z
  | PFloat f => F64.trunc f
  | PStr s => int_of_str s
  | PNone | PList _ | PDict _ => None
  end.

(** [float(x)]; [None] where Python raises. *)
Definition float_ (v : pyvalue) : option float64 :=
  match v with
  | PBool b => Some (F64.of_Z (if b then 1 else 0))
  | PInt z => float_of_Z z
  | PFloat f => Some f
  | PStr s => float_of_str s
  | PNone | PList _ | PDict _ => None
  end.

(** [str(x)] *)
Definition str (v : pyvalue) : pystr :=
  match v with
  | PNone => py "None"
  | PBool true => py "True"
  | PBool false => py "False"
  | PInt z => str_of_Z z
  | PStr s => s
  | PFloat _ | PList _ | PDict _ => repr v
  end.

(** The truth value of [x] in [if x], [not x] and [x or y]. *)
Definition truthy (v : pyvalue) : bool :=
  match v with
  | PNone => false
  | PBool b => b
  | PInt z => negb (z =? 0)%Z
  | PFloat f => negb (F64.eqb f F64.zero)
  | PStr s => negb (bool_decide (s = []))
  | PList l => negb (bool_decide (length l = 0%nat))
  | PDict d => negb (bool_decide (length d = 0%nat))
  end.

(** [s.strip()] and [s.split()] *)
Definition strip (s : pystr) : pystr := strip_by isspace s.
Definition split (s : pystr) : list pystr := tokens isspace s.

End WithRuntime.

End Py.

(** A runtime that knows no character outside ASCII: it agrees with every
    runtime on ASCII text, which is all it is used for. *)
Lemma ascii_isalnum_not_isspace c :
  ascii_isalnum c = true -> ascii_isspace c = false.
Proof.
  unfold ascii_isalnum, ascii_isdigit, ascii_isupper, ascii_islower,
    ascii_isspace, between.
  rewrite !orb_true_iff, !andb_true_iff, !N.leb_le.
  intros Hc. apply orb_false_iff; split; apply andb_false_iff;
    rewrite !N.leb_gt; lia.
Qed.

Definition ascii_runtime : PyRuntime := {|
  isspace := ascii_isspace;
  isalnum := ascii_isalnum;
  todecimal := fun _ => None;
  lower := map ascii_lower;
  capitalize := ascii_capitalize;
  repr := fun _ => py "?";
  int_max_str_digits := 4300;
  isspace_ascii := fun _ _ => eq_refl;
  isalnum_ascii := fun _ _ => eq_refl;
  lower_ascii := fun _ _ => eq_refl;
  capitalize_ascii := fun _ _ => eq_refl;
  isalnum_not_isspace := ascii_isalnum_not_isspace
|}.

(** ** set-property.py *)

Module SetProperty.

(** One entry of a service's [target.entity] list. *)
Record entity_selector := {
  sel_domain : option (list pystr)
}.

(** The description of one service in the catalogue ([meta]): its declared
    fields and the entity selectors of its target. *)
Record service_meta := {
  meta_fields : option (gmap pystr pyvalue);
  meta_target_entity : option (list entity_selector)
}.

(** One element of the [/api/services] answer: a domain and its services, in
    the order the JSON object lists them. *)
Record domain_services := {
  svc_domain : pystr;
  svc_services : option (list (pystr * service_meta))
}.

(** What [select_service] returns. *)
Record choice := {
  domain : pystr;
  name : pystr;
  fields : gmap pystr pyvalue;
  score : Z
}.

Section WithRuntime.
Context `{PyRuntime}.

Definition on_values : list pystr := [py "on"; py "true"; py "1"; py "open"].
Definition off_values : list pystr :=
  [py "off"; py "false"; py "0"; py "closed"; py "close"].

(** [desired = str(value).strip().lower()] *)
Definition desired_of (value : pyvalue) : pystr := lower (Py.strip (Py.str value)).

Definition shortcut_choice (ent_domain svc : pystr) : choice :=
  {| domain := ent_domain; name := svc;
     fields := {[ py "entity_id" := PDict [] ]}; score := 100 |}.

(** The first part of [select_service]: the mapping for on/off style state
    changes. [None] when the function goes on to the catalogue. *)
Definition shortcut (prop : pystr) (value : pyvalue) (ent_domain : pystr)
  : option choice :=
  if eqb prop (py "state") then
    let desired := desired_of value in
    match
      (if mem ent_domain [py "light"; py "switch"; py "fan"; py "input_boolean"]
       then
         if mem desired on_values then Some (py "turn_on")
         else if mem desired off_values then Some (py "turn_off")
         else None
       else None)
    with
    | Some svc => Some (shortcut_choice ent_domain svc)
    | None =>
      if eqb ent_domain (py "cover") then
        match
          (if mem desired [py "open"] then Some (py "open_cover")
           else if mem desired [py "closed"; py "close"] then Some (py "close_cover")
           else None)
        with
        | Some svc => Some (shortcut_choice ent_domain svc)
        | None => None
        end
      else None
    end
  else None.

(** [fields = meta.get("fields") or {}] *)
Definition fields_of (meta : service_meta) : gmap pystr pyvalue :=
  default ∅ (meta_fields meta).

(** [target = (meta.get("target") or {}).get("entity", [])] *)
Definition target_of (meta : service_meta) : list entity_selector :=
  default [] (meta_target_entity meta).

Definition has_field (k : pystr) (fs : gmap pystr pyvalue) : bool :=
  bool_decide (is_Some (fs !! k)).

Definition legacy_applies (meta : service_meta) : bool :=
  has_field (py "entity_id") (fields_of meta).

Definition modern_applies (ent_domain : pystr) (meta : service_meta) : bool :=
  existsb (fun t => mem ent_domain (default [] (sel_domain t))) (target_of meta).

Definition bonus (b : bool) (n : Z) : Z := if b then n else 0%Z.

(** The score the loop accumulates for one applicable service. *)
Definition score_of (prop ent_domain dom nm : pystr) (fs : gmap pystr pyvalue) : Z :=
  (bonus (eqb dom (py "virtual")) 5
   + bonus (contains (py "set") nm) 3
   + bonus (has_field prop fs) 3
   + bonus (eqb prop (py "state") && has_field (py "value") fs) 2
   + bonus (eqb dom ent_domain) 1)%Z.

(** The body of the inner loop: the candidate appended for one service, if
    any. *)
Definition consider (prop ent_domain dom : pystr) (entry : pystr * service_meta)
  : list choice :=
  let '(nm, meta) := entry in
  let fs := fields_of meta in
  if negb (legacy_applies meta || modern_applies ent_domain meta) then []
  else
    let sc := score_of prop ent_domain dom nm fs in
    if (0 <? sc)%Z
    then [{| domain := dom; name := nm; fields := fs; score := sc |}]
    else [].

(** The two nested loops over the catalogue. *)
Definition candidates_of (prop ent_domain : pystr) (services : list domain_services)
  : list choice :=
  flat_map
    (fun svc =>
       flat_map (consider prop ent_domain (svc_domain svc))
                (default [] (svc_services svc)))
    services.

(** [candidates.sort(key=lambda x: x["score"], reverse=True)]: a stable sort,
    highest score first, equal scores in their order of arrival. *)
Fixpoint insert_desc (c : choice) (l : list choice) : list choice :=
  match l with
  | [] => [c]
  | d :: l' =>
    if (score d <=? score c)%Z then c :: l else d :: insert_desc c l'
  end.

Definition sort_desc (l : list choice) : list choice := foldr insert_desc [] l.

(** The second part of [select_service]: scoring over the catalogue. *)
Definition select_scored (prop ent_domain : pystr) (services : list domain_services)
  : option choice :=
  head (sort_desc (candidates_of prop ent_domain services)).

Definition select_service (prop : pystr) (value : pyvalue) (ent_domain : pystr)
    (services : list domain_services) : option choice :=
  match shortcut prop value ent_domain with
  | Some c => Some c
  | None => select_scored prop ent_domain services
  end.

(** The payload [main] builds for the chosen service. *)
Definition service_payload (entity_id prop : pystr) (value : pyvalue)
    (ent_domain : pystr) (chosen : choice) : gmap pystr pyvalue :=
  let payload : gmap pystr pyvalue := {[ py "entity_id" := PStr entity_id ]} in
  let fs := fields chosen in
  if eqb prop (py "state") then
    if has_field (py "value") fs then <[ py "value" := value ]> payload
    else payload
  else if has_field prop fs then <[ prop := value ]> payload
  else if eqb ent_domain (py "light")
          && mem prop [py "brightness"; py "brightness_pct"]
       then <[ prop := value ]> payload
  else <[ prop := value ]> payload.

(** The answer of [GET /api/states/<entity_id>], as far as [main] reads it. *)
Record entity_state := {
  st_state : pyvalue;
  st_attributes : option (gmap pystr pyvalue)
}.

(** The body of [POST /api/states/<entity_id>]. *)
Record state_payload := {
  p_state : pyvalue;
  p_attributes : gmap pystr pyvalue
}.

(** The fallback of [main] when no service was chosen. *)
Definition fallback_payload (prop : pystr) (value : pyvalue) (current : entity_state)
  : state_payload :=
  let current_state := st_state current in
  let current_attrs := default ∅ (st_attributes current) in
  let new_state := if eqb prop (py "state") then value else current_state in
  (* [dict(current_attrs)] is a copy: the same mapping as a value *)
  let new_attrs := if negb (eqb prop (py "state")) then current_attrs else current_attrs in
  let new_attrs :=
    if negb (eqb prop (py "state")) then <[ prop := value ]> new_attrs
    else new_attrs in
  {| p_state := new_state; p_attributes := new_attrs |}.

(** What [main] sends once the entity is resolved: a service call or the
    direct state write. *)
Inductive request :=
| CallService (dom nm : pystr) (payload : gmap pystr pyvalue)
| SetState (entity_id : pystr) (body : state_payload).

Definition main_request (entity_id prop : pystr) (value : pyvalue)
    (services : list domain_services) (current : entity_state) : request :=
  let ent_domain := split_first 46 entity_id in
  match select_service prop value ent_domain services with
  | Some chosen =>
    CallService (domain chosen) (name chosen)
      (service_payload entity_id prop value ent_domain chosen)
  | None => SetState entity_id (fallback_payload prop value current)
  end.

End WithRuntime.

End SetProperty.

(** ** ygg_ha_adapter.py *)

Module Adapter.

Definition XSD_BOOL : pystr := py "http://www.w3.org/2001/XMLSchema#boolean".
Definition XSD_INT : pystr := py "http://www.w3.org/2001/XMLSchema#integer".
Definition XSD_DOUBLE : pystr := py "http://www.w3.org/2001/XMLSchema#double".
Definition XSD_STRING : pystr := py "http://www.w3.org/2001/XMLSchema#string".

(** [not x] for an optional string: absent or empty. *)
Definition present (o : option pystr) : bool :=
  match o with
  | Some (_ :: _) => true
  | _ => false
  end.

(** The symbol table of [_sanitize_unit]. *)
Definition mapping : gmap pystr pystr :=
  list_to_map
    [ (py "°C", py "degc");
      (py "°F", py "degf");
      (py "%", py "percent");
      (py "µg/m³", py "ugm3");
      (py "μg/m³", py "ugm3");
      (py "kWh", py "kwh");
      (py "W", py "w");
      (py "Wh", py "wh");
      (py "V", py "v");
      (py "A", py "a");
      (py "lx", py "lx") ].

(** The devices and entities of the hub's registries, as far as the adapter
    reads them. *)
Record device := {
  dev_id : pystr;
  dev_name : option pystr;
  dev_area_id : option pystr
}.

Record entity := {
  entity_id : pystr;
  device_id : option pystr;
  area_id : option pystr
}.

(** The three maps [_build_entity_area_map] returns. *)
Record registry_index := {
  ent_to_area : gmap pystr pystr;
  ent_to_device : gmap pystr pystr;
  dev_by_id : gmap pystr device
}.

(** A [state_changed] message of the event stream. *)
Record state_object := {
  so_state : option pystr;
  so_attributes : gmap pystr pyvalue
}.

Record event_data := {
  data_entity_id : option pystr;
  data_new_state : option state_object
}.

Record event := {
  event_type : option pystr;
  event_data_ : option event_data;
  time_fired : pyvalue
}.

Record ws_message := {
  msg_type : option pystr;
  msg_event : option event
}.

(** The JSON body posted to the monitor. *)
Record notification := {
  artifactUri : pystr;
  propertyUri : pystr;
  value : pyvalue;
  valueTypeUri : pystr;
  timestamp : pyvalue;
  triggerUri : pystr
}.

(** The configuration read from the environment. *)
Record config := {
  MONITOR_URL : pystr;
  AREAS : gset pystr;
  BASE_WS_URI : pystr
}.

Section WithRuntime.
Context `{PyRuntime}.

Definition _sanitize_unit (unit : option pystr) : option pystr :=
  if negb (present unit) then None
  else
    let unit := default [] unit in
    match mapping !! unit with
    | Some v => Some v
    | None =>
      match lower (List.filter isalnum unit) with
      | [] => None
      | s => Some s
      end
    end.

Definition _camel_token (token : pystr) : pystr :=
  let token := map (fun ch => if isalnum ch then ch else 32%N) token in
  concat (map capitalize (Py.split token)).

Definition _sensor_action_name (device_class unit : option pystr) : option pystr :=
  let su_raw := _sanitize_unit unit in
  if negb (present su_raw) then None
  else
    let unit_cc := _camel_token (default [] su_raw) in
    let dc := Py.strip (default [] device_class) in
    match dc with
    | _ :: _ =>
      let dc_cc := _camel_token dc in
      Some (py "get" ++ dc_cc ++ py "In" ++ unit_cc)
    | [] => Some (py "getIn" ++ unit_cc)
    end.

Definition _infer_value_and_type (state : pystr) : pyvalue * pystr :=
  if mem state [py "on"; py "off"] then (PBool (eqb state (py "on")), XSD_BOOL)
  else
    match Py.int_of_str state with
    | Some i => (PInt i, XSD_INT)
    | None =>
      match Py.float_of_str state with
      | Some f => (PFloat f, XSD_DOUBLE)
      | None => (PStr state, XSD_STRING)
      end
    end.

(** [_build_entity_area_map], from the two registry listings it received. *)
Definition index_devices (devices : list device) : gmap pystr device :=
  foldl (fun m d => <[ dev_id d := d ]> m) ∅ devices.

(** One turn of the loop over the entities. *)
Definition index_entity (dev_by_id : gmap pystr device)
    (acc : gmap pystr pystr * gmap pystr pystr) (e : entity)
  : gmap pystr pystr * gmap pystr pystr :=
  let '(ent_to_area, ent_to_device) := acc in
  let area := area_id e in
  let area :=
    if negb (present area) && present (device_id e)
    then (dev_by_id !! default [] (device_id e)) ≫= dev_area_id
    else area in
  let ent_to_area :=
    if present area then <[ entity_id e := default [] area ]> ent_to_area
    else ent_to_area in
  let ent_to_device :=
    if present (device_id e)
    then <[ entity_id e := default [] (device_id e) ]> ent_to_device
    else ent_to_device in
  (ent_to_area, ent_to_device).

Definition _build_entity_area_map (devices : list device) (entities : list entity)
  : registry_index :=
  let dev_by_id := index_devices devices in
  let '(ent_to_area, ent_to_device) :=
    foldl (index_entity dev_by_id) (∅, ∅) entities in
  {| ent_to_area := ent_to_area; ent_to_device := ent_to_device;
     dev_by_id := dev_by_id |}.

(** [x or y] on values. *)
Definition or_else (x : option pyvalue) (y : pyvalue) : pyvalue :=
  match x with
  | Some v => if Py.truthy v then v else y
  | None => y
  end.

(** The body of the inner loop of [_event_forwarder_task] for one received
    message: the notification posted to the monitor, or [None] when the
    message is skipped with [continue]. *)
Definition forward_message (cfg : config) (ix : registry_index) (msg : ws_message)
  : option notification :=
  if negb (bool_decide (msg_type msg = Some (py "event"))) then None
  else
    let ev := msg_event msg in
    if negb (bool_decide ((ev ≫= event_type) = Some (py "state_changed"))) then None
    else
      let data := ev ≫= event_data_ in
      let entity_id := data ≫= data_entity_id in
      let new := data ≫= data_new_state in
      let state := new ≫= so_state in
      let attrs := default ∅ (so_attributes <$> new) in
      let tstamp := default PNone (time_fired <$> ev) in
      if negb (present entity_id)
         || bool_decide (state ∈ [None; Some (py "unknown"); Some (py "unavailable")])
      then None
      else
        let entity_id := default [] entity_id in
        let state := default [] state in
        let area_id := ent_to_area ix !! entity_id in
        if negb (present area_id)
           || (negb (bool_decide (AREAS cfg = ∅))
               && negb (bool_decide (default [] area_id ∈ AREAS cfg)))
        then None
        else
          let area_id := default [] area_id in
          let dev_id := ent_to_device ix !! entity_id in
          let device_name :=
            if present dev_id
            then (dev_by_id ix !! default [] dev_id) ≫= dev_name
            else None in
          let device_name :=
            if negb (present device_name) then split1_last 46 entity_id
            else default [] device_name in
          let artifact_name := quote device_name in
          let prop := or_else (attrs !! py "device_class") (PStr (py "state")) in
          let '(value, xtype) := _infer_value_and_type state in
          let artifact_profile :=
            rstrip_chars (py "/") (BASE_WS_URI cfg) ++ py "/workspaces/" ++ area_id
            ++ py "/artifacts/" ++ artifact_name in
          Some {| artifactUri := artifact_profile ++ py "#artifact";
                  propertyUri := artifact_profile ++ py "/props/" ++ Py.str prop;
                  value := value;
                  valueTypeUri := xtype;
                  timestamp := tstamp;
                  triggerUri := artifact_profile ++ py "/actions/read" |}.

(** *** The forwarder task as a state machine

    The task is observed at its suspension points: [CONNECTING] while the
    handshake and the subscription are awaited, [SUBSCRIBED] while the next
    message is awaited, [DISCONNECTED] during the delay that follows an error,
    [STOPPED] once the task has ended. The hub's registries are part of the
    state of the world and may change at any time. *)
Inductive phase := DISCONNECTED | CONNECTING | SUBSCRIBED | STOPPED.

Record registry := {
  reg_devices : list device;
  reg_entities : list entity
}.

Record world := {
  hub : registry;                  (* what the registries hold now *)
  task_phase : phase;
  task_index : registry_index;     (* the task's local maps *)
  posted : list notification       (* the bodies posted so far, oldest first *)
}.

Inductive input :=
| RegistryChanged (r : registry)   (* the registries now hold [r] *)
| Connected                        (* handshake and subscription succeeded *)
| Failed                           (* the pending await raised an exception *)
| Received (m : ws_message)        (* [ws.recv()] returned a message *)
| Slept                            (* the delay of 3 seconds elapsed *)
| Cancelled.                       (* the pending await raised [CancelledError] *)

Definition build (r : registry) : registry_index :=
  _build_entity_area_map (reg_devices r) (reg_entities r).

(** The start of [_event_forwarder_task]: without a monitor URL the task
    returns at once ([None]); otherwise the maps are built from the
    registries as they are then, and the outer loop is entered. *)
Definition start (cfg : config) (r : registry) : option world :=
  match MONITOR_URL cfg with
  | [] => None
  | _ :: _ =>
    Some {| hub := r; task_phase := CONNECTING; task_index := build r; posted := [] |}
  end.

Definition set_phase (w : world) (p : phase) : world :=
  {| hub := hub w; task_phase := p; task_index := task_index w; posted := posted w |}.

Definition step (cfg : config) (w : world) (i : input) : world :=
  match i, task_phase w with
  | RegistryChanged r, _ =>
    {| hub := r; task_phase := task_phase w; task_index := task_index w;
       posted := posted w |}
  | _, STOPPED => w
  | Cancelled, _ => set_phase w STOPPED
  | Connected, CONNECTING => set_phase w SUBSCRIBED
  | Failed, CONNECTING => set_phase w DISCONNECTED
  | Failed, SUBSCRIBED => set_phase w DISCONNECTED
  | Received m, SUBSCRIBED =>
    {| hub := hub w; task_phase := SUBSCRIBED; task_index := task_index w;
       posted := posted w ++ option_list (forward_message cfg (task_index w) m) |}
  | Slept, DISCONNECTED => set_phase w CONNECTING
  | _, _ => w
  end.

Definition run (cfg : config) (w : world) (inputs : list input) : world :=
  foldl (step cfg) w inputs.

End WithRuntime.

End Adapter.

(** ** adjust_lux_on_events.py *)

Module AdjustLux.

(** A key of a JSON object where the code tells a missing key from a JSON
    [null]: [d.get(k, default)] gives the default for a missing key only,
    and a [null] is handed on as [None]. *)
Inductive keyed (A : Type) :=
| Missing
| Null
| Held (a : A).

Arguments Missing {A}.
Arguments Null {A}.
Arguments Held {A} a.

(** A state object of an event ([new_state], [old_state]). Both keys are
    read with [x.get(k) or default], which takes a missing key, a [null] and
    an empty value alike. *)
Record state_object := {
  so_state : option pystr;
  so_attributes : option (gmap pystr pyvalue)
}.

(** [new_state] and [old_state] are [None] when the key is missing, null or
    an empty object; these are the values [x or {}] replaces and [if old]
    takes for false. The entity id is read with [data.get("entity_id", "")],
    which keeps a [null]. *)
Record event_data := {
  data_entity_id : keyed pystr;
  data_new_state : option state_object;
  data_old_state : option state_object
}.

(** [msg_data] is [ev.get("event", {}).get("data", {})]: [Missing] when one
    of the two keys is missing, [Null] when [event] or [data] is null. *)
Record ws_message := {
  msg_type : option pystr;
  msg_data : keyed event_data
}.

(** The four magnitudes read from the environment. *)
Record config := {
  inc_light : Z;
  dec_light : Z;
  inc_blinds : Z;
  dec_blinds : Z
}.

(** One service of the catalogue, as [_pick_set_service] reads it. *)
Record service_meta := {
  meta_fields : option (gmap pystr pyvalue);
  meta_target_entity : option (list (option (list pystr)))
}.

Record domain_services := {
  svc_domain : pystr;
  svc_services : option (list (pystr * service_meta))
}.

(** What [_set_sensor_value] sends. *)
Inductive request :=
| CallService (dom nm : pystr) (payload : gmap pystr pyvalue)
| SetState (entity_id : pystr) (state : pyvalue) (attributes : gmap pystr pyvalue).

(** How one turn of the loop of [main] ends: with [continue] or a caught
    exception and nothing written, with a value handed to
    [_set_sensor_value], or with an exception that leaves the loop. *)
Inductive turn :=
| Continued
| Written (new_val : float64)
| Crashed.

Section WithRuntime.
Context `{PyRuntime}.

(** [int((st.get("attributes") or {}).get("current_position"))] *)
Definition position (st : option state_object) : option Z :=
  Py.int_ (default PNone (default ∅ (st ≫= so_attributes) !! py "current_position")).

(** [_delta_from_event]; [None] where it raises: on a null [event] or [data]
    ([None] has no [get]) and on a null entity id (["." in ent], outside the
    [try] block). *)
Definition _delta_from_event (ev : ws_message) (inc_light dec_light inc_blinds dec_blinds : Z)
  : option (Z * pystr) :=
  data ← match msg_data ev with
         | Missing => Some {| data_entity_id := Missing; data_new_state := None;
                              data_old_state := None |}
         | Null => None
         | Held data => Some data
         end;
  ent ← match data_entity_id data with
        | Missing => Some []
        | Null => None
        | Held ent => Some ent
        end;
  let new := data_new_state data in
  let old := data_old_state data in
  let state := lower (default [] (new ≫= so_state)) in
  let domain := if bool_decide (46%N ∈ ent) then split_first 46 ent else [] in
  let nothing : Z * pystr := (0%Z, []) in
  Some
    (if eqb domain (py "light") && eqb state (py "on") then (inc_light, py "light")
     else if eqb domain (py "light") && eqb state (py "off")
     then ((- dec_light)%Z, py "light")
     else if eqb domain (py "cover") then
       if mem state [py "opening"; py "open"] then (inc_blinds, py "cover")
       else if mem state [py "closing"; py "closed"] then ((- dec_blinds)%Z, py "cover")
       else
         (* the [try] block: any exception leaves it for the final [return] *)
         match position new with
         | None => nothing
         | Some new_pos =>
           match old with
           | None => nothing
           | Some _ =>
             match position old with
             | None => nothing
             | Some old_pos =>
               if (old_pos <? new_pos)%Z then (inc_blinds, py "cover")
               else if (new_pos <? old_pos)%Z then ((- dec_blinds)%Z, py "cover")
               else nothing
             end
           end
         end
     else nothing).

Definition has_field (k : pystr) (fs : gmap pystr pyvalue) : bool :=
  bool_decide (is_Some (fs !! k)).

(** One turn of the inner loop of [_pick_set_service] on the best service
    found so far. *)
Definition pick_step (dom : pystr)
    (best : option (pystr * pystr * gmap pystr pyvalue * Z))
    (entry : pystr * service_meta)
  : option (pystr * pystr * gmap pystr pyvalue * Z) :=
  let '(nm, meta) := entry in
  let fs := default ∅ (meta_fields meta) in
  let target := default [] (meta_target_entity meta) in
  let legacy := has_field (py "entity_id") fs in
  let modern := existsb (fun t => mem (py "sensor") (default [] t)) target in
  if negb (legacy || modern) then best
  else
    let sc := ((if eqb dom (py "virtual") then 5 else 0)
               + (if contains (py "set") nm || has_field (py "value") fs then 3 else 0))%Z in
    if (0 <? sc)%Z
       && match best with
          | None => true
          | Some (_, _, _, b) => (b <? sc)%Z
          end
    then Some (dom, nm, fs, sc)
    else best.

Definition _pick_set_service (services : list domain_services)
  : option (pystr * pystr * gmap pystr pyvalue) :=
  match
    foldl (fun best svc =>
             foldl (pick_step (svc_domain svc)) best (default [] (svc_services svc)))
          None services
  with
  | Some (dom, nm, fs, _) => Some (dom, nm, fs)
  | None => None
  end.


(** [max(0.0, x)]: the first argument unless the second is greater. *)
Definition max0 (x : float64) : float64 :=
  if F64.ltb F64.zero x then x else F64.zero.

(** The body of the loop of [main] for one message. [fetched] is the state
    the hub returns for the sensor ([None] when the request fails). The call
    of [_delta_from_event] stands outside the [try] block, so where it raises
    the loop is left; the exceptions of the block itself are caught. *)
Definition adjust (cfg : config) (msg : ws_message) (fetched : option pyvalue)
  : turn :=
  if negb (bool_decide (msg_type msg = Some (py "event"))) then Continued
  else
    match _delta_from_event msg (inc_light cfg) (dec_light cfg) (inc_blinds cfg)
            (dec_blinds cfg) with
    | None => Crashed
    | Some (delta, src) =>
      if (delta =? 0)%Z then Continued
      else
        match fetched with
        | None => Continued
        | Some cur_val_raw =>
          let cur_val := default F64.zero (Py.float_ cur_val_raw) in
          match Py.float_of_Z delta with
          | None => Continued
          | Some d => Written (max0 (F64.add cur_val d))
          end
        end
    end.

(** The loop of [main] over a list of messages, against a hub that returns
    for the sensor the value last written to it: the sensor's last value and
    the values written, in order. The loop ends with the messages or with
    the first turn that raises. *)
Fixpoint run (cfg : config) (sensor : pyvalue) (msgs : list ws_message)
  : pyvalue * list float64 :=
  match msgs with
  | [] => (sensor, [])
  | msg :: msgs =>
    match adjust cfg msg (Some sensor) with
    | Continued => run cfg sensor msgs
    | Written v => let '(last, written) := run cfg (PFloat v) msgs in (last, v :: written)
    | Crashed => (sensor, [])
    end
  end.

End WithRuntime.

End AdjustLux.

(** ** The rules as the specification words them

    Definitions written from the specification's sentences, to be compared
    with the functions above. *)

Module Spec.

Import SetProperty.

(** A service declares the field [k]. *)
Definition declares (meta : service_meta) (k : pystr) : Prop :=
  exists fs v, meta_fields meta = Some fs /\ fs !! k = Some v.

(** Legacy applicability: an explicit [entity_id] field. *)
Definition legacy (meta : service_meta) : Prop := declares meta (py "entity_id").

(** Modern applicability: the domain list of one of the target's entity
    selectors includes the entity's domain. *)
Definition modern (ent_domain : pystr) (meta : service_meta) : Prop :=
  exists ts t ds,
    meta_target_entity meta = Some ts /\ t ∈ ts /\ sel_domain t = Some ds /\
    ent_domain ∈ ds.

Definition candidate (ent_domain : pystr) (meta : service_meta) : Prop :=
  legacy meta \/ modern ent_domain meta.

(** [a] occurs in [b] as a substring. *)
Definition substring (a b : pystr) : Prop := exists p q, b = p ++ a ++ q.

(** A term of the score: [n] points when [P] holds, none otherwise. *)
Definition points (P : Prop) (n s : Z) : Prop := (P /\ s = n) \/ (~ P /\ s = 0%Z).

(** The score of a service: the sum of the five terms. *)
Definition scores (prop ent_domain dom nm : pystr) (meta : service_meta) (s : Z) : Prop :=
  exists s1 s2 s3 s4 s5,
    points (dom = py "virtual") 5 s1 /\
    points (substring (py "set") nm) 3 s2 /\
    points (declares meta prop) 3 s3 /\
    points (prop = py "state" /\ declares meta (py "value")) 2 s4 /\
    points (dom = ent_domain) 1 s5 /\
    s = (s1 + s2 + s3 + s4 + s5)%Z.

(** The services of the catalogue in enumeration order. *)
Definition enumerate (services : list domain_services)
  : list (pystr * (pystr * service_meta)) :=
  flat_map (fun svc => map (pair (svc_domain svc)) (default [] (svc_services svc)))
           services.

(** The scores of [l] never rise from left to right. *)
Definition descending (l : list choice) : Prop :=
  forall i j c d, (i < j)%nat -> l !! i = Some c -> l !! j = Some d ->
    (score d <= score c)%Z.

(** [c] is the first of the highest-scoring elements of [l]. *)
Definition first_best (l : list choice) (c : choice) : Prop :=
  exists i,
    l !! i = Some c /\
    (forall j d, l !! j = Some d -> (score d <= score c)%Z) /\
    (forall j d, (j < i)%nat -> l !! j = Some d -> (score d < score c)%Z).

Import Adapter.

(** The area of an entity: its own when present, else that of its device,
    looked up by [device_id] among the devices (the last one listed under
    that id). *)
Definition device_of (devices : list device) (did : pystr) : option device :=
  last (List.filter (fun d => eqb (dev_id d) did) devices).

Definition nonempty (o : option pystr) : option pystr :=
  if present o then o else None.

Definition area_of (devices : list device) (e : entity) : option pystr :=
  match nonempty (area_id e) with
  | Some a => Some a
  | None =>
    match nonempty (device_id e) with
    | Some did => nonempty (device_of devices did ≫= dev_area_id)
    | None => None
    end
  end.

(** The area the loop of the index builder files an entity under. *)
Definition filed_area (m : gmap pystr device) (e : entity) : option pystr :=
  nonempty
    (if negb (present (area_id e)) && present (device_id e)
     then (m !! default [] (device_id e)) ≫= dev_area_id
     else area_id e).

(** What the filter of the forwarder reads from a message: the entity, its
    new state and the area the index gives the entity. *)
Definition msg_data (msg : ws_message) : option event_data :=
  msg_event msg ≫= event_data_.

Definition msg_entity (msg : ws_message) : option pystr :=
  msg_data msg ≫= data_entity_id.

Definition msg_state (msg : ws_message) : option pystr :=
  (msg_data msg ≫= data_new_state) ≫= so_state.

Definition msg_area (ix : registry_index) (msg : ws_message) : option pystr :=
  msg_entity msg ≫= fun e => ent_to_area ix !! e.

(** The new states that are no event: absent, unknown, unavailable. *)
Definition dead_states : list (option pystr) :=
  [None; Some (py "unknown"); Some (py "unavailable")].

(** The messages the forwarder lets through. *)
Definition accepted (cfg : config) (ix : registry_index) (msg : ws_message) : Prop :=
  msg_type msg = Some (py "event") /\
  (msg_event msg ≫= event_type) = Some (py "state_changed") /\
  present (msg_entity msg) = true /\
  (msg_state msg ∉ dead_states) /\
  present (msg_area ix msg) = true /\
  (AREAS cfg = ∅ \/ default [] (msg_area ix msg) ∈ AREAS cfg).

Section WithRuntime.
Context `{PyRuntime}.

(** The unit through the symbol table, else stripped of everything that is
    not alphanumeric, in lower case; nothing when no character is left. *)
Definition normalize_unit (unit : pystr) : option pystr :=
  match mapping !! unit with
  | Some v => Some v
  | None => nonempty (Some (lower (List.filter isalnum unit)))
  end.

(** The tokens of a string, delimited by whatever is not alphanumeric, each
    capitalized, and joined. *)
Definition title_tokens (s : pystr) : pystr :=
  concat (map capitalize (tokens (fun c => negb (isalnum c)) s)).

Definition action_name (device_class : option pystr) (unit : option pystr)
  : option pystr :=
  match nonempty unit ≫= normalize_unit with
  | None => None
  | Some u =>
    Some (match device_class with
          | Some dc => py "get" ++ title_tokens dc ++ py "In" ++ title_tokens u
          | None => py "getIn" ++ title_tokens u
          end)
  end.

End WithRuntime.

End Spec.

(** ** The triggers of the illuminance accumulator *)

Module LuxRules.
Import AdjustLux.

(** What moves the accumulator. *)
Inductive trigger := LightOn | LightOff | CoverUp | CoverDown.

(** The signed delta of a trigger. *)
Definition delta_of (cfg : config) (t : trigger) : Z :=
  match t with
  | LightOn => inc_light cfg
  | LightOff => - dec_light cfg
  | CoverUp => inc_blinds cfg
  | CoverDown => - dec_blinds cfg
  end.


Section WithRuntime.
Context `{PyRuntime}.

(** The entity id of an event: the empty string when the event holds none,
    and nothing where a [null] stands for the data or for the id. *)
Definition ev_entity (msg : ws_message) : option pystr :=
  match msg_data msg with
  | Missing => Some []
  | Null => None
  | Held data =>
    match data_entity_id data with
    | Missing => Some []
    | Null => None
    | Held ent => Some ent
    end
  end.

(** An event the accumulator can read. *)
Definition readable (msg : ws_message) : Prop := is_Some (ev_entity msg).

(** The new and the previous state of an event. *)
Definition ev_new (msg : ws_message) : option state_object :=
  match msg_data msg with
  | Held data => data_new_state data
  | Missing | Null => None
  end.

Definition ev_old (msg : ws_message) : option state_object :=
  match msg_data msg with
  | Held data => data_old_state data
  | Missing | Null => None
  end.

(** The domain of the entity of an event, and its new state in lower case. *)
Definition ev_domain (msg : ws_message) : pystr :=
  match ev_entity msg with
  | Some ent => if bool_decide (46%N ∈ ent) then split_first 46 ent else []
  | None => []
  end.

Definition ev_state (msg : ws_message) : pystr :=
  lower (default [] (ev_new msg ≫= so_state)).

(** The state holds the position [p]: its attribute [current_position] is
    there and reads as the integer [p]. *)
Definition position_of (st : state_object) (p : Z) : Prop :=
  exists attrs v,
    so_attributes st = Some attrs /\ attrs !! py "current_position" = Some v /\
    Py.int_ v = Some p.

(** The cover went from position [o] to position [n]: the previous and the
    new state are both there and hold these positions. *)
Definition positions (msg : ws_message) (o n : Z) : Prop :=
  exists old new,
    ev_old msg = Some old /\ ev_new msg = Some new /\
    position_of old o /\ position_of new n.

Definition moving : list pystr := [py "opening"; py "open"; py "closing"; py "closed"].

(** The triggers as the specification lists them. *)
Definition triggers (msg : ws_message) (t : trigger) : Prop :=
  match t with
  | LightOn => ev_domain msg = py "light" /\ ev_state msg = py "on"
  | LightOff => ev_domain msg = py "light" /\ ev_state msg = py "off"
  | CoverUp =>
    ev_domain msg = py "cover" /\
    (ev_state msg ∈ [py "opening"; py "open"] \/
     ((ev_state msg ∉ moving) /\ exists o n, positions msg o n /\ (o < n)%Z))
  | CoverDown =>
    ev_domain msg = py "cover" /\
    (ev_state msg ∈ [py "closing"; py "closed"] \/
     ((ev_state msg ∉ moving) /\ exists o n, positions msg o n /\ (n < o)%Z))
  end.

(** The delta [main] obtains for a message, where [_delta_from_event]
    returns. *)
Definition delta (cfg : config) (msg : ws_message) : option (Z * pystr) :=
  _delta_from_event msg (inc_light cfg) (dec_light cfg) (inc_blinds cfg) (dec_blinds cfg).

End WithRuntime.

End LuxRules.

(** ** Three sentences of the specification, as they are worded

    Stated as predicates on the inputs of the functions they speak of. *)

Module Claimed.

Section WithRuntime.
Context `{PyRuntime}.

Import SetProperty.

(** "If the property is [state] and the domain is one of the on/off-capable
    set, the normalized value (on/true/1/open for on, off/false/0/closed/close
    for off) is mapped to turn-on/turn-off, or to open/close-cover for the
    cover domain, bypassing scoring." *)
Definition on_off_domains : list pystr :=
  [py "light"; py "switch"; py "fan"; py "input_boolean"; py "cover"].

Definition canonical (ent_domain : pystr) (on : bool) : pystr :=
  if eqb ent_domain (py "cover")
  then (if on then py "open_cover" else py "close_cover")
  else (if on then py "turn_on" else py "turn_off").

Definition shortcut_rule (value : pyvalue) (ent_domain : pystr)
    (services : list domain_services) : Prop :=
  ent_domain ∈ on_off_domains ->
  (desired_of value ∈ on_values ->
     select_service (py "state") value ent_domain services
     = Some (shortcut_choice ent_domain (canonical ent_domain true))) /\
  (desired_of value ∈ off_values ->
     select_service (py "state") value ent_domain services
     = Some (shortcut_choice ent_domain (canonical ent_domain false))).

(** "If the service declares a [value] field the value is attached there,
    else if it declares a field matching the property name the value is
    attached there, else the property name itself is the key." *)
Definition payload_key (prop : pystr) (fs : gmap pystr pyvalue) : pystr :=
  if has_field (py "value") fs then py "value"
  else if has_field prop fs then prop
  else prop.

Definition payload_rule (entity_id prop : pystr) (value : pyvalue)
    (ent_domain : pystr) (chosen : choice) : Prop :=
  service_payload entity_id prop value ent_domain chosen
  = <[ payload_key prop (fields chosen) := value ]>
      ({[ py "entity_id" := PStr entity_id ]} : gmap pystr pyvalue).

Import Adapter.

(** "On every transition into SUBSCRIBED the registry index is rebuilt from
    a fresh registry snapshot." *)
Definition rebuilt_on_subscribe (cfg : config) (r : registry) (inputs : list input)
  : Prop :=
  forall w0 k i,
    start cfg r = Some w0 ->
    inputs !! k = Some i ->
    let before := run cfg w0 (take k inputs) in
    let after := step cfg before i in
    task_phase before <> SUBSCRIBED ->
    task_phase after = SUBSCRIBED ->
    task_index after = build (hub after).

End WithRuntime.

End Claimed.

(** ** Concrete inputs used below *)

Module Examples.

Import SetProperty.

(** A catalogue with one service: [virtual.set_value] with the fields
    [entity_id] and [value]. *)
Definition virtual_set_value : list domain_services :=
  [ {| svc_domain := py "virtual";
       svc_services :=
         Some [ (py "set_value",
                 {| meta_fields :=
                      Some (<[ py "entity_id" := PDict [] ]>
                              {[ py "value" := PDict [] ]});
                    meta_target_entity := None |}) ] |} ].

Definition set_value_choice : choice :=
  {| domain := py "virtual"; name := py "set_value";
     fields := <[ py "entity_id" := PDict [] ]> {[ py "value" := PDict [] ]};
     score := 8 |}.

Import Adapter.

Definition monitor_cfg : config :=
  {| MONITOR_URL := py "http://monitor/notify"; AREAS := ∅;
     BASE_WS_URI := py "http://localhost:8080/" |}.

Definition lamp : device :=
  {| dev_id := py "d1"; dev_name := Some (py "Lamp"); dev_area_id := Some (py "kitchen") |}.

Definition bare : device :=
  {| dev_id := py "d2"; dev_name := Some (py "Probe"); dev_area_id := None |}.

(** An entity without an area of its own on a device in the kitchen, and one
    with no area on a device with none. *)
Definition lamp_light : entity :=
  {| entity_id := py "light.lamp"; device_id := Some (py "d1"); area_id := None |}.

Definition probe_sensor : entity :=
  {| entity_id := py "sensor.probe"; device_id := Some (py "d2"); area_id := None |}.

Definition registry0 : registry :=
  {| reg_devices := [lamp; bare]; reg_entities := [lamp_light; probe_sensor] |}.

(** The same registries after the lamp was moved to the hall. *)
Definition registry1 : registry :=
  {| reg_devices :=
       [ {| dev_id := py "d1"; dev_name := Some (py "Lamp");
            dev_area_id := Some (py "hall") |}; bare ];
     reg_entities := [lamp_light; probe_sensor] |}.

(** A connection, a change of the registries, a stream error, the delay and
    the reconnection. *)
Definition reconnect_trace : list input :=
  [Connected; RegistryChanged registry1; Failed; Slept; Connected].

Import AdjustLux.

Definition cfg100 : AdjustLux.config :=
  {| inc_light := 100; dec_light := 100; inc_blinds := 50; dec_blinds := 50 |}.

(** A [state_changed] message for [entity] entering [state]. *)
Definition state_event (entity state : pystr) : AdjustLux.ws_message :=
  {| AdjustLux.msg_type := Some (py "event");
     msg_data :=
       Held {| AdjustLux.data_entity_id := Held entity;
               AdjustLux.data_new_state :=
                 Some {| AdjustLux.so_state := Some state;
                         AdjustLux.so_attributes := None |};
               data_old_state := None |} |}.

(** A state object in [state] with the attribute [current_position]. *)
Definition at_position (state : pystr) (pos : pyvalue) : AdjustLux.state_object :=
  {| AdjustLux.so_state := Some state;
     AdjustLux.so_attributes := Some {[ py "current_position" := pos ]} |}.

(** A [state_changed] message for the cover [entity] that stays in [state]
    while its position goes from [old_pos] to [new_pos]. *)
Definition position_event (entity state : pystr) (old_pos new_pos : pyvalue)
  : AdjustLux.ws_message :=
  {| AdjustLux.msg_type := Some (py "event");
     msg_data :=
       Held {| AdjustLux.data_entity_id := Held entity;
               AdjustLux.data_new_state := Some (at_position state new_pos);
               data_old_state := Some (at_position state old_pos) |} |}.

(** A [state_changed] message whose entity id is [null]. *)
Definition nameless_event (state : pystr) : AdjustLux.ws_message :=
  {| AdjustLux.msg_type := Some (py "event");
     msg_data :=
       Held {| AdjustLux.data_entity_id := Null;
               AdjustLux.data_new_state :=
                 Some {| AdjustLux.so_state := Some state;
                         AdjustLux.so_attributes := None |};
               data_old_state := None |} |}.

End Examples.

(** ** More of adjust_lux_on_events.py: what the sensor service search finds *)

Module LuxPick.
Import AdjustLux.

(** The services of the catalogue in the order the two loops visit them. *)
Definition entries (services : list domain_services)
  : list (pystr * (pystr * service_meta)) :=
  flat_map (fun svc => map (pair (svc_domain svc)) (default [] (svc_services svc)))
           services.

Definition declares (meta : service_meta) (k : pystr) : Prop :=
  exists fs v, meta_fields meta = Some fs /\ fs !! k = Some v.

(** The service can be called on a sensor: it takes an [entity_id], or one
    of its target selectors lists the domain [sensor]. *)
Definition applies (meta : service_meta) : Prop :=
  declares meta (py "entity_id") \/
  exists ts ds, meta_target_entity meta = Some ts /\ Some ds ∈ ts /\ py "sensor" ∈ ds.

(** The score of an applicable service: 5 for the virtual domain, 3 for a
    setter (the name contains "set" or a "value" field is declared). *)
Definition rating (dom nm : pystr) (meta : service_meta) : Z :=
  (if eqb dom (py "virtual") then 5 else 0)
  + (if contains (py "set") nm || has_field (py "value") (default ∅ (meta_fields meta))
     then 3 else 0).

(** The rating of an entry that can be picked: applicable, and positive. *)
Definition rated (entry : pystr * (pystr * service_meta)) (s : Z) : Prop :=
  applies (snd (snd entry)) /\
  s = rating (fst entry) (fst (snd entry)) (snd (snd entry)) /\ (0 < s)%Z.


(** The same rating as a test: [Some s] when the entry can be picked. *)
Definition rated_b (entry : pystr * (pystr * service_meta)) : option Z :=
  let '(dom, (nm, meta)) := entry in
  let fs := default ∅ (meta_fields meta) in
  if has_field (py "entity_id") fs
     || existsb (fun t => mem (py "sensor") (default [] t))
                (default [] (meta_target_entity meta))
  then if (0 <? rating dom nm meta)%Z then Some (rating dom nm meta) else None
  else None.

(** The state of the search after the entries [l]: nothing yet, or the first
    of the best-rated entries. *)
Definition best_of (l : list (pystr * (pystr * service_meta)))
    (o : option (pystr * pystr * gmap pystr pyvalue * Z)) : Prop :=
  match o with
  | None => forall e, e ∈ l -> rated_b e = None
  | Some (dom, nm, fs, sc) =>
    exists i meta,
      l !! i = Some (dom, (nm, meta)) /\ fs = default ∅ (meta_fields meta) /\
      rated_b (dom, (nm, meta)) = Some sc /\
      (forall j e s, l !! j = Some e -> rated_b e = Some s -> (s <= sc)%Z) /\
      (forall j e s, (j < i)%nat -> l !! j = Some e -> rated_b e = Some s -> (s < sc)%Z)
  end.

(** The two loops of [_pick_set_service] as one loop over the entries. *)
Definition search (l : list (pystr * (pystr * service_meta)))
  : option (pystr * pystr * gmap pystr pyvalue * Z) :=
  foldl (fun best e => pick_step (fst e) best (snd e)) None l.

(** The source label [_delta_from_event] returns with the delta. *)
Definition label (t : LuxRules.trigger) : pystr :=
  match t with
  | LuxRules.LightOn | LuxRules.LightOff => py "light"
  | LuxRules.CoverUp | LuxRules.CoverDown => py "cover"
  end.

(** [f] is a number of sign [s] (true for negative). *)
Definition signed_like (s : bool) (f : float64) : Prop :=
  match f with
  | S754_zero s' | S754_infinity s' | S754_finite s' _ _ => s' = s
  | S754_nan => False
  end.

End LuxPick.

(** ** More string operations *)

Module PyText.

(** [s.endswith(suffix)] *)
Definition endswith (s suffix : pystr) : bool := startswith (rev s) (rev suffix).

(** [s.replace(old, new)] for a non-empty [old]: the occurrences of [old]
    are replaced from left to right, none overlapping another. [skip] counts
    the characters of an occurrence still to pass over. *)
Fixpoint replace_from (old new : pystr) (skip : nat) (s : pystr) : pystr :=
  match s with
  | [] => []
  | c :: r =>
    match skip with
    | S k => replace_from old new k r
    | O =>
      if startswith s old then new ++ replace_from old new (length old - 1) r
      else c :: replace_from old new 0 r
    end
  end.

Definition replace (old new s : pystr) : pystr := replace_from old new 0 s.

(** [s[:-n]] for a positive [n] *)
Definition drop_last (n : nat) (s : pystr) : pystr := take (length s - n) s.

(** [s.split(sep)] for a one-character separator: the pieces between the
    separators, empty pieces included. *)
Fixpoint split_on (sep : N) (s : pystr) : list pystr :=
  match s with
  | [] => [[]]
  | c :: r =>
    if (c =? sep)%N then [] :: split_on sep r
    else
      match split_on sep r with
      | w :: ws => (c :: w) :: ws
      | [] => [[c]]
      end
  end.

End PyText.

(** ** set-property.py and adjust_lux_on_events.py: the REST base URL and
       the way of [main] to its request *)

Module SetPropertyCli.
Import PyText SetProperty.

(** [_derive_base_url] of set-property.py. *)
Definition _derive_base_url (ha_url : pystr) : pystr :=
  let base := replace (py "wss://") (py "https://")
                (replace (py "ws://") (py "http://") ha_url) in
  let base :=
    if endswith base (py "/api/websocket")
    then drop_last (length (py "/api/websocket")) base
    else base in
  rstrip_chars (py "/") base.

(** [_base_url] of adjust_lux_on_events.py. *)
Definition _base_url (ha_url : pystr) : pystr :=
  let base := replace (py "wss://") (py "https://")
                (replace (py "ws://") (py "http://") ha_url) in
  let base :=
    if endswith base (py "/api/websocket")
    then drop_last (length (py "/api/websocket")) base
    else base in
  rstrip_chars (py "/") base.

(** The registry entries as [main] reads them, every key with [.get]. *)
Record reg_device := {
  rd_id : option pystr;
  rd_name : option pystr
}.

Record reg_entity := {
  re_entity_id : option pystr;
  re_device_id : option pystr
}.

(** [ent.split(".")[0] if "." in ent else ""] *)
Definition domain_of (ent : pystr) : pystr :=
  if contains [46%N] ent then split_first 46 ent else [].

(** The loop of [pick_entity] over the device's entities. *)
Fixpoint first_preferred (preferred_domains : list pystr)
    (device_entities : list reg_entity) : option pystr :=
  match device_entities with
  | [] => None
  | e :: rest =>
    let ent := default [] (re_entity_id e) in
    let dom := domain_of ent in
    if mem dom preferred_domains then Some ent
    else first_preferred preferred_domains rest
  end.

(** What a call of [pick_entity] comes to. *)
Inductive picked :=
| IndexError
| Returns (entity_id : option pystr).

(** [pick_entity] of [main]; an empty set of domains is as good as none. *)
Definition pick_entity (device_entities : list reg_entity)
    (preferred_domains : option (list pystr)) : picked :=
  match
    match preferred_domains with
    | Some (d :: ds) => first_preferred (d :: ds) device_entities
    | _ => None
    end
  with
  | Some ent => Returns (Some ent)
  | None =>
    match device_entities with
    | e :: _ => Returns (re_entity_id e)
    | [] => IndexError
    end
  end.

(** The domains [main] prefers for a property. *)
Definition preferred_for (prop : pystr) : option (list pystr) :=
  if eqb prop (py "state")
  then Some [py "light"; py "switch"; py "fan"; py "cover"; py "input_boolean"]
  else if mem prop [py "brightness"; py "brightness_pct"] then Some [py "light"]
  else None.

(** [device_entities = [e for e in entities if e.get("device_id") == device.get("id")]] *)
Definition entities_of (device : reg_device) (entities : list reg_entity)
  : list reg_entity :=
  List.filter (fun e => bool_decide (re_device_id e = rd_id device)) entities.

(** How the first block of [main] ends: with an entity, or with one of its
    three error messages and [sys.exit(1)]. *)
Inductive resolution :=
| DeviceNotFound
| NoEntities
| NoEntityId
| Raised
| Chosen (entity_id : pystr).

Definition resolve (devices : list reg_device) (entities : list reg_entity)
    (artifact_name prop : pystr) : resolution :=
  match List.find (fun d => bool_decide (rd_name d = Some artifact_name)) devices with
  | None => DeviceNotFound
  | Some device =>
    let device_entities := entities_of device entities in
    match device_entities with
    | [] => NoEntities
    | _ :: _ =>
      match pick_entity device_entities (preferred_for prop) with
      | Returns (Some (c :: ent)) => Chosen (c :: ent)
      | Returns _ => NoEntityId
      | IndexError => Raised
      end
    end
  end.

End SetPropertyCli.

(** The rules the properties of the command-line tools are stated with. *)

Module CliRules.
Import PyText.

(** What is left of [base] after the websocket path and the slashes are
    taken off. *)
Definition trimmed (base : pystr) : pystr :=
  rstrip_chars (py "/")
    (if endswith base (py "/api/websocket") then drop_last 14 base else base).

End CliRules.

(** ** ygg_ha_adapter.py: configuration and start-up *)

Module Startup.
Import PyText.

(** [s.split(sep)[0]] for a non-empty [sep]: what stands before the first
    occurrence of [sep], all of [s] without one. *)
Fixpoint before_first (sep s : pystr) : pystr :=
  match s with
  | [] => []
  | c :: r => if startswith s sep then [] else c :: before_first sep r
  end.

(** [HA_BASE_URL]: the environment's value, or else the one derived from
    [HA_URL]. *)
Definition HA_BASE_URL (env_base : option pystr) (HA_URL : pystr) : pystr :=
  match env_base with
  | Some (c :: b) => c :: b
  | _ =>
    before_first (py "/api/websocket")
      (replace (py "wss://") (py "https://")
         (replace (py "ws://") (py "http://") HA_URL))
  end.

(** [HomeAssistantREST.__init__] of ha_utils.py: the client's base URL. *)
Definition rest_base_url (base_url : pystr) : pystr := rstrip_chars (py "/") base_url.

(** What [_post_with_retries] does, in order. *)
Inductive effect :=
| Sleep (seconds : Z)
| Post (url : pystr).

Definition delays : list Z := [0; 1; 2; 4; 8]%Z.

(** The turns of the loop of [_post_with_retries] for the attempts [turns];
    [answers attempt] tells whether the POST of that attempt came back
    without an error status or exception. Indexing [delays] out of range
    raises inside the [try] and ends the turn like a failed POST, with
    nothing sent. *)
Fixpoint attempts (url : pystr) (answers : nat -> bool) (turns : list nat)
  : list effect * bool :=
  match turns with
  | [] => ([], false)
  | attempt :: turns =>
    match delays !! attempt with
    | None => attempts url answers turns
    | Some d =>
      let sleep := if (d =? 0)%Z then [] else [Sleep d] in
      if answers attempt then (sleep ++ [Post url], true)
      else
        let '(effects, result) := attempts url answers turns in
        (sleep ++ Post url :: effects, result)
    end
  end.

Definition _post_with_retries (url : pystr) (max_retries : Z) (answers : nat -> bool)
  : list effect * bool :=
  attempts url answers (seq 0 (Z.to_nat max_retries)).

(** [U if U.rstrip('/').endswith(suffix) else U.rstrip('/') + suffix] *)
Definition reset_url (suffix url : pystr) : pystr :=
  if endswith (rstrip_chars (py "/") url) suffix then url
  else rstrip_chars (py "/") url ++ suffix.

Definition _post_monitor_reset (MONITOR_URL : pystr) (answers : nat -> bool)
  : list effect :=
  match MONITOR_URL with
  | [] => []
  | _ :: _ => fst (_post_with_retries (reset_url (py "/reset") MONITOR_URL) 5 answers)
  end.

Definition _post_explorer_reset (EXPLORER_URL : pystr) (answers : nat -> bool)
  : list effect :=
  match EXPLORER_URL with
  | [] => []
  | _ :: _ =>
    fst (_post_with_retries (reset_url (py "/admin/reset") EXPLORER_URL) 5 answers)
  end.

Section WithRuntime.
Context `{PyRuntime}.

(** [AREAS = {a.strip() for a in os.getenv("AREAS", "").split(",") if a.strip()}] *)
Definition parse_areas (env : pystr) : gset pystr :=
  list_to_set
    (map Py.strip
       (List.filter (fun a => negb (bool_decide (Py.strip a = []))) (split_on 44 env))).

End WithRuntime.

End Startup.

(** The rules the properties of the start-up are stated with. *)

Module StartupRules.
Import Startup.

(** The effects of the attempt [j]: no delay before the first POST, then
    1, 2, 4 and 8 seconds. *)
Definition turn (url : pystr) (j : nat) : list effect :=
  match j with
  | O => [Post url]
  | S i => [Sleep (2 ^ Z.of_nat i); Post url]
  end.

(** The effects of the first [m] attempts. *)
Definition backoff (url : pystr) (m : nat) : list effect :=
  flat_map (turn url) (seq 0 m).

Definition slept (effects : list effect) : Z :=
  foldr (fun e acc => match e with Sleep d => (d + acc)%Z | Post _ => acc end) 0%Z effects.

Definition posts (effects : list effect) : nat :=
  length (List.filter (fun e => match e with Post _ => true | Sleep _ => false end) effects).

(** [sep.join(pieces)] *)
Fixpoint join (sep : N) (pieces : list pystr) : pystr :=
  match pieces with
  | [] => []
  | [p] => p
  | p :: rest => p ++ sep :: join sep rest
  end.

End StartupRules.

(** ** ygg_ha_adapter.py and ha_utils.py: the artifacts announced at
       start-up and listed by the endpoints *)

Module Notify.
Import PyText Adapter.

(** The [attributes] of a state, where the code tells a missing key, a
    JSON [null] and a dictionary apart. *)
Inductive attributes_field :=
| AttrsAbsent
| AttrsNull
| Attrs (attrs : gmap pystr pyvalue).

(** One element of [GET /api/states], as far as the adapter reads it. *)
Record rest_state := {
  rs_entity_id : option pystr;
  rs_state : option pystr;
  rs_attributes : attributes_field;
  rs_last_changed : option pyvalue;
  rs_last_updated : option pyvalue
}.

(** The [name] of a device where the code tells a missing key from a JSON
    [null]: [d.get("name", d["id"])] falls back to the id only for a
    missing key. *)
Inductive name_field :=
| NameAbsent
| NameNull
| Name (s : pystr).

Record listed_device := {
  ld_id : pystr;
  ld_name : name_field;
  ld_area_id : option pystr
}.

Definition BASE_FALLBACK : pystr := py "http://localhost:8080/".

(** [HomeAssistantWS.get_devices] of ha_utils.py, on the registry listing. *)
Definition get_devices (area_id : option pystr) (devices : list listed_device)
  : list listed_device :=
  List.filter
    (fun d => match area_id with
              | None => true
              | Some a => bool_decide (ld_area_id d = Some a)
              end) devices.

(** [name = d.get("name", d["id"])], as [quote] takes it: a [null] makes
    [quote] raise. *)
Definition label (d : listed_device) : option pystr :=
  match ld_name d with
  | NameAbsent => Some (ld_id d)
  | NameNull => None
  | Name s => Some s
  end.

(** [HomeAssistantRDF.__init__] of ha_utils.py: [self.base]. *)
Definition rdf_base (base : option pystr) : pystr :=
  rstrip_chars (py "/")
    (match base with
     | Some (c :: b) => c :: b
     | _ => BASE_FALLBACK
     end)
  ++ py "/".

(** The first loop of [_register_workspace_to_explorer]: the URIs of the
    area's artifacts, or [None] where the loop raises. *)
Definition explorer_uris (cfg : config) (area_id : pystr) (devices : list listed_device)
  : option (list pystr) :=
  let base := rstrip_chars (py "/") (BASE_WS_URI cfg) in
  mapM (fun d =>
          name ← label d;
          Some (base ++ py "/workspaces/" ++ area_id ++ py "/artifacts/"
                ++ quote name ++ py "#artifact"))
       (get_devices (Some area_id) devices).

(** [_register_workspace_to_explorer]: the URIs posted to the explorer, in
    order; an exception of the first loop is caught and nothing is posted. *)
Definition _register_workspace_to_explorer (EXPLORER_URL : pystr) (cfg : config)
    (area_id : pystr) (devices : list listed_device) : list pystr :=
  match EXPLORER_URL with
  | [] => []
  | _ :: _ => default [] (explorer_uris cfg area_id devices)
  end.

(** The loop of [list_artifacts] for a workspace that exists: the artifacts
    put into the graph, or [None] where the endpoint answers 500. *)
Definition list_artifacts (request_base : pystr) (aid : pystr)
    (devices : list listed_device) : option (list pystr) :=
  let art_dir := rdf_base (Some request_base) ++ py "workspaces/" ++ aid
                 ++ py "/artifacts/" in
  mapM (fun d =>
          name ← label d;
          Some (art_dir ++ quote name ++ py "#artifact"))
       (get_devices (Some aid) devices).

Section WithRuntime.
Context `{PyRuntime}.

(** The body of the loop of [_register_known_artifacts_to_monitor] for one
    state: the notification posted, or [None] after [continue]. *)
Definition register_state (cfg : config) (ix : registry_index) (st : rest_state)
  : option notification :=
  let entity_id := rs_entity_id st in
  let area_id := entity_id ≫= (fun e => ent_to_area ix !! e) in
  if negb (present area_id) || negb (bool_decide (default [] area_id ∈ AREAS cfg))
  then None
  else
    let entity_id := default [] entity_id in
    let area_id := default [] area_id in
    let state := rs_state st in
    if bool_decide (state ∈ [None; Some (py "unknown"); Some (py "unavailable")])
    then None
    else
      let state := default [] state in
      (* attrs = st.get("attributes", {}) or {} *)
      let attrs := match rs_attributes st with
                   | Attrs attrs => attrs
                   | AttrsAbsent | AttrsNull => ∅
                   end in
      let dev_id := ent_to_device ix !! entity_id in
      let device_name :=
        if present dev_id
        then (dev_by_id ix !! default [] dev_id) ≫= dev_name
        else None in
      let device_name :=
        if negb (present device_name) then split1_last 46 entity_id
        else default [] device_name in
      let artifact_name := quote device_name in
      let prop := or_else (attrs !! py "device_class") (PStr (py "state")) in
      let '(value, xtype) := _infer_value_and_type state in
      let artifact_profile :=
        rstrip_chars (py "/") (BASE_WS_URI cfg) ++ py "/workspaces/" ++ area_id
        ++ py "/artifacts/" ++ artifact_name in
      Some {| artifactUri := artifact_profile ++ py "#artifact";
              propertyUri := artifact_profile ++ py "/props/" ++ Py.str prop;
              value := value;
              valueTypeUri := xtype;
              timestamp :=
                or_else (rs_last_changed st)
                  (or_else (rs_last_updated st) (PStr []));
              triggerUri := artifact_profile ++ py "/actions/read" |}.

(** [_register_known_artifacts_to_monitor], given the index it builds and
    the states it fetches: the notifications posted, in order. *)
Definition _register_known_artifacts_to_monitor (cfg : config) (ix : registry_index)
    (states : list rest_state) : list notification :=
  if bool_decide (MONITOR_URL cfg = []) || bool_decide (AREAS cfg = ∅) then []
  else omap (register_state cfg ix) states.

End WithRuntime.

End Notify.

(** The rules the properties of the notifications are stated with. *)

Module NotifyRules.
Import PyText Adapter Notify.

(** The attributes as the forwarder takes them from a new state,
    [new.get("attributes", {})]: the empty dictionary for a missing key only.
    A [null] stays [None], the forwarder raises on it at [attrs.get], and
    the messages of [Adapter] hold no such state. *)
Definition forwarded_attributes (a : attributes_field) : option (gmap pystr pyvalue) :=
  match a with
  | AttrsAbsent => Some ∅
  | AttrsNull => None
  | Attrs attrs => Some attrs
  end.

(** A state of the REST interface as the [state_changed] message that would
    report it; there is none for a state whose attributes are [null]. *)
Definition as_message (stamp : pyvalue) (st : rest_state) : option ws_message :=
  attrs ← forwarded_attributes (rs_attributes st);
  Some {| msg_type := Some (py "event");
          msg_event :=
            Some {| event_type := Some (py "state_changed");
                    event_data_ :=
                      Some {| data_entity_id := rs_entity_id st;
                              data_new_state :=
                                Some {| so_state := rs_state st;
                                        so_attributes := attrs |} |};
                    time_fired := stamp |} |}.

(** The state with other attributes. *)
Definition with_attributes (st : rest_state) (a : attributes_field) : rest_state :=
  {| rs_entity_id := rs_entity_id st; rs_state := rs_state st; rs_attributes := a;
     rs_last_changed := rs_last_changed st; rs_last_updated := rs_last_updated st |}.

(** The name an entity's artifact goes by: the name of its device when the
    index knows one, else what follows the first dot of the entity id. *)
Definition artifact_label (ix : registry_index) (entity_id : pystr) : pystr :=
  match ent_to_device ix !! entity_id with
  | Some (c :: did) =>
    match dev_by_id ix !! (c :: did) ≫= dev_name with
    | Some (n :: name) => n :: name
    | _ => split1_last 46 entity_id
    end
  | _ => split1_last 46 entity_id
  end.

(** The profile URL of an artifact and the URI of the artifact itself. *)
Definition profile_url (base area name : pystr) : pystr :=
  rstrip_chars (py "/") base ++ py "/workspaces/" ++ area ++ py "/artifacts/"
  ++ quote name.

Definition artifact_uri (base area name : pystr) : pystr :=
  profile_url base area name ++ py "#artifact".

(** A listed device as the registry index files it. *)
Definition as_device (d : listed_device) : device :=
  {| dev_id := ld_id d;
     dev_name := match ld_name d with Name s => Some s | _ => None end;
     dev_area_id := ld_area_id d |}.

(** The configuration with another base URI. *)
Definition with_base (cfg : config) (base : pystr) : config :=
  {| MONITOR_URL := MONITOR_URL cfg; AREAS := AREAS cfg; BASE_WS_URI := base |}.

Module Examples.

Definition kitchen_cfg : config :=
  {| MONITOR_URL := py "http://monitor/notify"; AREAS := {[ py "kitchen" ]};
     BASE_WS_URI := py "http://localhost:8080/" |}.

Definition desk_lamp : listed_device :=
  {| ld_id := py "d1"; ld_name := Name (py "Desk Lamp");
     ld_area_id := Some (py "kitchen") |}.

Definition kitchen_index : registry_index :=
  {| ent_to_area := {[ py "light.desk" := py "kitchen" ]};
     ent_to_device := {[ py "light.desk" := py "d1" ]};
     dev_by_id := {[ py "d1" := as_device desk_lamp ]} |}.

Definition desk_on : rest_state :=
  {| rs_entity_id := Some (py "light.desk"); rs_state := Some (py "on");
     rs_attributes := AttrsAbsent; rs_last_changed := Some (PStr (py "2024-01-01T00:00:00"));
     rs_last_updated := None |}.

End Examples.

End NotifyRules.

(** ** ygg_ha_adapter.py: the endpoints of an artifact *)

Module Endpoints.
Import PyText Adapter SetProperty Notify.

(** [a <= b] on strings: by code points, a proper prefix first. *)
Fixpoint str_leb (a b : pystr) : bool :=
  match a, b with
  | [], _ => true
  | _ :: _, [] => false
  | x :: a', y :: b' => if (x =? y)%N then str_leb a' b' else (x <? y)%N
  end.

Fixpoint insert_sorted (x : pystr) (l : list pystr) : list pystr :=
  match l with
  | [] => [x]
  | y :: l' => if str_leb x y then x :: l else y :: insert_sorted x l'
  end.

(** [sorted(s)] of a set of strings given by its elements. *)
Definition sorted_set (l : list pystr) : list pystr :=
  foldr insert_sorted [] (remove_dups l).

(** [HTTPException(status_code=404, detail=...)] *)
Inductive failure :=
| NotFound (detail : pystr).

(** [_resolve_device_and_entities], on the registry listings and the decoded
    name of the artifact. *)
Definition _resolve_device_and_entities (devices : list device) (entities : list entity)
    (workspace_id decoded_name : pystr) : failure + device * list entity :=
  let devices :=
    List.filter (fun d => bool_decide (dev_area_id d = Some workspace_id)) devices in
  match List.find (fun d => bool_decide (dev_name d = Some decoded_name)) devices with
  | None => inl (NotFound (py "Artifact not found"))
  | Some device =>
    match List.filter (fun e => bool_decide (device_id e = Some (dev_id device))) entities with
    | [] => inl (NotFound (py "No entities for artifact"))
    | e :: device_entities => inr (device, e :: device_entities)
    end
  end.

Definition _pick_entity (device_entities : list entity) (domain : pystr) : option pystr :=
  entity_id <$>
    List.find (fun e => startswith (entity_id e) (domain ++ py ".")) device_entities.

Definition _ensure_entity (devices : list device) (entities : list entity)
    (workspace_id decoded_name domain : pystr) : failure + pystr :=
  match _resolve_device_and_entities devices entities workspace_id decoded_name with
  | inl f => inl f
  | inr (_, device_entities) =>
    match _pick_entity device_entities domain with
    | Some (c :: ent) => inr (c :: ent)
    | _ => inl (NotFound (py "No " ++ domain ++ py " entity on artifact"))
    end
  end.

(** A call of [HomeAssistantREST.call_service]. *)
Record service_call := {
  call_domain : pystr;
  call_service : pystr;
  call_data : gmap pystr pyvalue
}.

(** [action_ha_service]: the service call made, or the error answered.
    [services] is the catalogue, empty when it could not be fetched;
    [payload] is the JSON object of the request's body, empty without one. *)
Definition action_ha_service (devices : list device) (entities : list entity)
    (services : list domain_services)
    (workspace_id decoded_name domain service : pystr) (payload : gmap pystr pyvalue)
  : failure + service_call :=
  match _ensure_entity devices entities workspace_id decoded_name domain with
  | inl f => inl f
  | inr ent =>
    match List.find (fun s => eqb (svc_domain s) domain) services with
    | Some svc =>
      if bool_decide (service ∈ (default [] (svc_services svc)).*1)
      then inr {| call_domain := domain; call_service := service;
                  call_data := <[ py "entity_id" := PStr ent ]> payload |}
      else inl (NotFound (py "Service not found for domain"))
    | None => inl (NotFound (py "Service not found for domain"))
    end
  end.

(** The state of a sensor in [GET /api/states]: its entity id, its state
    ([None] for a missing key) and the two attributes the adapter reads,
    which the hub gives as strings or [null]. *)
Record sensor_state := {
  ss_entity_id : pystr;
  ss_state : option pyvalue;
  ss_device_class : option pystr;
  ss_unit_of_measurement : option pystr
}.

(** [domains = {e["entity_id"].split(".")[0] for e in device_entities}] *)
Definition domains_of (device_entities : list entity) : list pystr :=
  (fun e => split_first 46 (entity_id e)) <$> device_entities.

(** [svc_by_domain] of [get_artifact]. *)
Definition svc_by_domain (services : list domain_services)
  : gmap pystr (list (pystr * service_meta)) :=
  foldl (fun m svc =>
           match svc_domain svc with
           | [] => m
           | c :: dom => <[ c :: dom := default [] (svc_services svc) ]> m
           end) ∅ services.

(** An action affordance of a service of the hub. *)
Record ha_action := {
  ha_domain : pystr;
  ha_service : pystr;
  ha_name : pystr;
  ha_target : pystr
}.

Section WithRuntime.
Context `{PyRuntime}.

(** The loop of [get_artifact] over the domains of the artifact and their
    services: the actions added to the description, in order. [profile] is
    the URL [{rdf.base}workspaces/{aid}/artifacts/{safe_name}]. *)
Definition ha_actions (profile : pystr) (services : list domain_services)
    (device_entities : list entity) : list ha_action :=
  flat_map
    (fun domain =>
       let domain_svcs := default [] (svc_by_domain services !! domain) in
       flat_map
         (fun '(svc_name, definition) =>
            if negb (legacy_applies definition || modern_applies domain definition)
            then []
            else [ {| ha_domain := domain; ha_service := svc_name;
                      ha_name := _camel_token domain ++ _camel_token svc_name;
                      ha_target := profile ++ py "/ha/" ++ quote domain ++ py "/"
                                   ++ quote svc_name |} ])
         domain_svcs)
    (sorted_set (domains_of device_entities)).

(** The sensor action of [get_artifact]: its name, when one is added. *)
Definition sensor_action (states : list sensor_state) (device_entities : list entity)
  : option pystr :=
  if bool_decide (py "sensor" ∈ domains_of device_entities) then
    let sensor_ent := _pick_entity device_entities (py "sensor") in
    let state_map : gmap pystr sensor_state :=
      list_to_map ((fun s => (ss_entity_id s, s)) <$> reverse states) in
    let st :=
      match sensor_ent with
      | Some (c :: ent) => state_map !! (c :: ent)
      | _ => None
      end in
    match _sensor_action_name (st ≫= ss_device_class) (st ≫= ss_unit_of_measurement) with
    | Some (c :: action_name) => Some (c :: action_name)
    | _ => None
    end
  else None.

(** [action_sensor_dynamic]: the text answered, or the error. *)
Definition action_sensor_dynamic (devices : list device) (entities : list entity)
    (states : list sensor_state) (workspace_id decoded_name action_name : pystr)
  : failure + pystr :=
  if negb (startswith action_name (py "get")
           && contains (py "In") (drop 3 action_name))
  then inl (NotFound (py "Unknown action"))
  else
    match _resolve_device_and_entities devices entities workspace_id decoded_name with
    | inl f => inl f
    | inr (_, device_entities) =>
      match _pick_entity device_entities (py "sensor") with
      | Some (c :: e) =>
        let ent := c :: e in
        match List.find (fun s => eqb (ss_entity_id s) ent) states with
        | None => inl (NotFound (py "Sensor state not found"))
        | Some st =>
          let expected_with_dc :=
            _sensor_action_name (ss_device_class st) (ss_unit_of_measurement st) in
          let expected_without_dc :=
            _sensor_action_name None (ss_unit_of_measurement st) in
          if bool_decide
               (Some action_name
                ∈ List.filter present [expected_with_dc; expected_without_dc])
          then inr (Py.str (default (PStr []) (ss_state st)))
          else inl (NotFound (py "Action not applicable to this sensor"))
        end
      | _ => inl (NotFound (py "No sensor entity on artifact"))
      end
    end.

End WithRuntime.

End Endpoints.

(** Example data for the endpoints: a lamp with a light and a sensor in the
    kitchen. *)

Module EndpointExamples.
Import Adapter SetProperty Endpoints.

Definition lamp : device :=
  {| dev_id := py "d1"; dev_name := Some (py "Desk Lamp");
     dev_area_id := Some (py "kitchen") |}.

Definition lamp_light : entity :=
  {| entity_id := py "light.desk"; device_id := Some (py "d1"); area_id := None |}.

Definition lamp_lux : entity :=
  {| entity_id := py "sensor.desk_lux"; device_id := Some (py "d1"); area_id := None |}.

Definition catalogue : list domain_services :=
  [ {| svc_domain := py "light";
       svc_services :=
         Some [ (py "turn_on",
                 {| meta_fields := Some {[ py "entity_id" := PDict [] ]};
                    meta_target_entity := None |}) ] |} ].

Definition lux_state : sensor_state :=
  {| ss_entity_id := py "sensor.desk_lux"; ss_state := Some (PStr (py "140.0"));
     ss_device_class := Some (py "illuminance");
     ss_unit_of_measurement := Some (py "lx") |}.

Definition turn_on_action : ha_action :=
  {| ha_domain := py "light"; ha_service := py "turn_on";
     ha_name := py "LightTurnOn";
     ha_target := py "http://localhost:8080/workspaces/kitchen/artifacts/Desk%20Lamp/ha/light/turn_on" |}.

End EndpointExamples.

(** ** The request loops over the websocket: [_ws_call] of set-property.py,
       [HomeAssistantWS._call] of ha_utils.py and the receive loop of
       [_build_entity_area_map] *)

Module Protocol.

(** A message received from the hub, as the loops read it. *)
Record reply := {
  rp_id : option Z;
  rp_type : option pystr;
  rp_success : option pyvalue;
  rp_result : option pyvalue;
  rp_error : option pyvalue
}.

(** How a call ends: with the result, with [RuntimeError(msg.get("error"))],
    with the [KeyError] of [msg["result"]], or not at all within the
    messages received. *)
Inductive outcome :=
| Returned (result : pyvalue)
| RuntimeError (error : option pyvalue)
| KeyError
| Pending.

(** [msg.get("success")] as a condition. *)
Definition succeeded (msg : reply) : bool :=
  match rp_success msg with
  | Some v => Py.truthy v
  | None => false
  end.

(** The [while True] loop of [_ws_call] and [_call] over the messages that
    arrive: how the call ends and which messages are left unread. *)
Fixpoint await (ident : Z) (inbox : list reply) : outcome * list reply :=
  match inbox with
  | [] => (Pending, [])
  | msg :: rest =>
    if bool_decide (rp_id msg = Some ident)
       && bool_decide (rp_type msg = Some (py "result"))
    then
      if succeeded msg then
        match rp_result msg with
        | Some result => (Returned result, rest)
        | None => (KeyError, rest)
        end
      else (RuntimeError (rp_error msg), rest)
    else await ident rest
  end.

(** One call: the new value of the counter, the message sent,
    [{**payload, "id": ident}], and the way the call ends. *)
Record called := {
  counter_after : Z;
  sent : gmap pystr pyvalue;
  ended : outcome;
  unread : list reply
}.

Definition _ws_call (counter : Z) (payload : gmap pystr pyvalue) (inbox : list reply)
  : called :=
  let counter := (counter + 1)%Z in
  let ident := counter in
  let '(how, rest) := await ident inbox in
  {| counter_after := counter;
     sent := <[ py "id" := PInt ident ]> payload;
     ended := how;
     unread := rest |}.

(** [x is None] for a value taken from a message. *)
Definition is_none (v : option pyvalue) : bool :=
  match v with
  | None | Some PNone => true
  | Some _ => false
  end.

(** How the receive loop of [_build_entity_area_map] ends. *)
Inductive fetched :=
| Both (devices entities : pyvalue)
| Failed
| Waiting.

(** The loop [while devices is None or entities is None] over the messages
    that arrive; [Failed] stands for the [KeyError] of [msg["result"]]. *)
Fixpoint collect (devices entities : option pyvalue) (inbox : list reply) : fetched :=
  if is_none devices || is_none entities then
    match inbox with
    | [] => Waiting
    | msg :: rest =>
      if bool_decide (rp_type msg = Some (py "result")) && succeeded msg then
        if bool_decide (rp_id msg = Some 1%Z) then
          match rp_result msg with
          | Some result => collect (Some result) entities rest
          | None => Failed
          end
        else if bool_decide (rp_id msg = Some 2%Z) then
          match rp_result msg with
          | Some result => collect devices (Some result) rest
          | None => Failed
          end
        else collect devices entities rest
      else collect devices entities rest
    end
  else Both (default PNone devices) (default PNone entities).

End Protocol.

(** The rules the properties of the request loops are stated with. *)

Module ProtocolRules.
Import Protocol.

(** The message answers the call [ident]. *)
Definition answers (ident : Z) (msg : reply) : Prop :=
  rp_id msg = Some ident /\ rp_type msg = Some (py "result").

(** The message is a successful result for one of the two listings. *)
Definition listing (msg : reply) : Prop :=
  rp_type msg = Some (py "result") /\ succeeded msg = true /\
  (rp_id msg = Some 1%Z \/ rp_id msg = Some 2%Z).

(** A successful result with the given id and content. *)
Definition result_of (ident : Z) (result : pyvalue) : reply :=
  {| rp_id := Some ident; rp_type := Some (py "result");
     rp_success := Some (PBool true); rp_result := Some result; rp_error := None |}.

End ProtocolRules.

(** ** adjust_lux_on_events.py: the configuration read by [main] *)

From Stdlib Require DecimalN DecimalPos.

Module LuxConfig.
Import AdjustLux.

Section WithRuntime.
Context `{PyRuntime}.

(** [int(os.getenv(name, default))]: the variable when it is set, else the
    default; [None] where [int] raises. *)
Definition env_int (variable : option pystr) (default_text : pystr) : option Z :=
  Py.int_of_str (default default_text variable).

(** The four deltas as [main] reads them from the environment; [None]
    where one of the conversions raises and the program ends. *)
Definition read_config
    (INCREMENT_LIGHT DECREMENT_LIGHT INCREMENT_BLINDS DECREMENT_BLINDS : option pystr)
  : option config :=
  inc_light ← env_int INCREMENT_LIGHT (py "100");
  dec_light ← env_int DECREMENT_LIGHT (Py.str (PInt inc_light));
  inc_blinds ← env_int INCREMENT_BLINDS (py "50");
  dec_blinds ← env_int DECREMENT_BLINDS (Py.str (PInt inc_blinds));
  Some {| inc_light := inc_light; dec_light := dec_light;
          inc_blinds := inc_blinds; dec_blinds := dec_blinds |}.

End WithRuntime.

(** The digit values of a decimal numeral. *)
Fixpoint uint_values (u : Decimal.uint) : list N :=
  match u with
  | Decimal.Nil => []
  | Decimal.D0 u => 0%N :: uint_values u
  | Decimal.D1 u => 1%N :: uint_values u
  | Decimal.D2 u => 2%N :: uint_values u
  | Decimal.D3 u => 3%N :: uint_values u
  | Decimal.D4 u => 4%N :: uint_values u
  | Decimal.D5 u => 5%N :: uint_values u
  | Decimal.D6 u => 6%N :: uint_values u
  | Decimal.D7 u => 7%N :: uint_values u
  | Decimal.D8 u => 8%N :: uint_values u
  | Decimal.D9 u => 9%N :: uint_values u
  end.

End LuxConfig.

(* ===================================================================== *)
(** * Part II: properties                                                  *)
(* ===================================================================== *)

(** ** Strings *)

Section StringFacts.

Lemma eqb_true (a b : pystr) : eqb a b = true <-> a = b.
Proof. unfold eqb. apply bool_decide_eq_true. Qed.

Lemma eqb_false (a b : pystr) : eqb a b = false <-> a <> b.
Proof. unfold eqb. apply bool_decide_eq_false. Qed.

Lemma mem_true (x : pystr) xs : mem x xs = true <-> x ∈ xs.
Proof. unfold mem. apply bool_decide_eq_true. Qed.

Lemma mem_false (x : pystr) xs : mem x xs = false <-> x ∉ xs.
Proof. unfold mem. apply bool_decide_eq_false. Qed.

Lemma startswith_spec (s p : pystr) :
  startswith s p = true <-> exists q, s = p ++ q.
Proof.
  revert s. induction p as [|a p IH]; intros s.
  - destruct s; (split; [eauto|done]).
  - destruct s as [|b s]; cbn [startswith].
    + split; [done|]. intros [q Hq]. discriminate.
    + rewrite andb_true_iff, N.eqb_eq, IH. split.
      * intros [-> [q ->]]. eauto.
      * intros [q Hq]. injection Hq as -> ->. eauto.
Qed.

Lemma contains_spec (needle hay : pystr) :
  contains needle hay = true <-> Spec.substring needle hay.
Proof.
  unfold Spec.substring. induction hay as [|c hay IH]; cbn [contains].
  - rewrite orb_false_r, startswith_spec. split.
    + intros [q Hq]. exists [], q. done.
    + intros (p & q & Hpq). symmetry in Hpq.
      apply app_eq_nil in Hpq as [-> Hpq]. exists q. done.
  - rewrite orb_true_iff, startswith_spec, IH. split.
    + intros [[q Hq]|(p & q & Hpq)].
      * exists [], q. done.
      * exists (c :: p), q. simpl. by f_equal.
    + intros (p & q & Hpq). destruct p as [|c' p]; simpl in *.
      * left. eauto.
      * right. injection Hpq as -> ->. eauto.
Qed.

End StringFacts.

(** ** Stripping *)

Section StripFacts.

Lemma lstrip_by_ext (p q : N -> bool) (s : pystr) :
  (forall c, c ∈ s -> p c = q c) -> lstrip_by p s = lstrip_by q s.
Proof.
  induction s as [|c s IH]; intros Hpq; [done|]. cbn [lstrip_by].
  rewrite <- (Hpq c) by left. rewrite IH; [done|].
  intros d Hd. apply Hpq. by right.
Qed.

Lemma elem_of_rev (c : N) (s : pystr) : c ∈ rev s <-> c ∈ s.
Proof. rewrite !list_elem_of_In. symmetry. apply in_rev. Qed.

Lemma strip_by_ext (p q : N -> bool) (s : pystr) :
  (forall c, c ∈ s -> p c = q c) -> strip_by p s = strip_by q s.
Proof.
  intros Hpq. unfold strip_by, rstrip_by.
  rewrite (lstrip_by_ext p q s Hpq). f_equal.
  apply lstrip_by_ext. intros c Hc. apply Hpq.
  rewrite elem_of_rev in Hc. revert Hc. clear.
  induction s as [|d s IH]; cbn [lstrip_by]; [done|].
  destruct (q d); [|done]. intros Hc. right. auto.
Qed.

(** What [lstrip] leaves is a suffix, and what it drops satisfies the test. *)
Lemma lstrip_by_split (p : N -> bool) (s : pystr) :
  exists t, s = t ++ lstrip_by p s /\ Forall (fun c => p c = true) t.
Proof.
  induction s as [|c s (t & Ht & Hp)]; cbn [lstrip_by].
  - by exists [].
  - destruct (p c) eqn:Hc.
    + exists (c :: t). split; [simpl; by f_equal|]. by constructor.
    + by exists [].
Qed.

Lemma rstrip_by_split (p : N -> bool) (s : pystr) :
  exists t, s = rstrip_by p s ++ t /\ Forall (fun c => p c = true) t.
Proof.
  unfold rstrip_by. destruct (lstrip_by_split p (rev s)) as (t & Ht & Hp).
  exists (rev t). split.
  - rewrite <- (rev_involutive s), Ht at 1. by rewrite rev_app_distr.
  - by apply Forall_rev.
Qed.

Lemma strip_by_sublist (p : N -> bool) (s : pystr) c :
  c ∈ strip_by p s -> c ∈ s.
Proof.
  unfold strip_by. intros Hc.
  destruct (rstrip_by_split p (lstrip_by p s)) as (t & Ht & _).
  destruct (lstrip_by_split p s) as (u & Hu & _).
  rewrite Hu, Ht. rewrite !elem_of_app. auto.
Qed.

Lemma forallb_elem (p : N -> bool) (s : pystr) :
  forallb p s = true <-> forall c, c ∈ s -> p c = true.
Proof.
  rewrite forallb_forall. split; intros Hs c Hc; apply Hs; by apply list_elem_of_In.
Qed.

Context `{PyRuntime}.

Lemma strip_ascii (s : pystr) :
  forallb is_ascii s = true -> Py.strip s = strip_by ascii_isspace s.
Proof.
  intros Hs. apply strip_by_ext. intros c Hc. apply isspace_ascii.
  by apply (proj1 (forallb_elem _ _) Hs).
Qed.

Lemma desired_of_ascii (v : pyvalue) :
  forallb is_ascii (Py.str v) = true ->
  SetProperty.desired_of v = map ascii_lower (strip_by ascii_isspace (Py.str v)).
Proof.
  intros Hs. unfold SetProperty.desired_of. rewrite strip_ascii by done.
  apply lower_ascii. apply forallb_elem. intros c Hc.
  apply strip_by_sublist in Hc. by apply (proj1 (forallb_elem _ _) Hs).
Qed.

End StripFacts.

(** ** Service selection: scoring *)

Section ScoringFacts.
Import SetProperty.

Lemma has_field_true (k : pystr) (fs : gmap pystr pyvalue) :
  has_field k fs = true <-> is_Some (fs !! k).
Proof. unfold has_field. apply bool_decide_eq_true. Qed.

Lemma has_field_declares (k : pystr) (meta : service_meta) :
  has_field k (fields_of meta) = true <-> Spec.declares meta k.
Proof.
  rewrite has_field_true. unfold fields_of, Spec.declares.
  destruct (meta_fields meta) as [fs|]; simpl.
  - split.
    + intros [v Hv]. eauto.
    + intros (fs' & v & [= <-] & Hv). eauto.
  - rewrite lookup_empty. split.
    + intros [v Hv]. done.
    + intros (fs' & v & Hfs & _). done.
Qed.

Lemma legacy_applies_spec (meta : service_meta) :
  legacy_applies meta = true <-> Spec.legacy meta.
Proof. apply has_field_declares. Qed.

Lemma modern_applies_spec (d : pystr) (meta : service_meta) :
  modern_applies d meta = true <-> Spec.modern d meta.
Proof.
  unfold modern_applies, target_of, Spec.modern.
  rewrite existsb_exists. setoid_rewrite mem_true. setoid_rewrite <- list_elem_of_In.
  destruct (meta_target_entity meta) as [ts|]; simpl.
  - split.
    + intros (t & Ht & Hd). destruct (sel_domain t) as [ds|] eqn:E; simpl in Hd.
      * exists ts, t, ds. done.
      * by apply elem_of_nil in Hd.
    + intros (ts' & t & ds & [= <-] & Ht & E & Hd). exists t. by rewrite E.
  - split.
    + intros (t & Ht & _). by apply elem_of_nil in Ht.
    + intros (ts' & t & ds & Hts & _). done.
Qed.

Lemma applies_spec (d : pystr) (meta : service_meta) :
  legacy_applies meta || modern_applies d meta = true <-> Spec.candidate d meta.
Proof.
  rewrite orb_true_iff, legacy_applies_spec, modern_applies_spec. done.
Qed.

Lemma bonus_points (b : bool) (P : Prop) (n s : Z) :
  (b = true <-> P) -> (Spec.points P n s <-> s = bonus b n).
Proof.
  intros Hb. unfold Spec.points, bonus. destruct b.
  - split; [intros [[_ ->]|[HP _]]; [done|]|intros ->; left; split; [|done]];
      tauto.
  - split; [intros [[HP _]|[_ ->]]; [|done]|intros ->; right; split; [|done]].
    + apply Hb in HP. done.
    + intros HP. apply Hb in HP. done.
Qed.

Lemma score_of_spec (prop d dom nm : pystr) (meta : service_meta) (s : Z) :
  Spec.scores prop d dom nm meta s <-> s = score_of prop d dom nm (fields_of meta).
Proof.
  unfold Spec.scores, score_of.
  assert (eqb prop (py "state") && has_field (py "value") (fields_of meta) = true
          <-> prop = py "state" /\ Spec.declares meta (py "value")) as H4.
  { by rewrite andb_true_iff, eqb_true, has_field_declares. }
  split.
  - intros (s1 & s2 & s3 & s4 & s5 & H1 & H2 & H3 & H4' & H5 & ->).
    apply (bonus_points _ _ _ _ (eqb_true _ _)) in H1 as ->.
    apply (bonus_points _ _ _ _ (contains_spec _ _)) in H2 as ->.
    apply (bonus_points _ _ _ _ (has_field_declares _ _)) in H3 as ->.
    apply (bonus_points _ _ _ _ H4) in H4' as ->.
    apply (bonus_points _ _ _ _ (eqb_true _ _)) in H5 as ->.
    done.
  - intros ->. do 5 eexists.
    split; [by apply (bonus_points _ _ _ _ (eqb_true _ _))|].
    split; [by apply (bonus_points _ _ _ _ (contains_spec _ _))|].
    split; [by apply (bonus_points _ _ _ _ (has_field_declares _ _))|].
    split; [by apply (bonus_points _ _ _ _ H4)|].
    split; [by apply (bonus_points _ _ _ _ (eqb_true _ _))|].
    done.
Qed.

Lemma score_of_nonneg (prop d dom nm : pystr) fs :
  (0 <= score_of prop d dom nm fs)%Z.
Proof. unfold score_of, bonus. repeat case_match; lia. Qed.

Lemma consider_spec (prop d dom nm : pystr) (meta : service_meta) :
  (Spec.candidate d meta /\
   exists s, Spec.scores prop d dom nm meta s /\ (0 < s)%Z /\
     consider prop d dom (nm, meta)
     = [{| domain := dom; name := nm; fields := fields_of meta; score := s |}])
  \/ ((~ Spec.candidate d meta \/ Spec.scores prop d dom nm meta 0) /\
      consider prop d dom (nm, meta) = []).
Proof.
  unfold consider.
  destruct (legacy_applies meta || modern_applies d meta) eqn:Ha; simpl.
  - apply applies_spec in Ha.
    destruct (0 <? score_of prop d dom nm (fields_of meta))%Z eqn:Hs.
    + left. split; [done|]. eexists. split; [by apply score_of_spec|].
      split; [by apply Z.ltb_lt|done].
    + right. split; [|done]. right. apply score_of_spec.
      apply Z.ltb_ge in Hs. pose proof (score_of_nonneg prop d dom nm (fields_of meta)). lia.
  - right. split; [|done]. left. intros Hc. apply applies_spec in Hc. congruence.
Qed.

Lemma candidates_of_enumerate (prop d : pystr) (services : list domain_services) :
  candidates_of prop d services
  = flat_map (fun '(dom, entry) => consider prop d dom entry) (Spec.enumerate services).
Proof.
  unfold candidates_of, Spec.enumerate.
  induction services as [|svc services IH]; [done|]. cbn [flat_map].
  rewrite flat_map_app, IH. f_equal.
  induction (default [] (svc_services svc)) as [|entry l IHl]; [done|].
  cbn [flat_map map]. by rewrite IHl.
Qed.

(** [sort_desc] is the stable sort by Spec.descending score: a permutation of its
    argument, in Spec.descending order of score, that keeps the elements of equal
    score in their order. *)
Lemma insert_desc_perm (c : choice) (l : list choice) : insert_desc c l ≡ₚ c :: l.
Proof.
  induction l as [|d l IH]; [done|]. cbn [insert_desc].
  destruct (score d <=? score c)%Z; [done|]. rewrite IH. apply Permutation_swap.
Qed.

Lemma sort_desc_perm (l : list choice) : sort_desc l ≡ₚ l.
Proof.
  induction l as [|c l IH]; [done|]. cbn [sort_desc foldr]. fold (sort_desc l).
  by rewrite insert_desc_perm, IH.
Qed.

Lemma descending_cons (c : choice) (l : list choice) :
  Spec.descending (c :: l) <-> Forall (fun d => (score d <= score c)%Z) l /\ Spec.descending l.
Proof.
  unfold Spec.descending. split.
  - intros Hd. split.
    + apply Forall_lookup. intros j d Hj. apply (Hd 0%nat (S j) c d); [lia|done..].
    + intros i j a b Hij Ha Hb. apply (Hd (S i) (S j)); [lia|done..].
  - intros [Hc Hd] [|i] [|j] a b Hij Ha Hb; try lia; cbn in Ha, Hb.
    + injection Ha as <-. rewrite Forall_lookup in Hc. by apply (Hc j).
    + apply (Hd i j); [lia|done..].
Qed.

Lemma insert_desc_descending (c : choice) (l : list choice) :
  Spec.descending l -> Spec.descending (insert_desc c l).
Proof.
  induction l as [|d l IH]; intros Hl; cbn [insert_desc].
  - apply descending_cons. split; [constructor|]. intros i j a b _ Ha. done.
  - destruct (score d <=? score c)%Z eqn:E.
    + apply Z.leb_le in E. apply descending_cons. split; [|done].
      apply descending_cons in Hl as [Hd _]. constructor; [done|].
      eapply Forall_impl; [exact Hd|]. cbn. intros; lia.
    + apply Z.leb_gt in E. apply descending_cons in Hl as [Hd Hl].
      apply descending_cons. split; [|by apply IH].
      rewrite insert_desc_perm. constructor; [lia|done].
Qed.

Lemma sort_desc_descending (l : list choice) : Spec.descending (sort_desc l).
Proof.
  induction l as [|c l IH]; [by intros i j c d _ Hc|].
  cbn [sort_desc foldr]. by apply insert_desc_descending.
Qed.

Lemma insert_desc_stable (k : Z) (c : choice) (l : list choice) :
  List.filter (fun d => (score d =? k)%Z) (insert_desc c l)
  = List.filter (fun d => (score d =? k)%Z) (c :: l).
Proof.
  induction l as [|d l IH]; [done|]. cbn [insert_desc].
  destruct (score d <=? score c)%Z eqn:E; [done|]. apply Z.leb_gt in E.
  cbn [List.filter] in *. rewrite IH.
  destruct (score c =? k)%Z eqn:Hc, (score d =? k)%Z eqn:Hd; try done.
  apply Z.eqb_eq in Hc, Hd. lia.
Qed.

Lemma sort_desc_stable (k : Z) (l : list choice) :
  List.filter (fun d => (score d =? k)%Z) (sort_desc l)
  = List.filter (fun d => (score d =? k)%Z) l.
Proof.
  induction l as [|c l IH]; [done|]. cbn [sort_desc foldr]. fold (sort_desc l).
  rewrite insert_desc_stable. cbn [List.filter]. by rewrite IH.
Qed.

(** The head of the sorted list is the first of the best. *)
Lemma head_insert_desc (c : choice) (l : list choice) :
  head (insert_desc c l)
  = match head l with
    | Some d => if (score d <=? score c)%Z then Some c else Some d
    | None => Some c
    end.
Proof. destruct l as [|d l]; [done|]. cbn. by destruct (score d <=? score c)%Z. Qed.

Lemma head_sort_desc_nil (l : list choice) : head (sort_desc l) = None <-> l = [].
Proof.
  destruct l as [|c l]; [done|]. cbn [sort_desc foldr].
  rewrite head_insert_desc. split; [|done]. by repeat case_match.
Qed.

Lemma head_sort_desc_first_best (l : list choice) (c : choice) :
  head (sort_desc l) = Some c -> Spec.first_best l c.
Proof.
  revert c. induction l as [|c0 l IH]; intros c; [done|].
  cbn [sort_desc foldr]. rewrite head_insert_desc. fold (sort_desc l).
  destruct (head (sort_desc l)) as [d|] eqn:Hd.
  - destruct (IH d eq_refl) as (i & Hi & Hmax & Hbefore).
    destruct (score d <=? score c0)%Z eqn:Hle; intros [= <-].
    + apply Z.leb_le in Hle. exists 0%nat. split; [done|]. split.
      * intros [|j] e He; simpl in He.
        -- injection He as <-. lia.
        -- specialize (Hmax j e He). lia.
      * intros j e Hj. lia.
    + apply Z.leb_gt in Hle. exists (S i). split; [done|]. split.
      * intros [|j] e He; simpl in He.
        -- injection He as <-. lia.
        -- by apply (Hmax j).
      * intros [|j] e Hj He; simpl in He.
        -- injection He as <-. lia.
        -- apply (Hbefore j); [lia|done].
  - apply head_sort_desc_nil in Hd as ->. intros [= <-].
    exists 0%nat. split; [done|]. split.
    + intros [|j] e He; simpl in He; [|done]. injection He as <-. lia.
    + intros j e Hj. lia.
Qed.

Lemma first_best_unique (l : list choice) (c c' : choice) :
  Spec.first_best l c -> Spec.first_best l c' -> c = c'.
Proof.
  intros (i & Hi & Hmax & Hbefore) (i' & Hi' & Hmax' & Hbefore').
  destruct (Nat.lt_trichotomy i i') as [Hlt|[->|Hlt]].
  - specialize (Hbefore' i c Hlt Hi). specialize (Hmax i' c' Hi'). lia.
  - congruence.
  - specialize (Hbefore i' c' Hlt Hi'). specialize (Hmax' i c Hi). lia.
Qed.

Lemma head_sort_desc_iff (l : list choice) (c : choice) :
  head (sort_desc l) = Some c <-> Spec.first_best l c.
Proof.
  split; [apply head_sort_desc_first_best|]. intros Hc.
  destruct (head (sort_desc l)) as [c'|] eqn:Hh.
  - f_equal. apply head_sort_desc_first_best in Hh. by apply (first_best_unique l).
  - apply head_sort_desc_nil in Hh as ->. by destruct Hc as ([|?] & ? & _).
Qed.

End ScoringFacts.

(** ** Service selection: the on/off mapping *)

Section ShortcutFacts.
Context `{PyRuntime}.
Import SetProperty.

Lemma off_not_on (d : pystr) : d ∈ off_values -> mem d on_values = false.
Proof.
  unfold off_values. rewrite !elem_of_cons, elem_of_nil.
  intros [->|[->|[->|[->|[->|[]]]]]]; by vm_compute.
Qed.

Lemma shortcut_none_scored prop value d services :
  shortcut prop value d = None ->
  select_service prop value d services = select_scored prop d services.
Proof. unfold select_service. by intros ->. Qed.

Lemma shortcut_on_off (prop : pystr) (value : pyvalue) (d : pystr)
    (services : list domain_services) :
  prop = py "state" ->
  let desired := desired_of value in
  let chosen := select_service prop value d services in
  (d ∈ [py "light"; py "switch"; py "fan"; py "input_boolean"] ->
     (desired ∈ on_values -> chosen = Some (shortcut_choice d (py "turn_on"))) /\
     (desired ∈ off_values -> chosen = Some (shortcut_choice d (py "turn_off")))) /\
  (d = py "cover" ->
     (desired = py "open" -> chosen = Some (shortcut_choice d (py "open_cover"))) /\
     (desired ∈ [py "closed"; py "close"] ->
        chosen = Some (shortcut_choice d (py "close_cover")))).
Proof.
  intros -> desired chosen. subst chosen desired. unfold select_service, shortcut.
  replace (eqb (py "state") (py "state")) with true by done.
  split.
  - intros Hd. apply mem_true in Hd. rewrite Hd. split.
    + intros Hon. apply mem_true in Hon. by rewrite Hon.
    + intros Hoff. rewrite (off_not_on _ Hoff).
      apply mem_true in Hoff. by rewrite Hoff.
  - intros ->.
    replace (mem (py "cover") [py "light"; py "switch"; py "fan"; py "input_boolean"])
      with false by done.
    replace (eqb (py "cover") (py "cover")) with true by done.
    split.
    + intros Hd. rewrite Hd. by replace (mem (py "open") [py "open"]) with true by done.
    + intros Hc. assert (mem (desired_of value) [py "open"] = false) as ->.
      { revert Hc. rewrite !elem_of_cons, elem_of_nil.
        intros [->|[->|[]]]; by vm_compute. }
      apply mem_true in Hc. by rewrite Hc.
Qed.

Lemma shortcut_light_on services :
  select_service (py "state") (PStr (py "on")) (py "light") services
  = Some (shortcut_choice (py "light") (py "turn_on")).
Proof.
  apply shortcut_on_off; [done| |].
  - apply mem_true. by vm_compute.
  - rewrite desired_of_ascii by done. apply mem_true. by vm_compute.
Qed.
End ShortcutFacts.

(** ** Payloads *)

Section SetPropertyFacts.
Context `{PyRuntime}.
Import SetProperty.

Lemma fallback_payload_frame (prop : pystr) (value : pyvalue) (current : entity_state) :
  let attrs := default ∅ (st_attributes current) in
  let p := fallback_payload prop value current in
  (prop <> py "state" ->
     p_state p = st_state current /\
     p_attributes p !! prop = Some value /\
     (forall k, k <> prop -> p_attributes p !! k = attrs !! k)) /\
  (prop = py "state" ->
     p_state p = value /\ p_attributes p = attrs).
Proof.
  intros attrs p. subst p attrs. unfold fallback_payload. split.
  - intros Hne. apply eqb_false in Hne. rewrite Hne. simpl.
    split; [done|]. split.
    + apply lookup_insert_eq.
    + intros k Hk. by apply lookup_insert_ne.
  - intros ->. replace (eqb (py "state") (py "state")) with true by done. done.
Qed.

Lemma service_payload_by_property (entity_id prop : pystr) (value : pyvalue)
    (ent_domain : pystr) (chosen : choice) :
  let payload := service_payload entity_id prop value ent_domain chosen in
  let base : gmap pystr pyvalue := {[ py "entity_id" := PStr entity_id ]} in
  is_Some (payload !! py "entity_id") /\
  (prop = py "state" -> is_Some (fields chosen !! py "value") ->
     payload = <[ py "value" := value ]> base) /\
  (prop = py "state" -> fields chosen !! py "value" = None -> payload = base) /\
  (prop <> py "state" -> payload = <[ prop := value ]> base).
Proof.
  intros payload base. subst payload. unfold service_payload. fold base.
  destruct (eqb prop (py "state")) eqn:Hp.
  - apply eqb_true in Hp as ->.
    destruct (has_field (py "value") (fields chosen)) eqn:Hv.
    + apply has_field_true in Hv. repeat split; try done.
      intros _ Hn. rewrite Hn in Hv. by destruct Hv.
    + assert (fields chosen !! py "value" = None) as Hn.
      { destruct (fields chosen !! py "value") eqn:E; [|done].
        assert (has_field (py "value") (fields chosen) = true) by (apply has_field_true; rewrite E; eauto).
        congruence. }
      repeat split; try done.
      intros _ Hs. rewrite Hn in Hs. by destruct Hs.
  - apply eqb_false in Hp.
    assert ((if has_field prop (fields chosen) then <[prop:=value]> base
       else if eqb ent_domain (py "light") && mem prop [py "brightness"; py "brightness_pct"]
         then <[prop:=value]> base else <[prop:=value]> base) = <[prop:=value]> base) as ->.
    { by repeat case_match. }
    repeat split; try done.
    destruct (decide (prop = py "entity_id")) as [->|Hn].
    + rewrite lookup_insert_eq. eauto.
    + rewrite lookup_insert_ne by done. subst base. rewrite lookup_singleton_eq. eauto.
Qed.
End SetPropertyFacts.

(** ** The registry index *)

Section RegistryFacts.
Import Adapter.

Lemma index_devices_snoc (l : list device) (d : device) :
  index_devices (l ++ [d]) = <[ dev_id d := d ]> (index_devices l).
Proof. unfold index_devices. by rewrite foldl_app. Qed.

Lemma filter_snoc {A} (f : A -> bool) (l : list A) (x : A) :
  List.filter f (l ++ [x]) = List.filter f l ++ (if f x then [x] else []).
Proof. rewrite List.filter_app. done. Qed.

Lemma index_devices_lookup (devices : list device) (did : pystr) :
  index_devices devices !! did = Spec.device_of devices did.
Proof.
  unfold Spec.device_of.
  induction devices as [|d l IH] using rev_ind; [done|].
  rewrite index_devices_snoc, filter_snoc.
  destruct (eqb (dev_id d) did) eqn:E.
  - apply eqb_true in E as <-. rewrite lookup_insert_eq. by rewrite last_snoc.
  - apply eqb_false in E. rewrite lookup_insert_ne by done.
    by rewrite app_nil_r.
Qed.

Lemma device_of_unique (devices : list device) (d : device) :
  NoDup (dev_id <$> devices) -> d ∈ devices ->
  Spec.device_of devices (dev_id d) = Some d.
Proof.
  rewrite <- index_devices_lookup.
  induction devices as [|d' l IH] using rev_ind; intros Hnd Hd.
  - by apply elem_of_nil in Hd.
  - rewrite index_devices_snoc. rewrite fmap_app in Hnd.
    apply NoDup_app in Hnd as (Hl & Hdis & _).
    apply elem_of_app in Hd as [Hd|Hd].
    + rewrite lookup_insert_ne; [by apply IH|].
      intros Heq. apply (Hdis (dev_id d)).
      * apply list_elem_of_fmap. eauto.
      * rewrite <- Heq. simpl. left.
    + apply list_elem_of_singleton in Hd as ->. apply lookup_insert_eq.
Qed.

Lemma present_nonempty (o : option pystr) :
  present o = true -> Spec.nonempty o = Some (default [] o).
Proof. unfold Spec.nonempty. intros Hp. rewrite Hp. by destruct o. Qed.

Lemma not_present_nonempty (o : option pystr) :
  present o = false -> Spec.nonempty o = None.
Proof. unfold Spec.nonempty. by intros ->. Qed.

Lemma index_entity_area (m : gmap pystr device) ea ed (e : entity) :
  fst (index_entity m (ea, ed) e)
  = match Spec.filed_area m e with
    | Some a => <[ entity_id e := a ]> ea
    | None => ea
    end.
Proof.
  unfold index_entity, Spec.filed_area.
  set (area := if negb (present (area_id e)) && present (device_id e)
               then _ else _).
  destruct (present area) eqn:Hp.
  - rewrite (present_nonempty _ Hp). by destruct (present (device_id e)).
  - rewrite (not_present_nonempty _ Hp). by destruct (present (device_id e)).
Qed.

Lemma filed_area_spec (devices : list device) (e : entity) :
  Spec.filed_area (index_devices devices) e = Spec.area_of devices e.
Proof.
  unfold Spec.filed_area, Spec.area_of. rewrite index_devices_lookup.
  destruct (present (area_id e)) eqn:Ha; simpl.
  - by rewrite (present_nonempty _ Ha).
  - rewrite (not_present_nonempty (area_id e) Ha).
    destruct (present (device_id e)) eqn:Hd; simpl.
    + by rewrite (present_nonempty _ Hd).
    + rewrite (not_present_nonempty (device_id e) Hd).
      by apply not_present_nonempty.
Qed.

Lemma foldl_index_entity_other (m : gmap pystr device) (l : list entity) acc (k : pystr) :
  k ∉ entity_id <$> l ->
  fst (foldl (index_entity m) acc l) !! k = fst acc !! k.
Proof.
  revert acc. induction l as [|e l IH]; intros [ea ed] Hk; [done|].
  cbn [foldl]. rewrite fmap_cons in Hk. apply not_elem_of_cons in Hk as [Hne Hk].
  destruct (index_entity m (ea, ed) e) as [ea' ed'] eqn:E.
  rewrite IH by done. replace ea' with (fst (index_entity m (ea, ed) e)) by by rewrite E.
  rewrite index_entity_area. cbn [fst]. destruct (Spec.filed_area m e); [|done].
  by rewrite lookup_insert_ne.
Qed.

Lemma foldl_index_entity_lookup (m : gmap pystr device) (l : list entity) acc (e : entity) :
  NoDup (entity_id <$> l) -> e ∈ l ->
  fst (foldl (index_entity m) acc l) !! entity_id e
  = match Spec.filed_area m e with
    | Some a => Some a
    | None => fst acc !! entity_id e
    end.
Proof.
  revert acc. induction l as [|e' l IH]; intros [ea ed] Hnd He.
  - by apply elem_of_nil in He.
  - cbn [foldl]. rewrite fmap_cons in Hnd. apply NoDup_cons in Hnd as [Hnotin Hnd].
    destruct (index_entity m (ea, ed) e') as [ea' ed'] eqn:E.
    assert (ea' = fst (index_entity m (ea, ed) e')) as Hea by by rewrite E.
    rewrite index_entity_area in Hea. cbn [fst] in Hea.
    apply elem_of_cons in He as [->|He].
    + rewrite foldl_index_entity_other by done. cbn [fst]. rewrite Hea.
      destruct (Spec.filed_area m e'); [|done]. apply lookup_insert_eq.
    + rewrite IH by done. cbn [fst]. destruct (Spec.filed_area m e); [done|].
      rewrite Hea. destruct (Spec.filed_area m e'); [|done].
      rewrite lookup_insert_ne; [done|]. intros Heq. apply Hnotin.
      rewrite Heq. apply list_elem_of_fmap. eauto.
Qed.

Lemma ent_to_area_build (devices : list device) (entities : list entity) :
  ent_to_area (_build_entity_area_map devices entities)
  = fst (foldl (index_entity (index_devices devices)) (∅, ∅) entities).
Proof.
  unfold _build_entity_area_map.
  by destruct (foldl (index_entity (index_devices devices)) (∅, ∅) entities).
Qed.

Lemma entity_area_resolution (devices : list device) (entities : list entity) :
  NoDup (entity_id <$> entities) ->
  let ix := _build_entity_area_map devices entities in
  (forall e, e ∈ entities -> ent_to_area ix !! entity_id e = Spec.area_of devices e) /\
  (forall k, k ∉ entity_id <$> entities -> ent_to_area ix !! k = None).
Proof.
  intros Hnd ix. subst ix. rewrite ent_to_area_build. split.
  - intros e He. rewrite foldl_index_entity_lookup by done.
    rewrite filed_area_spec. cbn [fst]. rewrite lookup_empty. by case_match.
  - intros k Hk. rewrite foldl_index_entity_other by done. apply lookup_empty.
Qed.

End RegistryFacts.

(** ** The event forwarder *)

Section ForwarderFacts.
Context `{PyRuntime}.
Import Adapter.

Lemma forward_message_accepted cfg ix msg :
  is_Some (forward_message cfg ix msg) <-> Spec.accepted cfg ix msg.
Proof.
  unfold forward_message, Spec.accepted, Spec.msg_area, Spec.msg_state, Spec.msg_entity, Spec.msg_data, Spec.dead_states.
  destruct (bool_decide (msg_type msg = Some (py "event"))) eqn:Ht; simpl.
  2:{ apply bool_decide_eq_false in Ht. split; [by intros []|tauto]. }
  apply bool_decide_eq_true in Ht.
  destruct (bool_decide (msg_event msg ≫= event_type = Some (py "state_changed"))) eqn:He; simpl.
  2:{ apply bool_decide_eq_false in He. split; [by intros []|tauto]. }
  apply bool_decide_eq_true in He.
  set (eid := (msg_event msg ≫= event_data_) ≫= data_entity_id).
  set (st := ((msg_event msg ≫= event_data_) ≫= data_new_state) ≫= so_state).
  destruct (present eid) eqn:Hp; simpl.
  2:{ split; [by intros []|]. intros (_ & _ & ? & _). done. }
  destruct (bool_decide (st ∈ [None; Some (py "unknown"); Some (py "unavailable")])) eqn:Hs.
  { apply bool_decide_eq_true in Hs. split; [by intros []|tauto]. }
  apply bool_decide_eq_false in Hs.
  assert (eid ≫= (fun e => ent_to_area ix !! e) = ent_to_area ix !! default [] eid) as ->.
  { by destruct eid. }
  set (area := ent_to_area ix !! default [] eid).
  destruct (present area) eqn:Ha; simpl.
  2:{ split; [by intros []|]. intros (_ & _ & _ & _ & ? & _). done. }
  destruct (bool_decide (AREAS cfg = ∅)) eqn:Hall; simpl.
  - apply bool_decide_eq_true in Hall.
    destruct (_infer_value_and_type (default [] st)). split; [|eauto]. intros _. tauto.
  - apply bool_decide_eq_false in Hall.
    destruct (bool_decide (default [] area ∈ AREAS cfg)) eqn:Hin; simpl.
    + apply bool_decide_eq_true in Hin.
      destruct (_infer_value_and_type (default [] st)). split; [|eauto]. intros _. tauto.
    + apply bool_decide_eq_false in Hin. split; [by intros []|].
      intros (_ & _ & _ & _ & _ & [?|?]); done.
Qed.

Lemma not_accepted_none cfg ix msg :
  ~ Spec.accepted cfg ix msg -> forward_message cfg ix msg = None.
Proof.
  intros Hn. destruct (forward_message cfg ix msg) eqn:E; [|done].
  exfalso. apply Hn. apply forward_message_accepted. rewrite E. eauto.
Qed.

Lemma forward_message_filter (cfg : config) (ix : registry_index) (msg : ws_message) :
  (Spec.msg_state msg ∈ Spec.dead_states -> forward_message cfg ix msg = None) /\
  (Spec.nonempty (Spec.msg_area ix msg) = None -> forward_message cfg ix msg = None) /\
  (AREAS cfg <> ∅ -> default [] (Spec.msg_area ix msg) ∉ AREAS cfg ->
     forward_message cfg ix msg = None) /\
  (AREAS cfg = ∅ ->
     msg_type msg = Some (py "event") ->
     msg_event msg ≫= event_type = Some (py "state_changed") ->
     present (Spec.msg_entity msg) = true ->
     Spec.msg_state msg ∉ Spec.dead_states ->
     present (Spec.msg_area ix msg) = true ->
     is_Some (forward_message cfg ix msg)) /\
  (forall w, forward_message cfg (task_index w) msg = None ->
     posted (step cfg w (Received msg)) = posted w).
Proof.
  repeat split.
  - intros Hs. apply not_accepted_none. intros (_ & _ & _ & Hn & _). done.
  - intros Ha. apply not_accepted_none. intros (_ & _ & _ & _ & Hp & _).
    unfold Spec.nonempty in Ha. rewrite Hp in Ha. by destruct (Spec.msg_area ix msg).
  - intros Hne Hout. apply not_accepted_none. intros (_ & _ & _ & _ & _ & [?|?]); done.
  - intros. apply forward_message_accepted. unfold Spec.accepted. tauto.
  - intros w Hw. unfold step. destruct (task_phase w); try done.
    cbn. rewrite Hw. cbn. by rewrite app_nil_r.
Qed.

(** The task's maps are those built at its start. *)
Lemma step_task_index cfg w i : task_index (step cfg w i) = task_index w.
Proof. by destruct i, (task_phase w) eqn:E; unfold step; rewrite ?E. Qed.

Lemma run_task_index cfg w inputs : task_index (run cfg w inputs) = task_index w.
Proof.
  unfold run. revert w. induction inputs as [|i inputs IH]; intros w; [done|].
  cbn [foldl]. by rewrite IH, step_task_index.
Qed.

Lemma step_posted cfg w i n :
  n ∈ posted (step cfg w i) ->
  n ∈ posted w \/ exists m, i = Received m /\ forward_message cfg (task_index w) m = Some n.
Proof.
  destruct i, (task_phase w) eqn:E; unfold step; rewrite ?E; cbn; auto.
  rewrite elem_of_app. intros [?|Hn]; [by left|]. right. exists m. split; [done|].
  destruct (forward_message cfg (task_index w) m); cbn in Hn.
  - by apply list_elem_of_singleton in Hn as ->.
  - by apply elem_of_nil in Hn.
Qed.

Lemma run_posted cfg w inputs n :
  n ∈ posted (run cfg w inputs) ->
  n ∈ posted w \/
  exists m, Received m ∈ inputs /\ forward_message cfg (task_index w) m = Some n.
Proof.
  unfold run. revert w. induction inputs as [|i inputs IH]; intros w; [by left|].
  cbn [foldl]. intros Hn. apply IH in Hn as [Hn|(m & Hm & Hf)].
  - apply step_posted in Hn as [Hn|(m & -> & Hf)]; [by left|].
    right. exists m. split; [left|done].
  - right. exists m. split; [by right|]. by rewrite step_task_index in Hf.
Qed.

Lemma index_built_once (cfg : config) (r : registry) (w0 : world) (inputs : list input) :
  start cfg r = Some w0 ->
  let w := run cfg w0 inputs in
  task_index w = build r /\
  (forall n, n ∈ posted w ->
     exists m, Received m ∈ inputs /\ forward_message cfg (build r) m = Some n).
Proof.
  intros Hstart w. subst w.
  assert (task_index w0 = build r /\ posted w0 = []) as [Hix Hp].
  { unfold start in Hstart. destruct (MONITOR_URL cfg); [done|]. by injection Hstart as <-. }
  split.
  - by rewrite run_task_index.
  - intros n Hn. apply run_posted in Hn as [Hn|Hn].
    + rewrite Hp in Hn. by apply elem_of_nil in Hn.
    + by rewrite Hix in Hn.
Qed.

End ForwarderFacts.

(** ** Tokens *)

Section TokenFacts.

Lemma words_ext (p q : N -> bool) (s : pystr) :
  (forall c, c ∈ s -> p c = q c) -> words p s = words q s.
Proof.
  induction s as [|c s IH]; intros Hpq; [done|]. cbn [words].
  rewrite IH by (intros d Hd; apply Hpq; by right).
  by rewrite (Hpq c) by left.
Qed.

Lemma tokens_ext (p q : N -> bool) (s : pystr) :
  (forall c, c ∈ s -> p c = q c) -> tokens p s = tokens q s.
Proof. intros Hpq. unfold tokens. by rewrite (words_ext p q s Hpq). Qed.

(** Replacing the separators by one of them changes no token. *)
Lemma words_map (sep sep' : N -> bool) (f : N -> N) (s : pystr) :
  (forall c, sep' c = false -> f c = c) ->
  (forall c, sep (f c) = sep' c) ->
  words sep (map f s) = words sep' s.
Proof.
  intros Hf Hsep. induction s as [|c s IH]; [done|]. cbn [map words].
  rewrite IH, Hsep. destruct (words sep' s) as [w ws].
  destruct (sep' c) eqn:Hc; [done|]. by rewrite Hf.
Qed.

Lemma words_lead (sep : N -> bool) (t s : pystr) :
  Forall (fun c => sep c = true) t ->
  tokens sep (t ++ s) = tokens sep s.
Proof.
  unfold tokens. induction 1 as [|c t Hc Ht IH]; [done|].
  cbn [app words]. rewrite Hc. destruct (words sep (t ++ s)) as [w ws].
  by destruct (words sep s).
Qed.

Lemma words_trail (sep : N -> bool) (s t : pystr) :
  Forall (fun c => sep c = true) t ->
  words sep (s ++ t) = words sep s.
Proof.
  intros Ht. induction s as [|c s IH].
  - cbn [app]. induction Ht as [|c t Hc Ht IH]; [done|].
    cbn [words]. by rewrite IH, Hc.
  - cbn [app words]. by rewrite IH.
Qed.

Lemma tokens_strip (sep p : N -> bool) (s : pystr) :
  (forall c, p c = true -> sep c = true) ->
  tokens sep (strip_by p s) = tokens sep s.
Proof.
  intros Hp. unfold strip_by.
  destruct (lstrip_by_split p s) as (t & Ht & Hpt).
  destruct (rstrip_by_split p (lstrip_by p s)) as (u & Hu & Hpu).
  rewrite Ht at 2. rewrite words_lead by (eapply Forall_impl; eauto).
  rewrite Hu at 2. unfold tokens.
  by rewrite words_trail by (eapply Forall_impl; eauto).
Qed.

Lemma words_elem (sep : N -> bool) (s : pystr) (w : pystr) (c : N) :
  w ∈ tokens sep s -> c ∈ w -> c ∈ s.
Proof.
  unfold tokens. revert w. induction s as [|d s IH]; intros w; cbn [words].
  - intros Hw. by apply elem_of_nil in Hw.
  - destruct (words sep s) as [w0 ws] eqn:E. destruct (sep d).
    + cbn [push_word]. intros Hw Hc. right. by apply (IH w).
    + cbn [push_word]. intros Hw Hc. apply elem_of_cons in Hw as [->|Hw].
      * apply elem_of_cons in Hc as [->|Hc]; [left|]. right.
        destruct w0 as [|c0 w0]; [by apply elem_of_nil in Hc|].
        apply (IH (c0 :: w0)); [left|done].
      * right. apply (IH w); [|done]. destruct w0; [done|by right].
Qed.

End TokenFacts.

(** ** Sensor action names *)

Section ActionNameFacts.
Context `{PyRuntime}.
Import Adapter.

Lemma isspace_space : isspace 32 = true.
Proof. by rewrite isspace_ascii. Qed.

Lemma camel_token_title (s : pystr) : _camel_token s = Spec.title_tokens s.
Proof.
  unfold _camel_token, Spec.title_tokens, Py.split, tokens.
  rewrite (words_map isspace (fun c => negb (isalnum c))); [done| |].
  - intros c Hc. apply negb_false_iff in Hc. by rewrite Hc.
  - intros c. destruct (isalnum c) eqn:Hc; simpl.
    + by apply isalnum_not_isspace.
    + apply isspace_space.
Qed.

Lemma title_tokens_strip (s : pystr) :
  Spec.title_tokens (Py.strip s) = Spec.title_tokens s.
Proof.
  unfold Spec.title_tokens, Py.strip. rewrite tokens_strip; [done|].
  intros c Hc. destruct (isalnum c) eqn:Ha; [|done].
  apply isalnum_not_isspace in Ha. congruence.
Qed.

Lemma sanitize_unit_spec (unit : option pystr) :
  _sanitize_unit unit = Spec.nonempty unit ≫= Spec.normalize_unit.
Proof.
  unfold _sanitize_unit, Spec.nonempty, Spec.normalize_unit.
  destruct (present unit) eqn:Hp; simpl; [|done].
  destruct unit as [unit|]; [|done]. simpl.
  destruct (mapping !! unit); [done|].
  by destruct (lower (List.filter isalnum unit)).
Qed.

Lemma mapping_nonempty (unit v : pystr) : mapping !! unit = Some v -> v <> [].
Proof.
  intros Hm ->. unfold mapping in Hm. apply elem_of_list_to_map_2 in Hm.
  repeat (apply elem_of_cons in Hm as [Hm|Hm]; [discriminate|]).
  by apply elem_of_nil in Hm.
Qed.

Lemma sanitize_unit_present (unit : option pystr) (u : pystr) :
  _sanitize_unit unit = Some u -> u <> [].
Proof.
  unfold _sanitize_unit. destruct (present unit); simpl; [|done].
  destruct (mapping !! default [] unit) eqn:Hm.
  - intros [= <-]. by apply (mapping_nonempty _ _ Hm).
  - destruct (lower (List.filter isalnum (default [] unit))); [done|]. by intros [= <-].
Qed.

Lemma sensor_action_name_spec (device_class unit : option pystr) :
  _sensor_action_name device_class unit = Spec.action_name device_class unit.
Proof.
  unfold _sensor_action_name, Spec.action_name.
  rewrite <- sanitize_unit_spec.
  destruct (_sanitize_unit unit) as [u|] eqn:Hu; [|done].
  apply sanitize_unit_present in Hu. destruct u as [|c u]; [done|]. simpl present. simpl negb.
  cbn [default from_option id]. rewrite !camel_token_title.
  destruct device_class as [dc|]; cbn [default from_option id].
  - destruct (Py.strip dc) as [|d dc'] eqn:Hdc.
    + assert (Spec.title_tokens dc = []) as ->; [|reflexivity].
      by rewrite <- title_tokens_strip, Hdc.
    + by rewrite <- Hdc, title_tokens_strip.
  - assert (Py.strip [] = []) as -> by done. done.
Qed.

(** On ASCII text the tables of every runtime agree. *)
Lemma title_tokens_ascii (s : pystr) :
  forallb is_ascii s = true ->
  Spec.title_tokens s
  = concat (map ascii_capitalize (tokens (fun c => negb (ascii_isalnum c)) s)).
Proof.
  intros Hs. unfold Spec.title_tokens.
  rewrite (tokens_ext _ (fun c => negb (ascii_isalnum c))).
  2:{ intros c Hc. f_equal. apply isalnum_ascii. by apply (proj1 (forallb_elem _ _) Hs). }
  f_equal. apply map_ext_in. intros w Hw. apply capitalize_ascii.
  apply forallb_elem. intros c Hc. apply (proj1 (forallb_elem _ _) Hs).
  apply list_elem_of_In in Hw. by apply (words_elem _ _ _ _ Hw).
Qed.

Lemma action_name_examples :
  _sensor_action_name (Some (py "temperature")) (Some (py "°C"))
    = Some (py "getTemperatureInDegc") /\
  _sensor_action_name None (Some (py "%")) = Some (py "getInPercent") /\
  _sensor_action_name (Some (py "temperature")) (Some (py "---")) = None.
Proof.
  rewrite !sensor_action_name_spec. unfold Spec.action_name.
  split; [|split].
  - assert (Spec.nonempty (Some (py "°C")) ≫= Spec.normalize_unit = Some (py "degc")) as ->
      by by vm_compute.
    rewrite !title_tokens_ascii by done. by vm_compute.
  - assert (Spec.nonempty (Some (py "%")) ≫= Spec.normalize_unit = Some (py "percent")) as ->
      by by vm_compute.
    rewrite !title_tokens_ascii by done. by vm_compute.
  - assert (Spec.nonempty (Some (py "---")) ≫= Spec.normalize_unit = None) as ->; [|done].
    change (Spec.nonempty (Some (py "---")) ≫= Spec.normalize_unit)
      with (Spec.normalize_unit (py "---")).
    unfold Spec.normalize_unit.
    assert (mapping !! py "---" = None) as -> by by vm_compute.
    assert (List.filter isalnum (py "---") = []) as ->.
    { assert (forall c, c ∈ py "---" -> isalnum c = false) as Hc.
      { intros c Hc. rewrite isalnum_ascii.
        - revert Hc. vm_compute py. rewrite !elem_of_cons, elem_of_nil.
          intros [->|[->|[->|[]]]]; done.
        - revert Hc. vm_compute py. rewrite !elem_of_cons, elem_of_nil.
          intros [->|[->|[->|[]]]]; done. }
      vm_compute py. cbn [List.filter]. rewrite !Hc; [done|vm_compute py; set_solver..]. }
    by rewrite lower_ascii.
Qed.

End ActionNameFacts.

(** ** The value classifier *)

Section ClassifierFacts.
Context `{PyRuntime}.
Import Adapter.

Lemma scan_chars (prev_us : bool) (s : pystr) ds rest :
  Py.scan prev_us s = Some (ds, rest) ->
  exists body, s = body ++ rest /\ Forall (fun c => Py.int_char c = true) body.
Proof.
  revert prev_us ds. induction s as [|c s IH]; intros prev_us ds; cbn [Py.scan].
  - destruct prev_us; [done|]. intros [= <- <-]. by exists [].
  - destruct (c =? 95)%N eqn:Hus.
    + destruct prev_us; [done|]. intros Hs. apply IH in Hs as (body & -> & Hb).
      exists (c :: body). split; [done|]. constructor; [|done].
      unfold Py.int_char. rewrite Hus. by rewrite !orb_true_r.
    + destruct (ascii_isdigit c) eqn:Hd.
      * destruct (Py.scan false s) as [[ds' rest']|] eqn:Hs; [|done].
        intros [= <- <-]. apply IH in Hs as (body & -> & Hb).
        exists (c :: body). split; [done|]. constructor; [|done].
        unfold Py.int_char. rewrite Hd. by rewrite !orb_true_r.
      * destruct prev_us; [done|]. intros [= <- <-]. by exists [].
Qed.

Lemma split_sign_chars (s : pystr) neg r :
  Py.split_sign s = (neg, r) ->
  exists sg, s = sg ++ r /\ Forall (fun c => Py.int_char c = true) sg.
Proof.
  unfold Py.split_sign. intros Hs.
  destruct s as [|c s]; [injection Hs as <- <-; by exists []|].
  destruct (decide (c = 45%N)) as [->|H45].
  { injection Hs as <- <-. exists [45%N]. split; [done|]. by repeat constructor. }
  destruct (decide (c = 43%N)) as [->|H43].
  { injection Hs as <- <-. exists [43%N]. split; [done|]. by repeat constructor. }
  assert (r = c :: s) as ->.
  { destruct c as [|p]; [by injection Hs|].
    do 6 (destruct p as [p|p|]; try (by injection Hs)); congruence. }
  by exists [].
Qed.

Lemma int_of_str_chars (s : pystr) (i : Z) :
  Py.int_of_str s = Some i ->
  exists t, Py.transform s = Some t /\ Forall (fun c => Py.int_char c = true) t.
Proof.
  unfold Py.int_of_str. destruct (Py.transform s) as [t|]; [|done].
  intros Hi. exists t. split; [done|].
  destruct (lstrip_by_split c_isspace t) as (u & Ht & Hu).
  destruct (Py.split_sign (lstrip_by c_isspace t)) as [neg r] eqn:Hsg.
  apply split_sign_chars in Hsg as (sg & Hr & Hsg).
  destruct (startswith r [95%N]); [done|].
  destruct (Py.scan false r) as [[ds rest]|] eqn:Hsc; [|done].
  apply scan_chars in Hsc as (body & Hb & Hbody).
  destruct ds as [|d ds]; [done|].
  destruct (lstrip_by c_isspace rest) eqn:Hrest; [|done].
  destruct (lstrip_by_split c_isspace rest) as (v & Hv & Hvs).
  rewrite Hrest, app_nil_r in Hv. subst v.
  rewrite Ht, Hr, Hb. repeat apply Forall_app_2; try done.
  - eapply Forall_impl; [exact Hu|]. intros c Hc. unfold Py.int_char. by rewrite Hc.
  - eapply Forall_impl; [exact Hvs|]. intros c Hc. unfold Py.int_char. by rewrite Hc.
Qed.

Lemma transform_keeps_ascii (s t : pystr) (c : N) :
  Py.transform s = Some t -> (c < 127)%N -> c ∈ s -> c ∈ t.
Proof.
  unfold Py.transform. destruct (forallb is_ascii s); [by intros [= <-]|].
  intros Hm Hc Hin. apply mapM_Some in Hm.
  apply list_elem_of_lookup in Hin as [i Hi].
  destruct (Forall2_lookup_l _ _ _ _ _ Hm Hi) as (y & Hy & Hto).
  unfold Py.to_ascii in Hto. apply N.ltb_lt in Hc. rewrite Hc in Hto.
  injection Hto as <-. apply list_elem_of_lookup. eauto.
Qed.

(** A string [int] accepts has no decimal point. *)
Lemma int_of_str_no_point (s : pystr) (i : Z) :
  Py.int_of_str s = Some i -> 46%N ∉ s.
Proof.
  intros Hi Hin. apply int_of_str_chars in Hi as (t & Ht & Hall).
  apply (transform_keeps_ascii s t 46) in Hin; [|done|lia].
  rewrite Forall_forall in Hall. by specialize (Hall _ Hin).
Qed.

Lemma infer_value_and_type_rules (state : pystr) :
  (state = py "on" -> _infer_value_and_type state = (PBool true, XSD_BOOL)) /\
  (state = py "off" -> _infer_value_and_type state = (PBool false, XSD_BOOL)) /\
  (state ∉ [py "on"; py "off"] ->
     (forall i, Py.int_of_str state = Some i ->
        _infer_value_and_type state = (PInt i, XSD_INT) /\ 46%N ∉ state) /\
     (Py.int_of_str state = None ->
        (forall f, Py.float_of_str state = Some f ->
           _infer_value_and_type state = (PFloat f, XSD_DOUBLE)) /\
        (Py.float_of_str state = None ->
           _infer_value_and_type state = (PStr state, XSD_STRING)))) /\
  _infer_value_and_type (py "23.5")
    = (PFloat (S754_finite false 6614661952700416 (-48)), XSD_DOUBLE) /\
  _infer_value_and_type (py "unlocked") = (PStr (py "unlocked"), XSD_STRING) /\
  _infer_value_and_type (py "-12") = (PInt (-12), XSD_INT) /\
  _infer_value_and_type (py "+7") = (PInt 7, XSD_INT).
Proof.
  split; [by intros ->|]. split; [by intros ->|]. split.
  - intros Hs. apply mem_false in Hs. unfold _infer_value_and_type. rewrite Hs.
    split.
    + intros i Hi. rewrite Hi. split; [done|]. by apply (int_of_str_no_point _ i).
    + intros ->. split.
      * by intros f ->.
      * by intros ->.
  - repeat split; by vm_compute.
Qed.

End ClassifierFacts.

(** ** The illuminance accumulator *)

Section AccumulatorFacts.
Context `{PyRuntime}.
Import AdjustLux LuxRules Examples.

(** The position the code reads from a state is the one the state holds. *)
Lemma position_read (st : option state_object) (p : Z) :
  position st = Some p <-> exists s, st = Some s /\ position_of s p.
Proof.
  unfold position, position_of. split.
  - destruct st as [s|]; cbn [mbind option_bind].
    + destruct (so_attributes s) as [attrs|] eqn:Ha; cbn [default from_option id].
      * destruct (attrs !! py "current_position") as [v|] eqn:Hv;
          cbn [default from_option id]; [|done].
        intros Hp. exists s. split; [done|]. by exists attrs, v.
      * rewrite lookup_empty. done.
    + cbn [default from_option id]. rewrite lookup_empty. done.
  - intros (s & -> & attrs & v & Ha & Hv & Hp). cbn [mbind option_bind].
    rewrite Ha. cbn [default from_option id]. rewrite Hv. done.
Qed.

Lemma position_unread (st : option state_object) :
  position st = None <-> forall s p, st = Some s -> ~ position_of s p.
Proof.
  split.
  - intros Hn s p -> Hp.
    assert (position (Some s) = Some p) as Hs by (apply position_read; eauto).
    congruence.
  - intros Hn. destruct (position st) as [p|] eqn:Hp; [|done].
    apply position_read in Hp as (s & -> & Hp). by destruct (Hn s p).
Qed.

Lemma position_of_functional (st : state_object) (p q : Z) :
  position_of st p -> position_of st q -> p = q.
Proof.
  intros (a1 & v1 & Ha1 & Hv1 & Hp) (a2 & v2 & Ha2 & Hv2 & Hq). congruence.
Qed.

Lemma positions_functional (msg : ws_message) (o n o' n' : Z) :
  positions msg o n -> positions msg o' n' -> o = o' /\ n = n'.
Proof.
  intros (old & new & Ho & Hn & Hpo & Hpn) (old' & new' & Ho' & Hn' & Hpo' & Hpn').
  assert (old' = old) as -> by congruence. assert (new' = new) as -> by congruence.
  split; by eapply position_of_functional.
Qed.

Lemma positions_read (msg : ws_message) (o n : Z) :
  positions msg o n
  <-> position (ev_new msg) = Some n /\ position (ev_old msg) = Some o.
Proof.
  split.
  - intros (old & new & Ho & Hn & Hpo & Hpn). split; apply position_read; eauto.
  - intros [(new & Hn & Hpn)%position_read (old & Ho & Hpo)%position_read].
    by exists old, new.
Qed.

(** What the code obtains for an event it can read, in the words of the
    rules. *)
Lemma delta_readable (cfg : config) (msg : ws_message) :
  readable msg ->
  delta cfg msg
  = Some
      (if eqb (ev_domain msg) (py "light") && eqb (ev_state msg) (py "on")
       then (inc_light cfg, py "light")
       else if eqb (ev_domain msg) (py "light") && eqb (ev_state msg) (py "off")
       then ((- dec_light cfg)%Z, py "light")
       else if eqb (ev_domain msg) (py "cover") then
         if mem (ev_state msg) [py "opening"; py "open"] then (inc_blinds cfg, py "cover")
         else if mem (ev_state msg) [py "closing"; py "closed"]
         then ((- dec_blinds cfg)%Z, py "cover")
         else
           match position (ev_new msg) with
           | None => (0%Z, [])
           | Some new_pos =>
             match ev_old msg with
             | None => (0%Z, [])
             | Some _ =>
               match position (ev_old msg) with
               | None => (0%Z, [])
               | Some old_pos =>
                 if (old_pos <? new_pos)%Z then (inc_blinds cfg, py "cover")
                 else if (new_pos <? old_pos)%Z then ((- dec_blinds cfg)%Z, py "cover")
                 else (0%Z, [])
               end
             end
           end
       else (0%Z, [])).
Proof.
  unfold readable, delta, _delta_from_event, ev_domain, ev_state, ev_entity, ev_new, ev_old.
  intros [ent Hent].
  destruct (msg_data msg) as [| |data]; [reflexivity|discriminate Hent|].
  cbn [mbind option_bind].
  destruct (data_entity_id data) as [| |e]; [reflexivity|discriminate Hent|reflexivity].
Qed.

Lemma delta_unreadable (cfg : config) (msg : ws_message) :
  delta cfg msg = None <-> ~ readable msg.
Proof.
  unfold readable, delta, _delta_from_event, ev_entity.
  destruct (msg_data msg) as [| |data]; cbn [mbind option_bind].
  - split; [done|]. intros Hn. destruct Hn. by eexists.
  - split; [|done]. intros _ [? [=]].
  - destruct (data_entity_id data) as [| |e]; cbn [mbind option_bind].
    + split; [done|]. intros Hn. destruct Hn. by eexists.
    + split; [|done]. intros _ [? [=]].
    + split; [done|]. intros Hn. destruct Hn. by eexists.
Qed.

Lemma delta_some_readable (cfg : config) (msg : ws_message) (r : Z * pystr) :
  delta cfg msg = Some r -> readable msg.
Proof.
  intros Hd. unfold readable. destruct (ev_entity msg) as [ent|] eqn:He; [by eexists|].
  assert (delta cfg msg = None) as Hn; [|congruence].
  apply delta_unreadable. unfold readable. rewrite He. by intros [? [=]].
Qed.





Lemma adjust_written (cfg : config) (msg : ws_message) (fetched : option pyvalue)
    (v : float64) :
  adjust cfg msg fetched = Written v ->
  exists raw z d,
    fetched = Some raw /\ fst <$> delta cfg msg = Some z /\ z <> 0%Z /\
    Py.float_of_Z z = Some d /\
    v = max0 (F64.add (default F64.zero (Py.float_ raw)) d).
Proof.
  unfold adjust. fold (delta cfg msg).
  destruct (bool_decide (msg_type msg = Some (py "event"))); [|done]. cbn [negb].
  destruct (delta cfg msg) as [[dl src]|]; [|done].
  destruct (dl =? 0)%Z eqn:E; [done|]. apply Z.eqb_neq in E.
  destruct fetched as [raw|]; [|done].
  destruct (Py.float_of_Z dl) as [d|] eqn:Hd; [|done].
  intros [= <-]. exists raw, dl, d. done.
Qed.

Lemma adjust_writes (cfg : config) (msg : ws_message) (raw : pyvalue) (z : Z)
    (d : float64) :
  msg_type msg = Some (py "event") ->
  fst <$> delta cfg msg = Some z -> z <> 0%Z ->
  Py.float_of_Z z = Some d ->
  adjust cfg msg (Some raw)
  = Written (max0 (F64.add (default F64.zero (Py.float_ raw)) d)).
Proof.
  intros Ht Hz Hd Hf. unfold adjust. fold (delta cfg msg).
  rewrite bool_decide_eq_true_2 by done. cbn [negb].
  destruct (delta cfg msg) as [[dl src]|]; [|done].
  injection Hz as ->.
  apply Z.eqb_neq in Hd. by rewrite Hd, Hf.
Qed.


Lemma adjust_crashed (cfg : config) (msg : ws_message) (fetched : option pyvalue) :
  adjust cfg msg fetched = Crashed
  <-> msg_type msg = Some (py "event") /\ ~ readable msg.
Proof.
  unfold adjust. fold (delta cfg msg). rewrite <- (delta_unreadable cfg msg).
  destruct (bool_decide (msg_type msg = Some (py "event"))) eqn:Ht; cbn [negb].
  - apply bool_decide_eq_true in Ht.
    destruct (delta cfg msg) as [[dl src]|];
      [|split; [intros _; split; [exact Ht|reflexivity]|reflexivity]].
    split; [|by intros [_ [=]]].
    destruct (dl =? 0)%Z; [done|]. destruct fetched; [|done].
    by destruct (Py.float_of_Z dl).
  - apply bool_decide_eq_false in Ht. split; [done|]. by intros [? _].
Qed.










End AccumulatorFacts.

(** ** The claims *)

Section Claims.
Context `{PyRuntime}.

Import SetProperty.

Lemma shortcut_otherwise (value : pyvalue) (d : pystr) :
  ~ (d ∈ [py "light"; py "switch"; py "fan"; py "input_boolean"] /\
     desired_of value ∈ on_values ++ off_values) ->
  ~ (d = py "cover" /\ desired_of value ∈ [py "open"; py "closed"; py "close"]) ->
  shortcut (py "state") value d = None.
Proof.
  intros Hsw Hcov. unfold shortcut.
  replace (eqb (py "state") (py "state")) with true by done.
  assert ((if mem d [py "light"; py "switch"; py "fan"; py "input_boolean"]
           then if mem (desired_of value) on_values then Some (py "turn_on")
                else if mem (desired_of value) off_values then Some (py "turn_off")
                else None
           else None) = None) as ->.
  { destruct (mem d _) eqn:Hd; [|done]. apply mem_true in Hd.
    destruct (mem (desired_of value) on_values) eqn:Hon.
    { apply mem_true in Hon. exfalso. apply Hsw. split; [done|].
      apply elem_of_app. by left. }
    destruct (mem (desired_of value) off_values) eqn:Hoff; [|done].
    apply mem_true in Hoff. exfalso. apply Hsw. split; [done|].
    apply elem_of_app. by right. }
  destruct (eqb d (py "cover")) eqn:Hd; [|done]. apply eqb_true in Hd.
  destruct (mem (desired_of value) [py "open"]) eqn:Ho.
  { apply mem_true in Ho. exfalso. apply Hcov. split; [done|].
    revert Ho. rewrite !elem_of_cons, !elem_of_nil. tauto. }
  destruct (mem (desired_of value) [py "closed"; py "close"]) eqn:Hc; [|done].
  apply mem_true in Hc. exfalso. apply Hcov. split; [done|].
  revert Hc. rewrite !elem_of_cons, !elem_of_nil. tauto.
Qed.

Lemma shortcut_other_property (prop : pystr) (value : pyvalue) (d : pystr) :
  prop <> py "state" -> shortcut prop value d = None.
Proof. intros Hp. unfold shortcut. apply eqb_false in Hp. by rewrite Hp. Qed.

(** C1. Scoring over the catalogue: a service is a candidate exactly when it
    declares an [entity_id] field or one of its target selectors lists the
    entity's domain; its score is the sum of 5 (virtual domain), 3 (name
    contains "set"), 3 (the property is a declared field), 2 (property
    "state" and a declared "value" field) and 1 (domain of the entity);
    services scoring 0 are left out; the candidates stand in enumeration
    order, the sort is a stable one by descending score, and the first of
    the highest-scoring candidates is returned; the result is a function of
    the catalogue and the request. *)
Theorem select_service_scoring (prop ent_domain : pystr)
    (services : list domain_services) :
  let cands := candidates_of prop ent_domain services in
  (forall dom nm meta,
     (Spec.candidate ent_domain meta /\
      exists s, Spec.scores prop ent_domain dom nm meta s /\ (0 < s)%Z /\
        consider prop ent_domain dom (nm, meta)
        = [{| domain := dom; name := nm; fields := fields_of meta; score := s |}])
     \/ ((~ Spec.candidate ent_domain meta \/ Spec.scores prop ent_domain dom nm meta 0) /\
         consider prop ent_domain dom (nm, meta) = [])) /\
  cands = flat_map (fun '(dom, entry) => consider prop ent_domain dom entry)
                   (Spec.enumerate services) /\
  sort_desc cands ≡ₚ cands /\
  Spec.descending (sort_desc cands) /\
  (forall k, List.filter (fun d => (score d =? k)%Z) (sort_desc cands)
             = List.filter (fun d => (score d =? k)%Z) cands) /\
  (forall c, select_scored prop ent_domain services = Some c <-> Spec.first_best cands c) /\
  (select_scored prop ent_domain services = None <-> cands = []) /\
  (forall value, shortcut prop value ent_domain = None ->
     select_service prop value ent_domain services
     = select_scored prop ent_domain services) /\
  (forall r1 r2,
     select_scored prop ent_domain services = r1 ->
     select_scored prop ent_domain services = r2 -> r1 = r2) /\
  select_scored (py "state") (py "sensor") Examples.virtual_set_value
  = Some {| domain := py "virtual"; name := py "set_value";
            fields := fields Examples.set_value_choice; score := 10 |}.
Proof.
  intros cands. subst cands.
  split; [|split; [|split; [|split; [|split; [|split; [|split; [|split; [|split]]]]]]]].
  - intros dom nm meta. apply consider_spec.
  - apply candidates_of_enumerate.
  - apply sort_desc_perm.
  - apply sort_desc_descending.
  - intros k. apply sort_desc_stable.
  - intros c. apply head_sort_desc_iff.
  - apply head_sort_desc_nil.
  - intros value. apply shortcut_none_scored.
  - congruence.
  - by vm_compute.
Qed.

(** C4 (as amended). For the property "state": in the domains light, switch,
    fan and input_boolean a value that normalizes to on/true/1/open selects
    turn_on and one that normalizes to off/false/0/closed/close selects
    turn_off; in the domain cover only "open" selects open_cover and only
    "closed"/"close" select close_cover; in each of these cases the catalogue
    is not consulted. Every other request goes on to the scoring. Domain
    light, property "state", value "on" selects turn_on. *)
Theorem shortcut_mapping (value : pyvalue) (d : pystr) (services : list domain_services) :
  let desired := desired_of value in
  let chosen := select_service (py "state") value d services in
  let switchable := d ∈ [py "light"; py "switch"; py "fan"; py "input_boolean"] in
  (switchable -> desired ∈ on_values ->
     chosen = Some (shortcut_choice d (py "turn_on"))) /\
  (switchable -> desired ∈ off_values ->
     chosen = Some (shortcut_choice d (py "turn_off"))) /\
  (d = py "cover" -> desired = py "open" ->
     chosen = Some (shortcut_choice d (py "open_cover"))) /\
  (d = py "cover" -> desired ∈ [py "closed"; py "close"] ->
     chosen = Some (shortcut_choice d (py "close_cover"))) /\
  (~ (switchable /\ desired ∈ on_values ++ off_values) ->
   ~ (d = py "cover" /\ desired ∈ [py "open"; py "closed"; py "close"]) ->
     chosen = select_scored (py "state") d services) /\
  select_service (py "state") (PStr (py "on")) (py "light") services
  = Some (shortcut_choice (py "light") (py "turn_on")).
Proof.
  intros desired chosen switchable. subst desired chosen switchable.
  destruct (shortcut_on_off (py "state") value d services eq_refl) as [Hsw Hcov].
  split; [|split; [|split; [|split; [|split]]]].
  - intros Hd. by apply Hsw.
  - intros Hd. by apply Hsw.
  - intros Hd. by apply Hcov.
  - intros Hd. by apply Hcov.
  - intros H1 H2. apply shortcut_none_scored. by apply shortcut_otherwise.
  - apply shortcut_light_on.
Qed.

(** C5 (as amended). The payload of a service call always has the key
    [entity_id]. For the property "state" the value is attached under
    "value" when the service declares that field and is not attached at all
    otherwise; for any other property the value is attached under the
    property's own name, whatever the service declares. *)
Theorem service_payload_keys (entity_id prop : pystr) (value : pyvalue)
    (ent_domain : pystr) (chosen : choice) :
  let payload := service_payload entity_id prop value ent_domain chosen in
  let base : gmap pystr pyvalue := {[ py "entity_id" := PStr entity_id ]} in
  is_Some (payload !! py "entity_id") /\
  (prop <> py "entity_id" -> payload !! py "entity_id" = Some (PStr entity_id)) /\
  (prop = py "state" -> is_Some (fields chosen !! py "value") ->
     payload = <[ py "value" := value ]> base) /\
  (prop = py "state" -> fields chosen !! py "value" = None -> payload = base) /\
  (prop <> py "state" -> payload = <[ prop := value ]> base).
Proof.
  intros payload base.
  destruct (service_payload_by_property entity_id prop value ent_domain chosen)
    as (H1 & H2 & H3 & H4).
  split; [done|]. split; [|done].
  intros Hne. subst payload.
  destruct (decide (prop = py "state")) as [Hs|Hs].
  - destruct (fields chosen !! py "value") eqn:Hv.
    + rewrite H2 by eauto. rewrite lookup_insert_ne by done. apply lookup_singleton_eq.
    + rewrite H3 by done. apply lookup_singleton_eq.
  - rewrite H4 by done. rewrite lookup_insert_ne by done. apply lookup_singleton_eq.
Qed.

(** C10. The direct state write: for a property other than "state" the
    state is the entity's current one and the attributes are the current
    ones with the property set to the value, every other attribute as it
    was; for the property "state" the state is the value and the attributes
    are the current ones. This is the request [main] sends when no service
    was selected. *)
Theorem fallback_write_frame (prop : pystr) (value : pyvalue) (current : entity_state) :
  let attrs := default ∅ (st_attributes current) in
  let p := fallback_payload prop value current in
  (prop <> py "state" ->
     p_state p = st_state current /\
     p_attributes p !! prop = Some value /\
     (forall k, k <> prop -> p_attributes p !! k = attrs !! k)) /\
  (prop = py "state" -> p_state p = value /\ p_attributes p = attrs) /\
  (forall entity_id services,
     select_service prop value (split_first 46 entity_id) services = None ->
     main_request entity_id prop value services current = SetState entity_id p).
Proof.
  intros attrs p.
  destruct (fallback_payload_frame prop value current) as [H1 H2].
  split; [done|]. split; [done|].
  intros entity_id services Hsel. unfold main_request. by rewrite Hsel.
Qed.

End Claims.

Section AdapterClaims.
Context `{PyRuntime}.
Import Adapter.

(** C2 (as amended). The registry index is built once, when the forwarder
    task starts, from the registries as they are then. No step of the task
    changes it: after any sequence of connections, errors, delays, messages
    and registry changes it is still the index of the registries at the
    start, in particular on every entry into SUBSCRIBED, and every
    notification posted was computed with it. A registry change takes effect
    only when the task is started anew. *)
Theorem forwarder_index_built_once (cfg : config) (r : registry) (w0 : world)
    (inputs : list input) :
  start cfg r = Some w0 ->
  let w := run cfg w0 inputs in
  task_index w = build r /\
  (forall i, task_index (step cfg w i) = build r) /\
  (forall n, n ∈ posted w ->
     exists m, Received m ∈ inputs /\ forward_message cfg (build r) m = Some n).
Proof.
  intros Hstart w. destruct (index_built_once cfg r w0 inputs Hstart) as [Hix Hp].
  split; [done|]. split; [|done].
  intros i. by rewrite step_task_index.
Qed.

(** C3. The classifier applies its rules in order: "on" and "off" give the
    booleans; any other string [int] reads gives that integer (such a string
    holds no decimal point; a sign is optional); any other string [float]
    reads gives that double; anything else is returned as a string. *)
Theorem classifier_rules (state : pystr) :
  (state = py "on" -> _infer_value_and_type state = (PBool true, XSD_BOOL)) /\
  (state = py "off" -> _infer_value_and_type state = (PBool false, XSD_BOOL)) /\
  (state ∉ [py "on"; py "off"] ->
     (forall i, Py.int_of_str state = Some i ->
        _infer_value_and_type state = (PInt i, XSD_INT) /\ 46%N ∉ state) /\
     (Py.int_of_str state = None ->
        (forall f, Py.float_of_str state = Some f ->
           _infer_value_and_type state = (PFloat f, XSD_DOUBLE)) /\
        (Py.float_of_str state = None ->
           _infer_value_and_type state = (PStr state, XSD_STRING)))) /\
  (exists f, _infer_value_and_type (py "23.5") = (PFloat f, XSD_DOUBLE) /\
             F64.is_ratio f 47 2) /\
  _infer_value_and_type (py "unlocked") = (PStr (py "unlocked"), XSD_STRING) /\
  _infer_value_and_type (py "-12") = (PInt (-12), XSD_INT) /\
  _infer_value_and_type (py "+7") = (PInt 7, XSD_INT).
Proof.
  destruct (infer_value_and_type_rules state) as (H1 & H2 & H3 & H4 & H5 & H6 & H7).
  split; [exact H1|]. split; [exact H2|]. split; [exact H3|].
  split; [|exact (conj H5 (conj H6 H7))].
  eexists. split; [exact H4|]. by vm_compute.
Qed.

(** C6. With entity ids that are unique, the area the index gives an entity
    is its own [area_id] when it has one, else the [area_id] of the device
    its [device_id] names; an entity with neither is not in the map, and
    neither is any id that is no entity's. *)
Theorem registry_index_areas (devices : list device) (entities : list entity) :
  NoDup (entity_id <$> entities) ->
  let ix := _build_entity_area_map devices entities in
  (forall e, e ∈ entities -> ent_to_area ix !! entity_id e = Spec.area_of devices e) /\
  (forall e, e ∈ entities -> Spec.area_of devices e = None ->
     ent_to_area ix !! entity_id e = None) /\
  (forall k, k ∉ entity_id <$> entities -> ent_to_area ix !! k = None) /\
  (forall d, NoDup (dev_id <$> devices) -> d ∈ devices ->
     Spec.device_of devices (dev_id d) = Some d).
Proof.
  intros Hnd ix. destruct (entity_area_resolution devices entities Hnd) as [Ha Hk].
  split; [done|]. split; [|split; [done|]].
  - intros e He Hn. subst ix. by rewrite Ha.
  - intros d Hd Hin. by apply device_of_unique.
Qed.

(** C7. A message whose new state is absent, "unknown" or "unavailable", or
    whose entity has no area in the index, or whose area is outside a
    non-empty allow-list, is skipped: no value is classified and nothing is
    posted. With an empty allow-list every area is accepted. *)
Theorem forwarder_filter (cfg : config) (ix : registry_index) (msg : ws_message) :
  (Spec.msg_state msg ∈ Spec.dead_states -> forward_message cfg ix msg = None) /\
  (Spec.nonempty (Spec.msg_area ix msg) = None -> forward_message cfg ix msg = None) /\
  (AREAS cfg <> ∅ -> default [] (Spec.msg_area ix msg) ∉ AREAS cfg ->
     forward_message cfg ix msg = None) /\
  (AREAS cfg = ∅ ->
     msg_type msg = Some (py "event") ->
     (msg_event msg ≫= event_type) = Some (py "state_changed") ->
     present (Spec.msg_entity msg) = true ->
     Spec.msg_state msg ∉ Spec.dead_states ->
     present (Spec.msg_area ix msg) = true ->
     is_Some (forward_message cfg ix msg)) /\
  (is_Some (forward_message cfg ix msg) <-> Spec.accepted cfg ix msg) /\
  (forall w, forward_message cfg (task_index w) msg = None ->
     posted (step cfg w (Received msg)) = posted w).
Proof.
  destruct (forward_message_filter cfg ix msg) as (H1 & H2 & H3 & H4 & H5).
  split; [done|]. split; [done|]. split; [done|]. split; [done|]. split; [|done].
  apply forward_message_accepted.
Qed.

(** C8. The name of the sensor action: the unit goes through the symbol
    table, else loses every character that is not alphanumeric and is put in
    lower case; the tokens of the device class and of the unit are
    capitalized and joined; the name is get<DeviceClass>In<Unit> with a
    device class and getIn<Unit> without; a unit that normalizes to nothing
    gives no action. *)
Theorem sensor_action_naming (device_class unit : option pystr) :
  _sensor_action_name device_class unit = Spec.action_name device_class unit /\
  (Spec.nonempty unit ≫= Spec.normalize_unit = None ->
     _sensor_action_name device_class unit = None) /\
  _sensor_action_name (Some (py "temperature")) (Some (py "°C"))
    = Some (py "getTemperatureInDegc") /\
  _sensor_action_name None (Some (py "%")) = Some (py "getInPercent") /\
  _sensor_action_name (Some (py "temperature")) (Some (py "---")) = None.
Proof.
  split; [apply sensor_action_name_spec|]. split; [|apply action_name_examples].
  intros Hn. rewrite sensor_action_name_spec. unfold Spec.action_name. by rewrite Hn.
Qed.

End AdapterClaims.

Section AccumulatorClaim.
Context `{PyRuntime}.
Import AdjustLux LuxRules Examples.



End AccumulatorClaim.

(** ** Counterexamples and instances *)

Section Instances.
Import Examples.
#[local] Existing Instance ascii_runtime.

(** C4: in the domain cover the value "on" is one of the values that mean
    on, yet no operation is mapped and the scoring decides: with an empty
    catalogue nothing is selected. *)
Lemma shortcut_rule_fails_for_cover :
  ~ Claimed.shortcut_rule (PStr (py "on")) (py "cover") [].
Proof.
  unfold Claimed.shortcut_rule. intros Hc.
  assert (py "cover" ∈ Claimed.on_off_domains) as Hd by (apply mem_true; by vm_compute).
  destruct (Hc Hd) as [Hon _].
  assert (SetProperty.desired_of (PStr (py "on")) ∈ SetProperty.on_values) as Hv
    by (apply mem_true; by vm_compute).
  specialize (Hon Hv). vm_compute in Hon. discriminate.
Qed.

(** C5: for the property "state" and a service without a "value" field the
    payload carries no value at all, and for the property "brightness" the
    value goes under "brightness" although the service declares "value". *)
Lemma payload_rule_fails :
  ~ Claimed.payload_rule (py "light.desk") (py "state") (PStr (py "on")) (py "light")
      (SetProperty.shortcut_choice (py "light") (py "turn_on")) /\
  ~ Claimed.payload_rule (py "light.desk") (py "brightness") (PInt 120) (py "light")
      set_value_choice.
Proof.
  unfold Claimed.payload_rule. split; intros Hc.
  - apply (f_equal (fun m : gmap pystr pyvalue => m !! py "state")) in Hc.
    vm_compute in Hc. discriminate.
  - apply (f_equal (fun m : gmap pystr pyvalue => m !! py "value")) in Hc.
    vm_compute in Hc. discriminate.
Qed.

(** C2: after a reconnection the task is SUBSCRIBED with the index it built
    at its start: the lamp is still filed under the kitchen although the
    registries now place it in the hall. *)
Lemma index_not_rebuilt_on_reconnect :
  ~ Claimed.rebuilt_on_subscribe monitor_cfg registry0 reconnect_trace.
Proof.
  unfold Claimed.rebuilt_on_subscribe. intros Hc.
  specialize (Hc _ 4%nat Adapter.Connected eq_refl eq_refl).
  cbv zeta in Hc.
  assert (Adapter.ent_to_area
            (Adapter.task_index
               (Adapter.step monitor_cfg
                  (Adapter.run monitor_cfg
                     {| Adapter.hub := registry0; Adapter.task_phase := Adapter.CONNECTING;
                        Adapter.task_index := Adapter.build registry0;
                        Adapter.posted := [] |}
                     (take 4 reconnect_trace)) Adapter.Connected))
          !! py "light.lamp" = Some (py "kitchen")) as Hk by by vm_compute.
  rewrite Hc in Hk; [| by vm_compute | by vm_compute].
  vm_compute in Hk. discriminate.
Qed.

End Instances.

Section Witnesses.
Import Examples Adapter.
#[local] Existing Instance ascii_runtime.

(** C6 on the example registries: the lamp's light has no area of its own
    and is filed under the kitchen of its device; the probe's sensor has no
    area and neither has its device, and it is not in the map. *)
Lemma registry_index_areas_witness :
  NoDup (entity_id <$> reg_entities registry0) /\
  ent_to_area (build registry0) !! py "light.lamp" = Some (py "kitchen") /\
  ent_to_area (build registry0) !! py "sensor.probe" = None.
Proof.
  assert (NoDup (entity_id <$> reg_entities registry0)) as Hnd.
  { refine (bool_decide_unpack _ _); vm_compute; exact I. }
  split; [exact Hnd|].
  destruct (registry_index_areas (reg_devices registry0) (reg_entities registry0) Hnd)
    as (Ha & _).
  split.
  - apply (Ha lamp_light). left.
  - apply (Ha probe_sensor). right. left.
Defined.

(** C2 on the example trace: the task starts, and after the reconnection its
    index is the one of the registries at the start. *)
Lemma forwarder_index_built_once_witness :
  start monitor_cfg registry0
  = Some {| hub := registry0; task_phase := CONNECTING;
            task_index := build registry0; posted := [] |} /\
  task_index
    (run monitor_cfg
       {| hub := registry0; task_phase := CONNECTING;
          task_index := build registry0; posted := [] |}
       reconnect_trace)
  = build registry0.
Proof.
  split; [reflexivity|].
  apply (forwarder_index_built_once monitor_cfg registry0 _ reconnect_trace).
  reflexivity.
Defined.

End Witnesses.

(** ** Extras: the sensor service search and the quiet cases of the accumulator *)

Section PickFacts.
Import AdjustLux LuxPick.

Lemma lux_has_field (k : pystr) (meta : service_meta) :
  has_field k (default ∅ (meta_fields meta)) = true <-> declares meta k.
Proof.
  unfold has_field, declares. rewrite bool_decide_eq_true.
  destruct (meta_fields meta) as [fs|]; simpl.
  - split.
    + intros [v Hv]. eauto.
    + intros (fs' & v & [= <-] & Hv). eauto.
  - rewrite lookup_empty. split.
    + intros [v Hv]. done.
    + intros (fs' & v & Hfs & _). done.
Qed.

Lemma rated_b_spec (entry : pystr * (pystr * service_meta)) (s : Z) :
  rated_b entry = Some s <-> rated entry s.
Proof.
  destruct entry as [dom [nm meta]]. unfold rated_b, rated, applies. cbn [fst snd].
  assert (existsb (fun t => mem (py "sensor") (default [] t))
            (default [] (meta_target_entity meta)) = true
          <-> exists ts ds, meta_target_entity meta = Some ts /\ Some ds ∈ ts /\
                            py "sensor" ∈ ds) as Hm.
  { rewrite existsb_exists. setoid_rewrite mem_true. setoid_rewrite <- list_elem_of_In.
    destruct (meta_target_entity meta) as [ts|]; simpl.
    - split.
      + intros ([ds|] & Ht & Hd); simpl in Hd.
        * exists ts, ds. done.
        * by apply elem_of_nil in Hd.
      + intros (ts' & ds & [= <-] & Ht & Hd). exists (Some ds). done.
    - split.
      + intros (t & Ht & _). by apply elem_of_nil in Ht.
      + intros (ts' & ds & Hts & _). done. }
  destruct (has_field (py "entity_id") (default ∅ (meta_fields meta))
            || existsb _ _) eqn:Ha.
  - apply orb_true_iff in Ha. rewrite lux_has_field, Hm in Ha.
    destruct (0 <? rating dom nm meta)%Z eqn:Hs.
    + apply Z.ltb_lt in Hs. split.
      * intros [= <-]. done.
      * intros (_ & -> & _). done.
    + apply Z.ltb_ge in Hs. split; [done|]. intros (_ & -> & ?). lia.
  - split; [done|]. intros (Happ & _). apply orb_false_iff in Ha as [Ha1 Ha2].
    destruct Happ as [Hl|Hmod].
    + apply lux_has_field in Hl. congruence.
    + apply Hm in Hmod. congruence.
Qed.

Lemma pick_step_rated (dom : pystr) best (entry : pystr * service_meta) :
  pick_step dom best entry
  = match rated_b (dom, entry) with
    | Some sc =>
      if match best with
         | None => true
         | Some (_, _, _, b) => (b <? sc)%Z
         end
      then Some (dom, fst entry, default ∅ (meta_fields (snd entry)), sc)
      else best
    | None => best
    end.
Proof.
  destruct entry as [nm meta]. unfold pick_step, rated_b, rating. cbn [fst snd].
  destruct (has_field (py "entity_id") _ || existsb _ _); simpl; [|done].
  by destruct (0 <? _)%Z.
Qed.

Lemma search_entries (services : list domain_services) :
  foldl (fun best svc =>
           foldl (pick_step (svc_domain svc)) best (default [] (svc_services svc)))
        None services
  = search (entries services).
Proof.
  unfold search, entries. generalize (@None (pystr * pystr * gmap pystr pyvalue * Z)).
  induction services as [|svc services IH]; intros best; [done|].
  cbn [foldl flat_map]. rewrite foldl_app, <- IH. f_equal.
  generalize best. induction (default [] (svc_services svc)) as [|e l IHl]; intros b; [done|].
  cbn [map foldl]. apply IHl.
Qed.

Lemma search_best_of (l : list (pystr * (pystr * service_meta))) :
  best_of l (search l).
Proof.
  unfold search. induction l as [|e l IH] using rev_ind.
  - intros e He. by apply elem_of_nil in He.
  - rewrite foldl_app. cbn [foldl]. destruct e as [dom entry]. cbn [fst snd].
    rewrite pick_step_rated.
    destruct (foldl _ None l) as [[[[bd bn] bf] bs]|] eqn:Hb.
    + destruct IH as (i & meta & Hi & Hf & Hr & Hmax & Hbefore).
      assert (i < length l)%nat as Hlen by (by apply lookup_lt_Some in Hi).
      destruct (rated_b (dom, entry)) as [sc|] eqn:Hsc.
      * destruct (bs <? sc)%Z eqn:Hlt.
        -- apply Z.ltb_lt in Hlt. destruct entry as [nm m]. cbn [fst snd].
           exists (length l), m. split; [by rewrite lookup_app_r, Nat.sub_diag by lia|].
           split; [done|]. split; [done|]. split.
           ++ intros j e s Hj Hs. destruct (decide (j < length l)%nat) as [Hjl|Hjl].
              ** rewrite lookup_app_l in Hj by done. specialize (Hmax j e s Hj Hs). lia.
              ** rewrite lookup_app_r in Hj by lia.
                 destruct (j - length l)%nat; [|done]. injection Hj as <-.
                 rewrite Hsc in Hs. injection Hs as <-. lia.
           ++ intros j e s Hjl Hj Hs. rewrite lookup_app_l in Hj by done.
              specialize (Hmax j e s Hj Hs). lia.
        -- apply Z.ltb_ge in Hlt. exists i, meta.
           split; [by rewrite lookup_app_l by done|]. split; [done|]. split; [done|]. split.
           ++ intros j e s Hj Hs. destruct (decide (j < length l)%nat) as [Hjl|Hjl].
              ** rewrite lookup_app_l in Hj by done. by apply (Hmax j e).
              ** rewrite lookup_app_r in Hj by lia.
                 destruct (j - length l)%nat; [|done]. injection Hj as <-.
                 rewrite Hsc in Hs. injection Hs as <-. lia.
           ++ intros j e s Hji Hj Hs. rewrite lookup_app_l in Hj by lia.
              by apply (Hbefore j e).
      * exists i, meta. split; [by rewrite lookup_app_l by done|].
        split; [done|]. split; [done|]. split.
        -- intros j e s Hj Hs. destruct (decide (j < length l)%nat) as [Hjl|Hjl].
           ++ rewrite lookup_app_l in Hj by done. by apply (Hmax j e).
           ++ rewrite lookup_app_r in Hj by lia.
              destruct (j - length l)%nat; [|done]. injection Hj as <-. congruence.
        -- intros j e s Hji Hj Hs. rewrite lookup_app_l in Hj by lia.
           by apply (Hbefore j e).
    + cbn in IH. destruct (rated_b (dom, entry)) as [sc|] eqn:Hsc.
      * destruct entry as [nm m]. cbn [fst snd].
        exists (length l), m. split; [by rewrite lookup_app_r, Nat.sub_diag by lia|].
        split; [done|]. split; [done|]. split.
        -- intros j e s Hj Hs. destruct (decide (j < length l)%nat) as [Hjl|Hjl].
           ++ rewrite lookup_app_l in Hj by done.
              rewrite (IH e) in Hs; [done|]. apply list_elem_of_lookup. eauto.
           ++ rewrite lookup_app_r in Hj by lia.
              destruct (j - length l)%nat; [|done]. injection Hj as <-.
              rewrite Hsc in Hs. injection Hs as <-. lia.
        -- intros j e s Hjl Hj Hs. rewrite lookup_app_l in Hj by done.
           rewrite (IH e) in Hs; [done|]. apply list_elem_of_lookup. eauto.
      * intros e He. apply elem_of_app in He as [He|He]; [by apply IH|].
        by apply list_elem_of_singleton in He as ->.
Qed.


Lemma rating_virtual (nm : pystr) (meta : service_meta) :
  (5 <= rating (py "virtual") nm meta)%Z.
Proof.
  unfold rating. replace (eqb (py "virtual") (py "virtual")) with true by done.
  case_match; lia.
Qed.

Lemma rating_not_virtual (dom nm : pystr) (meta : service_meta) :
  eqb dom (py "virtual") = false -> (rating dom nm meta <= 3)%Z.
Proof. intros Hd. unfold rating. rewrite Hd. case_match; lia. Qed.

(** X1. [_pick_set_service] returns the first of the best-rated services that
    can be called on a sensor: nothing when no applicable service has a
    positive rating; otherwise an applicable entry whose rating no entry
    exceeds and no earlier entry reaches. When an applicable service of the
    virtual domain exists, the service picked is of the virtual domain. *)
Theorem pick_set_service_first_best (services : list domain_services) :
  (_pick_set_service services = None <->
   forall e s, e ∈ entries services -> ~ rated e s) /\
  (forall dom nm fs, _pick_set_service services = Some (dom, nm, fs) ->
     exists i meta sc,
       entries services !! i = Some (dom, (nm, meta)) /\
       fs = default ∅ (meta_fields meta) /\
       rated (dom, (nm, meta)) sc /\
       (forall j e s, entries services !! j = Some e -> rated e s -> (s <= sc)%Z) /\
       (forall j e s, (j < i)%nat -> entries services !! j = Some e -> rated e s ->
          (s < sc)%Z)) /\
  (forall nm meta, (py "virtual", (nm, meta)) ∈ entries services -> applies meta ->
     exists nm' fs, _pick_set_service services = Some (py "virtual", nm', fs)).
Proof.
  unfold _pick_set_service. rewrite search_entries.
  pose proof (search_best_of (entries services)) as Hb.
  destruct (search (entries services)) as [[[[dom nm] fs] sc]|] eqn:Hs; unfold best_of in Hb.
  - destruct Hb as (i & meta & Hi & Hf & Hr & Hmax & Hbefore).
    split; [|split].
    + split; [done|]. intros Hnone. exfalso.
      apply (Hnone (dom, (nm, meta)) sc).
      * apply list_elem_of_lookup. eauto.
      * by apply rated_b_spec.
    + intros dom' nm' fs' [= <- <- <-]. exists i, meta, sc.
      split; [done|]. split; [done|]. split; [by apply rated_b_spec|]. split.
      * intros j e s Hj He. apply rated_b_spec in He. by apply (Hmax j e).
      * intros j e s Hji Hj He. apply rated_b_spec in He. by apply (Hbefore j e).
    + intros nm' meta' Hin Happ.
      assert (exists s, rated_b (py "virtual", (nm', meta')) = Some s /\ (5 <= s)%Z)
        as (s & Hrs & Hs5).
      { pose proof (rating_virtual nm' meta') as H5.
        exists (rating (py "virtual") nm' meta'). split; [|done].
        apply rated_b_spec. split; [done|]. split; [done|]. lia. }
      apply list_elem_of_lookup in Hin as [j Hj].
      pose proof (Hmax j _ s Hj Hrs) as Hle.
      apply rated_b_spec in Hr as (_ & Hsc & _). cbn [fst snd] in Hsc.
      destruct (eqb dom (py "virtual")) eqn:Hd.
      * apply eqb_true in Hd as ->. eauto.
      * exfalso. pose proof (rating_not_virtual dom nm meta Hd). lia.
  - split; [|split].
    + split; [|done]. intros _ e s He Hr. apply rated_b_spec in Hr.
      rewrite (Hb e He) in Hr. done.
    + intros dom nm fs [=].
    + intros nm meta Hin Happ. exfalso.
      assert (rated_b (py "virtual", (nm, meta)) = Some (rating (py "virtual") nm meta)) as Hr.
      { pose proof (rating_virtual nm meta) as H5.
        apply rated_b_spec. split; [done|]. split; [done|]. lia. }
      rewrite (Hb _ Hin) in Hr. done.
Qed.

End PickFacts.

Section DeltaFacts.
Context `{PyRuntime}.
Import AdjustLux LuxRules LuxPick Examples.

Lemma delta_cases (cfg : config) (msg : ws_message) :
  readable msg ->
  (exists t, triggers msg t /\ delta cfg msg = Some (delta_of cfg t, label t)) \/
  ((forall t, ~ triggers msg t) /\ delta cfg msg = Some (0%Z, [])).
Proof.
  intros Hr. rewrite (delta_readable cfg msg Hr).
  unfold triggers, moving.
  set (dom := ev_domain msg).
  set (st := ev_state msg).
  assert (py "light" <> py "cover") as Hlc by done.
  assert (py "on" <> py "off") as Hoo by done.
  destruct (eqb dom (py "light")) eqn:Hl.
  - apply eqb_true in Hl. cbn [andb].
    destruct (eqb st (py "on")) eqn:Hon.
    { apply eqb_true in Hon. left. exists LightOn. done. }
    destruct (eqb st (py "off")) eqn:Hoff.
    { apply eqb_true in Hoff. left. exists LightOff. done. }
    apply eqb_false in Hon, Hoff.
    assert (eqb dom (py "cover") = false) as -> by (apply eqb_false; congruence).
    right. split; [|done]. intros [] [Hd Hs]; congruence.
  - cbn [andb]. apply eqb_false in Hl.
    destruct (eqb dom (py "cover")) eqn:Hc.
    2:{ apply eqb_false in Hc. right. split; [|done]. intros [] [Hd Hs]; congruence. }
    apply eqb_true in Hc.
    destruct (mem st [py "opening"; py "open"]) eqn:Hup.
    { apply mem_true in Hup. left. exists CoverUp. split; [|done]. split; [done|by left]. }
    destruct (mem st [py "closing"; py "closed"]) eqn:Hdown.
    { apply mem_true in Hdown. left. exists CoverDown. split; [|done]. split; [done|by left]. }
    apply mem_false in Hup, Hdown.
    assert (st ∉ [py "opening"; py "open"; py "closing"; py "closed"]) as Hmov.
    { intros Hin. rewrite !elem_of_cons, elem_of_nil in Hin.
      destruct Hin as [?|[?|[?|[?|[]]]]].
      - apply Hup. rewrite !elem_of_cons. tauto.
      - apply Hup. rewrite !elem_of_cons. tauto.
      - apply Hdown. rewrite !elem_of_cons. tauto.
      - apply Hdown. rewrite !elem_of_cons. tauto. }
    assert (forall o n, positions msg o n ->
              position (ev_new msg) = Some n /\ position (ev_old msg) = Some o) as Hread
      by (intros o n; apply positions_read).
    destruct (position (ev_new msg)) as [n|] eqn:Hn.
    2:{ right. split; [|done]. intros [] [Hd Hs]; try congruence.
        - destruct Hs as [?|(_ & o & n & Hp & _)]; [done|].
          by destruct (Hread o n Hp) as [[=] _].
        - destruct Hs as [?|(_ & o & n & Hp & _)]; [done|].
          by destruct (Hread o n Hp) as [[=] _]. }
    destruct (ev_old msg) as [old|] eqn:Hold.
    2:{ right. split; [|done]. intros [] [Hd Hs]; try congruence.
        - destruct Hs as [?|(_ & o & n' & (old & new & Ho & _) & _)]; [done|congruence].
        - destruct Hs as [?|(_ & o & n' & (old & new & Ho & _) & _)]; [done|congruence]. }
    destruct (position (Some old)) as [o|] eqn:Ho.
    2:{ right. split; [|done]. intros [] [Hd Hs]; try congruence.
        - destruct Hs as [?|(_ & o & n' & Hp & _)]; [done|].
          by destruct (Hread o n' Hp) as [_ [=]].
        - destruct Hs as [?|(_ & o & n' & Hp & _)]; [done|].
          by destruct (Hread o n' Hp) as [_ [=]]. }
    assert (positions msg o n) as Hpos.
    { apply positions_read. split; [exact Hn|]. rewrite Hold. exact Ho. }
    destruct (o <? n)%Z eqn:Hlt.
    { apply Z.ltb_lt in Hlt. left. exists CoverUp. split; [|done]. split; [done|].
      right. split; [done|]. exists o, n. done. }
    destruct (n <? o)%Z eqn:Hgt.
    { apply Z.ltb_lt in Hgt. left. exists CoverDown. split; [|done]. split; [done|].
      right. split; [done|]. exists o, n. done. }
    apply Z.ltb_ge in Hlt, Hgt.
    right. split; [|done]. intros [] [Hd Hs]; try congruence.
    + destruct Hs as [?|(_ & o' & n' & Hp & ?)]; [done|].
      destruct (positions_functional msg o n o' n' Hpos Hp) as [-> ->]. lia.
    + destruct Hs as [?|(_ & o' & n' & Hp & ?)]; [done|].
      destruct (positions_functional msg o n o' n' Hpos Hp) as [-> ->]. lia.
Qed.

(** What [float] makes of an integer carries the integer's sign. *)
Lemma shr_1_nonneg (mrs : shr_record) : (0 <= shr_m mrs)%Z -> (0 <= shr_m (shr_1 mrs))%Z.
Proof. destruct mrs as [[|[p|p|]|p] r s]; cbn; lia. Qed.

Lemma iter_shr_1_nonneg (p : positive) (mrs : shr_record) :
  (0 <= shr_m mrs)%Z -> (0 <= shr_m (SpecFloat.iter_pos shr_1 p mrs))%Z.
Proof.
  revert mrs. induction p as [p IH|p IH|]; intros mrs Hm; cbn [SpecFloat.iter_pos].
  - apply IH, IH. by apply shr_1_nonneg.
  - by apply IH, IH.
  - by apply shr_1_nonneg.
Qed.

Lemma shr_nonneg (mrs : shr_record) (e n : Z) :
  (0 <= shr_m mrs)%Z -> (0 <= shr_m (fst (shr mrs e n)))%Z.
Proof. intros Hm. destruct n; cbn; [done| |done]. by apply iter_shr_1_nonneg. Qed.

Lemma shr_fexp_nonneg (m e : Z) (l : location) :
  (0 <= m)%Z -> (0 <= shr_m (fst (shr_fexp F64.prec F64.emax m e l)))%Z.
Proof. intros Hm. unfold shr_fexp. apply shr_nonneg. destruct l as [|[]]; cbn; lia. Qed.

Lemma round_nearest_even_nonneg (m : Z) (l : location) :
  (0 <= m)%Z -> (0 <= round_nearest_even m l)%Z.
Proof. intros Hm. destruct l as [|[]]; cbn; try case_match; lia. Qed.

Lemma binary_round_aux_sign (s : bool) (m e : Z) (l : location) :
  (0 <= m)%Z -> signed_like s (binary_round_aux F64.prec F64.emax s m e l).
Proof.
  intros Hm. unfold binary_round_aux.
  pose proof (shr_fexp_nonneg m e l Hm) as H1.
  destruct (shr_fexp F64.prec F64.emax m e l) as [mrs' e'] eqn:E1. cbn [fst] in H1.
  pose proof (shr_fexp_nonneg _ e' loc_Exact
                (round_nearest_even_nonneg _ (loc_of_shr_record mrs') H1)) as H2.
  destruct (shr_fexp F64.prec F64.emax (round_nearest_even _ _) e' loc_Exact)
    as [mrs'' e''] eqn:E2. cbn [fst] in H2.
  destruct (shr_m mrs'') as [|p|p]; [done| |lia].
  by destruct (e'' <=? F64.emax - F64.prec)%Z.
Qed.

Lemma of_Z_sign (z : Z) :
  z <> 0%Z -> signed_like (z <? 0)%Z (F64.of_Z z).
Proof.
  intros Hz. unfold F64.of_Z, binary_normalize. destruct z as [|p|p]; [done| |];
    unfold binary_round; destruct (shl_align _ _ _) as [mz ez];
    by apply binary_round_aux_sign.
Qed.

Lemma max0_add_zero (f : float64) : max0 (F64.add F64.zero f) = max0 f.
Proof. destruct f as [[]|[]| |[] m e]; done. Qed.

Lemma max0_signed (s : bool) (f : float64) :
  signed_like s f -> max0 f = if s then F64.zero else f.
Proof. destruct f as [[]|[]| |[] m e]; cbn; intros Hs; subst; done. Qed.

Lemma adjust_unreadable (cfg : config) (msg : ws_message) (raw : pyvalue) (z : Z)
    (d : float64) :
  msg_type msg = Some (py "event") ->
  fst <$> delta cfg msg = Some z -> z <> 0%Z ->
  Py.float_of_Z z = Some d ->
  Py.float_ raw = None ->
  adjust cfg msg (Some raw) = Written (if (z <? 0)%Z then F64.zero else d).
Proof.
  intros Ht Hz Hd Hf Hraw. rewrite (adjust_writes cfg msg raw z d Ht Hz Hd Hf).
  rewrite Hraw. cbn [default from_option id]. rewrite max0_add_zero. f_equal.
  apply max0_signed.
  unfold Py.float_of_Z in Hf. pose proof (of_Z_sign _ Hd) as Hs.
  destruct (F64.of_Z z); try discriminate; by injection Hf as <-.
Qed.

Lemma adjust_no_event (cfg : config) (msg : ws_message) (fetched : option pyvalue) :
  msg_type msg <> Some (py "event") -> adjust cfg msg fetched = Continued.
Proof. intros Ht. unfold adjust. by rewrite (bool_decide_eq_false_2 _ Ht). Qed.

Lemma adjust_no_trigger (cfg : config) (msg : ws_message) (fetched : option pyvalue) :
  readable msg -> (forall t, ~ triggers msg t) -> adjust cfg msg fetched = Continued.
Proof.
  intros Hr Hn. unfold adjust. fold (delta cfg msg).
  destruct (bool_decide (msg_type msg = Some (py "event"))); [|done]. cbn [negb].
  destruct (delta_cases cfg msg Hr) as [(t & Htr & _)|[_ ->]]; [by destruct (Hn t)|done].
Qed.

Lemma adjust_not_triggered (cfg : config) (msg : ws_message) (fetched : option pyvalue)
    (v : float64) :
  (msg_type msg <> Some (py "event") \/ forall t, ~ triggers msg t) ->
  adjust cfg msg fetched <> Written v.
Proof.
  intros [Ht|Hn].
  - by rewrite adjust_no_event.
  - destruct (delta cfg msg) as [r|] eqn:Hd.
    + rewrite adjust_no_trigger; [done| |done]. by apply (delta_some_readable cfg msg r).
    + intros (raw & z & d & _ & Hz & _)%adjust_written. by rewrite Hd in Hz.
Qed.

Lemma other_domain_no_trigger (msg : ws_message) :
  ev_domain msg ∉ [py "light"; py "cover"] -> forall t, ~ triggers msg t.
Proof.
  intros Hd [] [Hdom _]; apply Hd; rewrite Hdom, !elem_of_cons; tauto.
Qed.

Lemma run_quiet (cfg : config) (sensor : pyvalue) (msgs : list ws_message) :
  Forall (fun msg => msg_type msg <> Some (py "event") \/ forall t, ~ triggers msg t) msgs ->
  run cfg sensor msgs = (sensor, []).
Proof.
  induction msgs as [|msg msgs IH]; [done|].
  intros Hall. apply Forall_cons in Hall as [Hmsg Hall]. cbn [run].
  destruct (adjust cfg msg (Some sensor)) as [|v|] eqn:E; [by apply IH| |done].
  by destruct (adjust_not_triggered cfg msg (Some sensor) v Hmsg).
Qed.

Lemma delta_examples (cfg : config) :
  delta cfg (position_event (py "cover.blind") (py "stopped") (PInt 20) (PInt 60))
    = Some (inc_blinds cfg, py "cover") /\
  delta cfg (position_event (py "cover.blind") (py "stopped") (PInt 60) (PInt 20))
    = Some ((- dec_blinds cfg)%Z, py "cover") /\
  delta cfg (position_event (py "cover.blind") (py "stopped") (PInt 20) (PInt 20))
    = Some (0%Z, []) /\
  delta cfg (position_event (py "cover.blind") (py "stopped") PNone (PInt 60))
    = Some (0%Z, []) /\
  delta cfg (position_event (py "cover.blind") (py "open") (PInt 60) (PInt 20))
    = Some (inc_blinds cfg, py "cover") /\
  delta cfg (position_event (py "light.desk") (py "dimmed") (PInt 20) (PInt 60))
    = Some (0%Z, []) /\
  delta cfg (nameless_event (py "on")) = None.
Proof.
  assert (forall entity state old_pos new_pos,
            forallb is_ascii state = true ->
            readable (position_event entity state old_pos new_pos) /\
            ev_state (position_event entity state old_pos new_pos) = map ascii_lower state)
    as Hev.
  { intros entity state old_pos new_pos Hs. split; [by eexists|].
    unfold ev_state. cbn. by apply lower_ascii. }
  repeat split.
  - destruct (Hev (py "cover.blind") (py "stopped") (PInt 20) (PInt 60)) as [Hr Hs]; [done|].
    rewrite (delta_readable cfg _ Hr), Hs. reflexivity.
  - destruct (Hev (py "cover.blind") (py "stopped") (PInt 60) (PInt 20)) as [Hr Hs]; [done|].
    rewrite (delta_readable cfg _ Hr), Hs. reflexivity.
  - destruct (Hev (py "cover.blind") (py "stopped") (PInt 20) (PInt 20)) as [Hr Hs]; [done|].
    rewrite (delta_readable cfg _ Hr), Hs. reflexivity.
  - destruct (Hev (py "cover.blind") (py "stopped") PNone (PInt 60)) as [Hr Hs]; [done|].
    rewrite (delta_readable cfg _ Hr), Hs. reflexivity.
  - destruct (Hev (py "cover.blind") (py "open") (PInt 60) (PInt 20)) as [Hr Hs]; [done|].
    rewrite (delta_readable cfg _ Hr), Hs. reflexivity.
  - destruct (Hev (py "light.desk") (py "dimmed") (PInt 20) (PInt 60)) as [Hr Hs]; [done|].
    rewrite (delta_readable cfg _ Hr), Hs. reflexivity.
Qed.

(** X2. [_delta_from_event] raises exactly for an event whose data or
    entity id is null. For every other event it gives a delta other than
    (0, "") only for the four triggers, and then the trigger's signed
    magnitude with its label: a light going on or off, a cover opening/open
    or closing/closed, or a cover in another state whose previous and new
    state both hold a position that reads as an integer, and the position
    rose or fell. A cover in state "stopped" going from 20 to 60 gives the
    blinds increment and from 60 to 20 minus the decrement; an unchanged or
    unreadable position gives nothing; the state "open" wins over a falling
    position; the position of a light counts for nothing. *)
Theorem delta_only_from_triggers (cfg : config) (msg : ws_message) :
  (delta cfg msg = None <-> ~ readable msg) /\
  (readable msg ->
   (exists t, triggers msg t /\ delta cfg msg = Some (delta_of cfg t, label t)) \/
   ((forall t, ~ triggers msg t) /\ delta cfg msg = Some (0%Z, []))) /\
  (forall z src, delta cfg msg = Some (z, src) -> z <> 0%Z ->
     exists t, triggers msg t /\ z = delta_of cfg t /\ src = label t) /\
  (readable msg -> ev_domain msg ∉ [py "light"; py "cover"] ->
     delta cfg msg = Some (0%Z, [])) /\
  (delta cfg (position_event (py "cover.blind") (py "stopped") (PInt 20) (PInt 60))
     = Some (inc_blinds cfg, py "cover") /\
   delta cfg (position_event (py "cover.blind") (py "stopped") (PInt 60) (PInt 20))
     = Some ((- dec_blinds cfg)%Z, py "cover") /\
   delta cfg (position_event (py "cover.blind") (py "stopped") (PInt 20) (PInt 20))
     = Some (0%Z, []) /\
   delta cfg (position_event (py "cover.blind") (py "stopped") PNone (PInt 60))
     = Some (0%Z, []) /\
   delta cfg (position_event (py "cover.blind") (py "open") (PInt 60) (PInt 20))
     = Some (inc_blinds cfg, py "cover") /\
   delta cfg (position_event (py "light.desk") (py "dimmed") (PInt 20) (PInt 60))
     = Some (0%Z, []) /\
   delta cfg (nameless_event (py "on")) = None).
Proof.
  split; [apply delta_unreadable|]. split; [apply delta_cases|].
  split; [|split; [|apply delta_examples]].
  - intros z src Hd Hne.
    destruct (delta_cases cfg msg (delta_some_readable cfg msg _ Hd))
      as [(t & Ht & Hd')|[_ Hd']]; rewrite Hd' in Hd.
    + injection Hd as <- <-. by exists t.
    + by injection Hd as <- <-.
  - intros Hr Hdom. destruct (delta_cases cfg msg Hr) as [(t & Ht & _)|[_ Hd]]; [|done].
    by destruct (other_domain_no_trigger msg Hdom t).
Qed.

(** X3. A message that is not of type "event", or that belongs to no
    trigger (any entity that is neither a light nor a cover, the target
    sensor included), makes the loop fetch and write nothing: the turn ends
    with [continue], or, for an event whose data or entity id is null, with
    the exception that ends the loop; a run over such messages only leaves
    the sensor as it was. *)
Theorem quiet_messages_write_nothing (cfg : config) (sensor : pyvalue)
    (msgs : list ws_message) :
  (forall msg fetched,
     msg_type msg <> Some (py "event") \/ (forall t, ~ triggers msg t) ->
     (forall v, adjust cfg msg fetched <> Written v) /\
     (msg_type msg <> Some (py "event") \/ readable msg ->
        adjust cfg msg fetched = Continued) /\
     (msg_type msg = Some (py "event") -> ~ readable msg ->
        adjust cfg msg fetched = Crashed)) /\
  (forall msg fetched v,
     ev_domain msg ∉ [py "light"; py "cover"] -> adjust cfg msg fetched <> Written v) /\
  (Forall (fun msg => msg_type msg <> Some (py "event") \/ forall t, ~ triggers msg t) msgs ->
     run cfg sensor msgs = (sensor, [])).
Proof.
  split; [|split].
  - intros msg fetched Hq. split; [|split].
    + intros v. by apply adjust_not_triggered.
    + intros [Ht|Hr]; [by apply adjust_no_event|].
      destruct Hq as [Ht|Hn]; [by apply adjust_no_event|by apply adjust_no_trigger].
    + intros Ht Hr. by apply adjust_crashed.
  - intros msg fetched v Hd. apply adjust_not_triggered. right.
    by apply other_domain_no_trigger.
  - apply run_quiet.
Qed.

(** X4. When the state fetched for the sensor cannot be read as a number
    (for instance "unavailable"), the loop counts from zero: a negative
    delta writes 0.0 and a positive one writes the delta itself. *)
Theorem unreadable_sensor_counts_from_zero (cfg : config) (msg : ws_message)
    (raw : pyvalue) (z : Z) (d : float64) :
  msg_type msg = Some (py "event") ->
  fst <$> delta cfg msg = Some z -> z <> 0%Z ->
  Py.float_of_Z z = Some d ->
  Py.float_ raw = None ->
  adjust cfg msg (Some raw) = Written (if (z <? 0)%Z then F64.zero else d).
Proof. apply adjust_unreadable. Qed.

End DeltaFacts.

Section LuxWitnesses.
Import AdjustLux LuxRules Examples.
#[local] Existing Instance ascii_runtime.

(** X4 on an example: the sensor is "unavailable" and a light turns on with
    an increment of 100; 100.0 is written. *)
Lemma unreadable_sensor_witness :
  adjust cfg100 (state_event (py "light.desk") (py "on")) (Some (PStr (py "unavailable")))
  = Written (F64.of_Z 100).
Proof.
  rewrite (unreadable_sensor_counts_from_zero cfg100
             (state_event (py "light.desk") (py "on")) (PStr (py "unavailable"))
             100 (F64.of_Z 100)).
  - vm_compute. reflexivity.
  - reflexivity.
  - vm_compute. reflexivity.
  - discriminate.
  - vm_compute. reflexivity.
  - vm_compute. reflexivity.
Defined.

End LuxWitnesses.

(** ** Suffixes and replacement *)

Section TextFacts.
Import PyText.

Lemma lstrip_by_head (p : N -> bool) (s : pystr) (c : N) :
  head (lstrip_by p s) = Some c -> p c = false.
Proof.
  induction s as [|d s IH]; cbn [lstrip_by]; [done|].
  destruct (p d) eqn:Hd; [done|]. by intros [= <-].
Qed.

Lemma last_rev {A} (l : list A) : last (rev l) = head l.
Proof. destruct l as [|a l]; [done|]. cbn [rev]. by rewrite last_snoc. Qed.

Lemma rstrip_by_last (p : N -> bool) (s : pystr) (c : N) :
  last (rstrip_by p s) = Some c -> p c = false.
Proof. unfold rstrip_by. rewrite last_rev. apply lstrip_by_head. Qed.

Lemma endswith_spec (s suffix : pystr) :
  endswith s suffix = true <-> exists p, s = p ++ suffix.
Proof.
  unfold endswith. rewrite startswith_spec. split.
  - intros [q Hq]. exists (rev q). apply (f_equal (@rev N)) in Hq.
    by rewrite rev_involutive, rev_app_distr, rev_involutive in Hq.
  - intros [p ->]. exists (rev p). apply rev_app_distr.
Qed.

Lemma endswith_last (s : pystr) (c : N) :
  endswith s [c] = true <-> last s = Some c.
Proof.
  rewrite endswith_spec. split.
  - intros [p ->]. apply last_snoc.
  - intros Hl. destruct s as [|a s _] using rev_ind; [done|].
    rewrite last_snoc in Hl. injection Hl as ->. eauto.
Qed.

Lemma drop_last_app (p suffix : pystr) :
  drop_last (length suffix) (p ++ suffix) = p.
Proof.
  unfold drop_last. rewrite length_app, Nat.add_sub. by rewrite take_app_length.
Qed.

Lemma contains_false_startswith (old s : pystr) :
  contains old s = false -> startswith s old = false.
Proof. destruct s; cbn [contains]; intros Hc; by apply orb_false_iff in Hc as [? _]. Qed.

Lemma contains_false_tail (old : pystr) (c : N) (s : pystr) :
  contains old (c :: s) = false -> contains old s = false.
Proof. cbn [contains]. intros Hc. by apply orb_false_iff in Hc as [_ ?]. Qed.

Lemma replace_absent (old new s : pystr) :
  contains old s = false -> replace old new s = s.
Proof.
  unfold replace. induction s as [|c s IH]; intros Hc; [done|].
  cbn [replace_from]. rewrite (contains_false_startswith _ _ Hc).
  f_equal. apply IH. by apply (contains_false_tail _ c).
Qed.

Lemma replace_from_skip (old new pre s : pystr) :
  replace_from old new (length pre) (pre ++ s) = replace_from old new 0 s.
Proof. induction pre as [|c pre IH]; [done|]. cbn [length app replace_from]. apply IH. Qed.

Lemma replace_prefix (old new s : pystr) :
  old <> [] -> replace old new (old ++ s) = new ++ replace old new s.
Proof.
  intros Hold. unfold replace. destruct old as [|c old]; [done|].
  cbn [app replace_from].
  assert (startswith (c :: old ++ s) (c :: old) = true) as ->.
  { apply startswith_spec. by exists s. }
  f_equal. cbn [length]. rewrite Nat.sub_succ, Nat.sub_0_r. apply replace_from_skip.
Qed.

Lemma contains_after (new rest old : pystr) :
  contains old rest = false ->
  (forall k, (k < length new)%nat -> startswith (drop k new ++ rest) old = false) ->
  contains old (new ++ rest) = false.
Proof.
  intros Hrest. induction new as [|c new IH]; intros Hk; [done|].
  cbn [app contains]. apply orb_false_iff. split.
  - apply (Hk 0%nat). cbn. lia.
  - apply IH. intros k Hlt. apply (Hk (S k)). cbn. lia.
Qed.

End TextFacts.

(** ** The REST base URL *)

Section BaseUrlFacts.
Import PyText SetPropertyCli CliRules.

Lemma trimmed_no_slash (base : pystr) : last (trimmed base) <> Some 47%N.
Proof. intros He. unfold trimmed in He. by apply rstrip_by_last in He. Qed.

Lemma rstrip_slashes (host : pystr) (n : nat) :
  last host <> Some 47%N -> rstrip_chars (py "/") (host ++ replicate n 47%N) = host.
Proof.
  intros Hl. unfold rstrip_chars, rstrip_by. rewrite rev_app_distr.
  assert (forall l, lstrip_by (fun c => bool_decide (c ∈ py "/")) (rev (replicate n 47%N) ++ l)
                    = lstrip_by (fun c => bool_decide (c ∈ py "/")) l) as ->.
  { intros l. replace (rev (replicate n 47%N)) with (replicate n 47%N).
    - induction n as [|n IH]; [done|]. cbn [replicate app lstrip_by]. by rewrite IH.
    - induction n as [|n IH]; [done|].
      rewrite replicate_S_end at 2. rewrite rev_app_distr. cbn. by rewrite <- IH. }
  destruct host as [|c host _] using rev_ind; [done|].
  rewrite last_snoc in Hl. rewrite rev_app_distr. cbn [rev app lstrip_by].
  destruct (bool_decide (c ∈ py "/")) eqn:Hc.
  - apply bool_decide_eq_true in Hc. exfalso. apply Hl. f_equal.
    by apply list_elem_of_singleton in Hc.
  - cbn [rev]. by rewrite rev_involutive.
Qed.

(** X5. The REST base URL of both command-line tools: a websocket URL
    [ws://rest] becomes [http://rest] and [wss://rest] becomes
    [https://rest] when [rest] holds no further scheme, a URL without a
    websocket scheme keeps its text; then a final [/api/websocket] is taken
    off once and after it every trailing slash, so that the result never
    ends with a slash; the two tools derive the same URL. *)
Theorem derive_base_url_rewrites (ha_url : pystr) :
  last (_derive_base_url ha_url) <> Some 47%N /\
  _base_url ha_url = _derive_base_url ha_url /\
  (contains (py "ws://") ha_url = false -> contains (py "wss://") ha_url = false ->
     _derive_base_url ha_url = trimmed ha_url /\
     _derive_base_url (py "ws://" ++ ha_url) = trimmed (py "http://" ++ ha_url) /\
     _derive_base_url (py "wss://" ++ ha_url) = trimmed (py "https://" ++ ha_url)) /\
  (forall host n, last host <> Some 47%N ->
     trimmed (host ++ py "/api/websocket") = host /\
     trimmed (host ++ replicate (S n) 47%N) = host) /\
  _derive_base_url (py "ws://localhost:8123/api/websocket") = py "http://localhost:8123".
Proof.
  split; [apply trimmed_no_slash|]. split; [done|]. split; [|split; [|by vm_compute]].
  - intros Hws Hwss. split; [|split]; unfold _derive_base_url.
    + by rewrite (replace_absent _ _ _ Hws), (replace_absent _ _ _ Hwss).
    + rewrite replace_prefix by done. rewrite (replace_absent _ _ _ Hws).
      rewrite replace_absent; [done|].
      apply contains_after; [done|].
      intros k Hk. change (length (py "http://")) with 7%nat in Hk.
      do 7 (destruct k as [|k]; [done|]). lia.
    + rewrite (replace_absent (py "ws://")).
      2:{ apply contains_after; [done|].
          intros k Hk. change (length (py "wss://")) with 6%nat in Hk.
          do 6 (destruct k as [|k]; [done|]). lia. }
      rewrite replace_prefix by done. by rewrite (replace_absent _ _ _ Hwss).
  - intros host n Hl. split.
    + unfold trimmed.
      assert (endswith (host ++ py "/api/websocket") (py "/api/websocket") = true) as ->
        by (apply endswith_spec; eauto).
      change 14%nat with (length (py "/api/websocket")). rewrite drop_last_app.
      pose proof (rstrip_slashes host 0 Hl) as Hr. cbn [replicate] in Hr.
      by rewrite app_nil_r in Hr.
    + unfold trimmed.
      assert (endswith (host ++ replicate (S n) 47%N) (py "/api/websocket") = false) as ->.
      { apply not_true_iff_false. intros [p Hp]%endswith_spec.
        apply (f_equal last) in Hp. rewrite replicate_S_end, app_assoc, last_snoc in Hp.
        change (py "/api/websocket") with (py "/api/websocke" ++ [116%N]) in Hp.
        rewrite app_assoc, last_snoc in Hp. done. }
      by apply rstrip_slashes.
Qed.

End BaseUrlFacts.

(** ** The entity of the request *)

Section ResolveFacts.
Import PyText SetProperty SetPropertyCli.

Lemma first_preferred_spec (ds : list pystr) (l : list reg_entity) :
  match first_preferred ds l with
  | Some ent =>
    exists i e, l !! i = Some e /\ ent = default [] (re_entity_id e) /\
      domain_of ent ∈ ds /\
      forall j e', (j < i)%nat -> l !! j = Some e' ->
        domain_of (default [] (re_entity_id e')) ∉ ds
  | None => forall e, e ∈ l -> domain_of (default [] (re_entity_id e)) ∉ ds
  end.
Proof.
  induction l as [|e l IH]; cbn [first_preferred].
  - intros e He. by apply elem_of_nil in He.
  - destruct (mem (domain_of (default [] (re_entity_id e))) ds) eqn:Hm.
    + apply mem_true in Hm. exists 0%nat, e. repeat split; try done. intros j e' Hj. lia.
    + apply mem_false in Hm. destruct (first_preferred ds l) as [ent|].
      * destruct IH as (i & e0 & Hi & He0 & Hd & Hmin).
        exists (S i), e0. repeat split; try done.
        intros [|j] e' Hj Hl; cbn in Hl; [by injection Hl as <-|].
        apply (Hmin j); [lia|done].
      * intros e' [->|He']%elem_of_cons; [done|by apply IH].
Qed.

(** X6. The entity chosen by [pick_entity]: with a set of preferred domains,
    the first entity of the device, in registry order, whose id has one of
    these domains before its first dot; when no entity of the device has
    one, or no domain is preferred, the first entity of the device, whatever
    its id; an entity id without a dot has no domain and is never
    preferred. *)
Theorem pick_entity_prefers_domains (device_entities : list reg_entity)
    (preferred : option (list pystr)) :
  let ident e := default [] (re_entity_id e) in
  let wanted e := exists ds, preferred = Some ds /\ domain_of (ident e) ∈ ds in
  (forall i e, device_entities !! i = Some e -> wanted e ->
     (forall j e', (j < i)%nat -> device_entities !! j = Some e' -> ~ wanted e') ->
     pick_entity device_entities preferred = Returns (Some (ident e))) /\
  (forall first, head device_entities = Some first ->
     (forall e, e ∈ device_entities -> ~ wanted e) ->
     pick_entity device_entities preferred = Returns (re_entity_id first)) /\
  (pick_entity device_entities preferred = IndexError <-> device_entities = []) /\
  (forall e ds, preferred = Some ds -> [] ∉ ds ->
     contains [46%N] (ident e) = false -> ~ wanted e).
Proof.
  intros ident wanted.
  assert (forall ds, preferred = Some ds -> ds <> [] ->
            pick_entity device_entities preferred
            = match first_preferred ds device_entities with
              | Some ent => Returns (Some ent)
              | None => match device_entities with
                        | e :: _ => Returns (re_entity_id e)
                        | [] => IndexError
                        end
              end) as Hsome.
  { intros ds -> Hds. unfold pick_entity. by destruct ds. }
  assert ((preferred = None \/ preferred = Some []) ->
            pick_entity device_entities preferred
            = match device_entities with
              | e :: _ => Returns (re_entity_id e)
              | [] => IndexError
              end) as Hnone.
  { by intros [-> | ->]. }
  split; [|split; [|split]].
  - intros i e Hi (ds & Hp & Hd) Hmin.
    assert (ds <> []) as Hds by (intros ->; by apply elem_of_nil in Hd).
    rewrite (Hsome ds Hp Hds).
    pose proof (first_preferred_spec ds device_entities) as Hf.
    destruct (first_preferred ds device_entities) as [ent|].
    + destruct Hf as (k & e0 & Hk & -> & Hd0 & Hmin0).
      destruct (Nat.lt_trichotomy k i) as [Hlt|[->|Hgt]].
      * exfalso. apply (Hmin k e0 Hlt Hk). by exists ds.
      * rewrite Hi in Hk. by injection Hk as <-.
      * exfalso. by apply (Hmin0 i e Hgt Hi).
    + exfalso. apply (Hf e); [|done]. by apply list_elem_of_lookup_2 in Hi.
  - intros first Hh Hno.
    destruct preferred as [[|d ds]|] eqn:Hp.
    + rewrite Hnone by eauto. destruct device_entities; [done|]. by injection Hh as ->.
    + rewrite (Hsome (d :: ds)) by done.
      pose proof (first_preferred_spec (d :: ds) device_entities) as Hf.
      destruct (first_preferred (d :: ds) device_entities) as [ent|].
      * destruct Hf as (k & e0 & Hk & -> & Hd0 & _). exfalso.
        apply (Hno e0); [by apply list_elem_of_lookup_2 in Hk|]. by exists (d :: ds).
      * destruct device_entities; [done|]. by injection Hh as ->.
    + rewrite Hnone by eauto. destruct device_entities; [done|]. by injection Hh as ->.
  - split.
    + destruct device_entities as [|e l]; [done|]. intros Hp. exfalso.
      destruct preferred as [[|d ds]|] eqn:Hpr.
      * rewrite Hnone in Hp by eauto. done.
      * rewrite (Hsome (d :: ds)) in Hp by done.
        by destruct (first_preferred (d :: ds) (e :: l)).
      * rewrite Hnone in Hp by eauto. done.
    + intros ->. by destruct preferred as [[|d ds]|].
  - intros e ds Hp Hempty Hdot (ds' & Hp' & Hd). rewrite Hp in Hp'. injection Hp' as <-.
    unfold domain_of in Hd. by rewrite Hdot in Hd.
Qed.

Lemma preferred_for_cases (prop : pystr) :
  match preferred_for prop with
  | Some ds => ds <> [] /\ ([] ∉ ds) /\ prop ∈ [py "state"; py "brightness"; py "brightness_pct"]
  | None => prop ∉ [py "state"; py "brightness"; py "brightness_pct"]
  end.
Proof.
  unfold preferred_for. destruct (eqb prop (py "state")) eqn:Hs.
  - apply eqb_true in Hs as ->. split; [done|]. split; [|left].
    apply mem_false. by vm_compute.
  - apply eqb_false in Hs.
    destruct (mem prop [py "brightness"; py "brightness_pct"]) eqn:Hb.
    + apply mem_true in Hb. split; [done|]. split; [|by right].
      apply mem_false. by vm_compute.
    + apply mem_false in Hb. intros [->|Hin]%elem_of_cons; [done|]. by apply Hb.
Qed.

(** X7. The first block of [main]: it leaves with "not found" exactly when
    no device has the artifact's name; otherwise the first device of that
    name counts, with the entities whose [device_id] equals its [id]; the
    entity it goes on with has a non-empty id and belongs to that device; a
    property other than state, brightness and brightness_pct always takes
    the device's first entity, and stops when that one has no id. *)
Theorem resolve_outcomes (devices : list reg_device) (entities : list reg_entity)
    (artifact_name prop : pystr) :
  let r := resolve devices entities artifact_name prop in
  (r = DeviceNotFound <-> forall d, d ∈ devices -> rd_name d <> Some artifact_name) /\
  r <> Raised /\
  (forall i device,
     devices !! i = Some device -> rd_name device = Some artifact_name ->
     (forall j d, (j < i)%nat -> devices !! j = Some d -> rd_name d <> Some artifact_name) ->
     (r = NoEntities <-> forall e, e ∈ entities -> re_device_id e <> rd_id device) /\
     (forall entity_id, r = Chosen entity_id ->
        entity_id <> [] /\
        exists e, e ∈ entities /\ re_device_id e = rd_id device /\
          re_entity_id e = Some entity_id) /\
     (prop ∉ [py "state"; py "brightness"; py "brightness_pct"] ->
      forall first, head (entities_of device entities) = Some first ->
        r = match re_entity_id first with
            | Some (c :: ent) => Chosen (c :: ent)
            | _ => NoEntityId
            end)).
Proof.
  intros r. subst r. unfold resolve.
  set (named := fun d => bool_decide (rd_name d = Some artifact_name)).
  assert (forall i device, devices !! i = Some device -> rd_name device = Some artifact_name ->
            (forall j d, (j < i)%nat -> devices !! j = Some d ->
               rd_name d <> Some artifact_name) ->
            List.find named devices = Some device) as Hfirst.
  { induction devices as [|d devices IH]; intros i device Hi Hn Hmin; [done|].
    cbn [List.find]. destruct (named d) eqn:Hd.
    - destruct i as [|i]; [by injection Hi as ->|].
      apply bool_decide_eq_true in Hd. exfalso. apply (Hmin 0%nat d); [lia|done|done].
    - destruct i as [|i].
      + injection Hi as ->. apply bool_decide_eq_false in Hd. done.
      + apply (IH i); [done|done|]. intros j d' Hj Hl. apply (Hmin (S j)); [lia|done]. }
  assert (forall device, match pick_entity (entities_of device entities) (preferred_for prop) with
            | Returns (Some (c :: ent)) =>
                exists e, e ∈ entities_of device entities /\ re_entity_id e = Some (c :: ent)
            | _ => True
            end) as Hpick.
  { intros device. pose proof (preferred_for_cases prop) as Hp. unfold pick_entity.
    destruct (preferred_for prop) as [[|d ds]|].
    - destruct (entities_of device entities) as [|e l]; [done|].
      destruct (re_entity_id e) as [[|c ent]|] eqn:He; [done| |done].
      exists e. split; [left|done].
    - pose proof (first_preferred_spec (d :: ds) (entities_of device entities)) as Hf.
      destruct (first_preferred (d :: ds) (entities_of device entities)) as [[|c ent]|].
      + done.
      + destruct Hf as (k & e0 & Hk & He0 & _). exists e0.
        split; [by apply list_elem_of_lookup_2 in Hk|].
        destruct (re_entity_id e0); [cbn in He0; by subst|done].
      + destruct (entities_of device entities) as [|e l]; [done|].
        destruct (re_entity_id e) as [[|c ent]|] eqn:He; [done| |done].
        exists e. split; [left|done].
    - destruct (entities_of device entities) as [|e l]; [done|].
      destruct (re_entity_id e) as [[|c ent]|] eqn:He; [done| |done].
      exists e. split; [left|done]. }
  assert (forall device e, e ∈ entities_of device entities
            <-> e ∈ entities /\ re_device_id e = rd_id device) as Hof.
  { intros device e. unfold entities_of. rewrite !list_elem_of_In, filter_In.
    by rewrite bool_decide_eq_true. }
  split; [|split].
  - destruct (List.find named devices) as [device|] eqn:Hf.
    + apply find_some in Hf as [Hin Hn]. apply bool_decide_eq_true in Hn.
      split.
      * intros Hr. exfalso. destruct (entities_of device entities); [done|].
        destruct (pick_entity _ _) as [|[[|? ?]|]]; done.
      * intros Hno. exfalso. apply (Hno device); [by apply list_elem_of_In|done].
    + split; [|done]. intros _ d Hd Hn.
      apply list_elem_of_In in Hd. pose proof (find_none _ _ Hf d Hd) as Hd'.
      apply bool_decide_eq_false in Hd'. done.
  - destruct (List.find named devices) as [device|]; [|done].
    destruct (entities_of device entities) as [|e l] eqn:He; [done|].
    unfold pick_entity.
    destruct (match preferred_for prop with
              | Some (d :: ds) => first_preferred (d :: ds) (e :: l)
              | _ => None
              end) as [[|? ?]|]; [done|done|].
    destruct (re_entity_id e) as [[|? ?]|]; done.
  - intros i device Hi Hn Hmin. rewrite (Hfirst i device Hi Hn Hmin).
    specialize (Hpick device).
    split; [|split].
    + destruct (entities_of device entities) as [|e l] eqn:He.
      * split; [|done]. intros _ e He' Hd.
        assert (e ∈ entities_of device entities) as Hin by (by apply Hof).
        rewrite He in Hin. by apply elem_of_nil in Hin.
      * split.
        -- intros Hr. exfalso. destruct (pick_entity _ _) as [|[[|? ?]|]]; done.
        -- intros Hno. exfalso. assert (e ∈ entities_of device entities) as Hin
             by (rewrite He; left).
           apply Hof in Hin as [Hin Hd]. by apply (Hno e).
    + intros entity_id Hr.
      destruct (entities_of device entities) as [|e l] eqn:He; [done|].
      destruct (pick_entity _ _) as [|[[|c ent]|]]; try done.
      injection Hr as <-. split; [done|].
      destruct Hpick as (e0 & Hin & Hid). rewrite <- He in Hin.
      apply Hof in Hin as [Hin Hd]. by exists e0.
    + intros Hprop first Hh.
      pose proof (preferred_for_cases prop) as Hp.
      destruct (preferred_for prop) as [ds|]; [by destruct Hp as (_ & _ & ?)|].
      destruct (entities_of device entities) as [|e l]; [done|].
      injection Hh as ->. done.
Qed.

End ResolveFacts.

(** ** The request of [main] *)

Section RequestFacts.
Context `{PyRuntime}.
Import PyText SetProperty SetPropertyCli.

Lemma points_functional (P : Prop) (n s s' : Z) :
  Spec.points P n s -> Spec.points P n s' -> s = s'.
Proof. intros [[? ->]|[? ->]] [[? ->]|[? ->]]; done. Qed.

Lemma scores_functional (prop d dom nm : pystr) (meta : service_meta) (s s' : Z) :
  Spec.scores prop d dom nm meta s -> Spec.scores prop d dom nm meta s' -> s = s'.
Proof.
  intros (a1 & a2 & a3 & a4 & a5 & H1 & H2 & H3 & H4 & H5 & ->)
         (b1 & b2 & b3 & b4 & b5 & G1 & G2 & G3 & G4 & G5 & ->).
  rewrite (points_functional _ _ _ _ H1 G1), (points_functional _ _ _ _ H2 G2),
    (points_functional _ _ _ _ H3 G3), (points_functional _ _ _ _ H4 G4),
    (points_functional _ _ _ _ H5 G5). done.
Qed.

Lemma candidates_nil (prop d : pystr) (services : list domain_services) :
  candidates_of prop d services = [] <->
  forall dom nm meta, (dom, (nm, meta)) ∈ Spec.enumerate services ->
    ~ Spec.candidate d meta \/ Spec.scores prop d dom nm meta 0.
Proof.
  rewrite candidates_of_enumerate.
  induction (Spec.enumerate services) as [|[dom [nm meta]] l IH]; cbn [flat_map].
  - split; [|done]. intros _ dom nm meta Hin. by apply elem_of_nil in Hin.
  - split.
    + intros [Hc Hl]%app_nil dom' nm' meta' [Heq|Hin]%elem_of_cons.
      * injection Heq as -> -> ->.
        destruct (consider_spec prop d dom nm meta) as [(_ & s & _ & _ & Hs)|[Hr _]];
          [congruence|done].
      * by apply IH.
    + intros Hall. apply app_nil. split.
      * destruct (consider_spec prop d dom nm meta) as [(Hc & s & Hs & Hpos & _)|[_ Hn]];
          [|done].
        destruct (Hall dom nm meta) as [Hno|H0]; [left|done|].
        pose proof (scores_functional _ _ _ _ _ _ _ Hs H0). lia.
      * apply IH. intros dom' nm' meta' Hin. apply Hall. by right.
Qed.

Lemma candidates_elem (prop d : pystr) (services : list domain_services) (c : choice) :
  c ∈ candidates_of prop d services ->
  exists meta, (domain c, (name c, meta)) ∈ Spec.enumerate services /\
    Spec.candidate d meta /\ Spec.scores prop d (domain c) (name c) meta (score c) /\
    (0 < score c)%Z /\ fields c = fields_of meta.
Proof.
  rewrite candidates_of_enumerate.
  induction (Spec.enumerate services) as [|[dom [nm meta]] l IH]; cbn [flat_map].
  - intros Hin. by apply elem_of_nil in Hin.
  - intros [Hin|Hin]%elem_of_app.
    + destruct (consider_spec prop d dom nm meta) as [(Hc & s & Hs & Hpos & Heq)|[_ Hn]].
      * rewrite Heq in Hin. apply list_elem_of_singleton in Hin as ->. cbn.
        exists meta. repeat split; try done. left.
      * rewrite Hn in Hin. by apply elem_of_nil in Hin.
    + destruct (IH Hin) as (meta' & Hin' & Hrest). exists meta'. split; [by right|done].
Qed.

Lemma shortcut_some (prop : pystr) (value : pyvalue) (d : pystr) (c : choice) :
  shortcut prop value d = Some c ->
  prop = py "state" /\
  exists svc, c = shortcut_choice d svc /\
    svc ∈ [py "turn_on"; py "turn_off"; py "open_cover"; py "close_cover"].
Proof.
  unfold shortcut. destruct (eqb prop (py "state")) eqn:Hp; [|done].
  apply eqb_true in Hp. intros Hc. split; [done|].
  repeat case_match; try done; injection Hc as <-; simplify_eq;
    eexists; (split; [reflexivity|]); rewrite !elem_of_cons; tauto.
Qed.

(** X8. An on/off request end to end: for the property "state" and an
    entity whose id begins with light, switch, fan or input_boolean, an
    on-value sends [turn_on] and an off-value [turn_off] of the entity's own
    domain, for a cover "open" sends [open_cover] and "closed"/"close"
    [close_cover]; the body holds the entity id and nothing else, the value
    is not sent, and neither the catalogue nor the entity's current state
    has any influence. *)
Theorem on_off_request_carries_entity_only (entity_id : pystr) (value : pyvalue)
    (services : list domain_services) (current : entity_state) :
  let d := split_first 46 entity_id in
  let desired := desired_of value in
  let sends svc :=
    main_request entity_id (py "state") value services current
    = CallService d svc {[ py "entity_id" := PStr entity_id ]} in
  (d ∈ [py "light"; py "switch"; py "fan"; py "input_boolean"] ->
     (desired ∈ on_values -> sends (py "turn_on")) /\
     (desired ∈ off_values -> sends (py "turn_off"))) /\
  (d = py "cover" ->
     (desired = py "open" -> sends (py "open_cover")) /\
     (desired ∈ [py "closed"; py "close"] -> sends (py "close_cover"))).
Proof.
  intros d desired sends.
  assert (forall svc, select_service (py "state") value d services
                      = Some (shortcut_choice d svc) -> sends svc) as Hs.
  { intros svc Hc. unfold sends, main_request. fold d. rewrite Hc.
    by cbn [domain name shortcut_choice]. }
  pose proof (shortcut_on_off (py "state") value d services eq_refl) as [Hsw Hcov].
  split.
  - intros Hd. destruct (Hsw Hd) as [Hon Hoff]. split; intros Hv; apply Hs; auto.
  - intros Hd. destruct (Hcov Hd) as [Hop Hcl]. split; intros Hv; apply Hs; auto.
Qed.

(** X9. Which request [main] sends: the direct state write exactly when the
    on/off mapping does not apply and no service of the catalogue is both
    applicable to the entity's domain and scored above 0, and then for the
    resolved entity with the fallback body; a service call is either one of
    the four on/off services in the entity's own domain or a service listed
    in the catalogue that is applicable and scores above 0; unless the
    property is itself called entity_id, the body names the resolved
    entity. *)
Theorem request_is_service_or_state_write (entity_id prop : pystr) (value : pyvalue)
    (services : list domain_services) (current : entity_state) :
  let d := split_first 46 entity_id in
  let r := main_request entity_id prop value services current in
  ((exists eid body, r = SetState eid body) <->
     shortcut prop value d = None /\
     forall dom nm meta, (dom, (nm, meta)) ∈ Spec.enumerate services ->
       ~ Spec.candidate d meta \/ Spec.scores prop d dom nm meta 0) /\
  (forall eid body, r = SetState eid body ->
     eid = entity_id /\ body = fallback_payload prop value current) /\
  (forall dom nm payload, r = CallService dom nm payload ->
     (prop <> py "entity_id" -> payload !! py "entity_id" = Some (PStr entity_id)) /\
     ((prop = py "state" /\ dom = d /\
       nm ∈ [py "turn_on"; py "turn_off"; py "open_cover"; py "close_cover"] /\
       shortcut prop value d = Some (shortcut_choice d nm)) \/
      (shortcut prop value d = None /\
       exists meta s, (dom, (nm, meta)) ∈ Spec.enumerate services /\
         Spec.candidate d meta /\ Spec.scores prop d dom nm meta s /\ (0 < s)%Z))).
Proof.
  intros d r. subst r. unfold main_request. fold d. unfold select_service, select_scored.
  destruct (shortcut prop value d) as [c|] eqn:Hsc.
  - split; [|split].
    + split; [by intros (? & ? & ?)|by intros [? _]].
    + done.
    + intros dom nm payload [= <- <- <-].
      destruct (shortcut_some _ _ _ _ Hsc) as (Hp & svc & -> & Hsvc).
      split.
      * intros _. subst prop. unfold service_payload.
        replace (eqb (py "state") (py "state")) with true by done.
        by cbn.
      * left. by cbn.
  - destruct (head (sort_desc (candidates_of prop d services))) as [c|] eqn:Hh.
    + split; [|split].
      * split; [by intros (? & ? & ?)|]. intros [_ Hall]. exfalso.
        apply candidates_nil in Hall. apply head_sort_desc_nil in Hall. congruence.
      * done.
      * intros dom nm payload [= <- <- <-].
        apply head_sort_desc_iff in Hh as (i & Hi & _).
        apply list_elem_of_lookup_2 in Hi.
        destruct (candidates_elem _ _ _ _ Hi) as (meta & Hin & Hc & Hs & Hpos & _).
        split.
        -- intros Hp.
           destruct (service_payload_by_property entity_id prop value d c)
             as (_ & Hv & Hn & Ho).
           destruct (decide (prop = py "state")) as [Hst|Hst].
           ++ destruct (fields c !! py "value") eqn:Hf.
              ** rewrite Hv by eauto. rewrite lookup_insert_ne by done.
                 by rewrite lookup_singleton_eq.
              ** rewrite Hn by done. by rewrite lookup_singleton_eq.
           ++ rewrite Ho by done. rewrite lookup_insert_ne by done.
              by rewrite lookup_singleton_eq.
        -- right. split; [done|]. by exists meta, (score c).
    + split; [|split].
      * split; [|eauto]. intros _. split; [done|].
        apply candidates_nil. by apply head_sort_desc_nil.
      * by intros eid body [= <- <-].
      * done.
Qed.

End RequestFacts.

(** ** Configuration and start-up of the adapter *)

Section RetryFacts.
Import PyText Startup StartupRules.

Lemma delays_lookup (j : nat) :
  delays !! j = if (j <? 5)%nat then Some (match j with O => 0 | S i => 2 ^ Z.of_nat i end)%Z
                else None.
Proof. do 5 (destruct j as [|j]; [done|]). done. Qed.

Lemma attempts_beyond (url : pystr) (answers : nat -> bool) (a n : nat) :
  (5 <= a)%nat -> attempts url answers (seq a n) = ([], false).
Proof.
  revert a. induction n as [|n IH]; intros a Ha; [done|].
  cbn [seq attempts]. rewrite delays_lookup.
  assert ((a <? 5)%nat = false) as -> by (apply Nat.ltb_ge; lia).
  apply IH. lia.
Qed.

Lemma backoff_from (url : pystr) (a m : nat) :
  flat_map (turn url) (seq a (S m)) = turn url a ++ flat_map (turn url) (seq (S a) m).
Proof. done. Qed.

Lemma sleep_of_delay (url : pystr) (a : nat) :
  (if ((match a with O => 0 | S i => 2 ^ Z.of_nat i end) =? 0)%Z then []
   else [Sleep (match a with O => 0 | S i => 2 ^ Z.of_nat i end)%Z]) ++ [Post url]
  = turn url a.
Proof.
  destruct a as [|i]; [done|]. cbn [turn].
  assert ((2 ^ Z.of_nat i =? 0)%Z = false) as -> by (apply Z.eqb_neq; lia). done.
Qed.

(** The loop from attempt [a] on, when the first success is [k] attempts
    later, or when all of the [n] attempts fail. *)
Lemma attempts_from (url : pystr) (answers : nat -> bool) (n a : nat) :
  (a + n <= 5)%nat ->
  (forall k, (k < n)%nat -> answers (a + k)%nat = true ->
     (forall j, (j < k)%nat -> answers (a + j)%nat = false) ->
     forall extra,
     attempts url answers (seq a (n + extra))
     = (flat_map (turn url) (seq a (S k)), true)) /\
  ((forall k, (k < n)%nat -> answers (a + k)%nat = false) ->
   forall extra, (extra = 0 \/ a + n = 5)%nat ->
     attempts url answers (seq a (n + extra))
     = (flat_map (turn url) (seq a n), false)).
Proof.
  revert a. induction n as [|n IH]; intros a Ha.
  - split; [intros k Hk; lia|]. intros _ extra [->|Hfive]; [done|].
    cbn [Nat.add]. apply attempts_beyond. lia.
  - destruct (IH (S a)) as [IHs IHf]; [lia|]. split.
    + intros k Hk Hok Hbefore extra.
      change (seq a (S n + extra)) with (a :: seq (S a) (n + extra)). cbn [attempts].
      rewrite delays_lookup. assert ((a <? 5)%nat = true) as -> by (apply Nat.ltb_lt; lia).
      rewrite backoff_from, <- sleep_of_delay.
      destruct k as [|k].
      * rewrite Nat.add_0_r in Hok. rewrite Hok. cbn [seq flat_map].
        by rewrite app_nil_r.
      * pose proof (Hbefore 0%nat ltac:(lia)) as H0. rewrite Nat.add_0_r in H0. rewrite H0.
        rewrite (IHs k).
        -- by rewrite <- app_assoc.
        -- lia.
        -- by rewrite Nat.add_succ_comm.
        -- intros j Hj. rewrite Nat.add_succ_comm. apply Hbefore. lia.
    + intros Hfail extra Hextra.
      change (seq a (S n + extra)) with (a :: seq (S a) (n + extra)). cbn [attempts].
      rewrite delays_lookup. assert ((a <? 5)%nat = true) as -> by (apply Nat.ltb_lt; lia).
      rewrite backoff_from, <- sleep_of_delay.
      pose proof (Hfail 0%nat ltac:(lia)) as H0. rewrite Nat.add_0_r in H0. rewrite H0.
      rewrite IHf.
      * by rewrite <- app_assoc.
      * intros k Hk. rewrite Nat.add_succ_comm. apply Hfail. lia.
      * lia.
Qed.

Lemma backoff_counts (url : pystr) (m : nat) :
  posts (backoff url m) = m /\
  slept (backoff url m) = (match m with O => 0 | S i => 2 ^ Z.of_nat i - 1 end)%Z /\
  (forall e, e ∈ backoff url m -> e = Post url \/ exists d, e = Sleep d).
Proof.
  unfold backoff. induction m as [|m (IHp & IHs & IHe)]; [split; [done|split; [done|]]|].
  - intros e He. by apply elem_of_nil in He.
  - rewrite seq_S, flat_map_app. cbn [Nat.add flat_map turn]. rewrite app_nil_r.
    split; [|split].
    + unfold posts in *. rewrite List.filter_app, length_app, IHp.
      destruct m; cbn; lia.
    + assert (forall l l', slept (l ++ l') = (slept l + slept l')%Z) as Happ.
      { intros l l'. unfold slept. induction l as [|[d|u] l IHl]; cbn; [done| |done].
        unfold slept in IHl. cbn in IHl. lia. }
      rewrite Happ, IHs. destruct m as [|i]; [done|].
      change (slept (turn url (S i))) with (2 ^ Z.of_nat i + 0)%Z.
      rewrite Nat2Z.inj_succ, Z.pow_succ_r by lia. lia.
    + intros e [He|He]%elem_of_app; [by apply IHe|].
      destruct m as [|i]; cbn [turn] in He.
      * apply list_elem_of_singleton in He as ->. by left.
      * apply elem_of_cons in He as [->|He]; [right; eauto|].
        apply list_elem_of_singleton in He as ->. by left.
Qed.

(** X10. [_post_with_retries]: the POSTs go to the given URL, the first at
    once and the next ones after 1, 2, 4 and 8 seconds; the function stops
    with [True] at the first attempt that succeeds and gives [False] when
    none of the attempts does; whatever [max_retries] is, no more than five
    POSTs are made and no more than 15 seconds are slept, since a sixth
    attempt fails on the list of delays before it sends anything. *)
Theorem post_with_retries_backoff (url : pystr) (max_retries : Z)
    (answers : nat -> bool) :
  let n := Nat.min (Z.to_nat max_retries) 5 in
  let r := _post_with_retries url max_retries answers in
  (forall k, (k < n)%nat -> answers k = true ->
     (forall j, (j < k)%nat -> answers j = false) ->
     r = (backoff url (S k), true)) /\
  ((forall k, (k < n)%nat -> answers k = false) -> r = (backoff url n, false)) /\
  (snd r = true <-> exists k, (k < n)%nat /\ answers k = true) /\
  (posts (fst r) <= 5)%nat /\ (slept (fst r) <= 15)%Z /\
  (forall e, e ∈ fst r -> e = Post url \/ exists d, e = Sleep d).
Proof.
  intros n r. subst r. unfold _post_with_retries.
  assert (Z.to_nat max_retries = n + (Z.to_nat max_retries - n))%nat as Hsplit by lia.
  rewrite Hsplit.
  destruct (attempts_from url answers n 0 ltac:(lia)) as [Hs Hf].
  set (extra := (Z.to_nat max_retries - n)%nat) in *.
  assert (extra = 0 \/ 0 + n = 5)%nat as Hextra by lia.
  assert (n <= 5)%nat as Hn by lia.
  clearbody n extra. clear Hsplit.
  (* the first success, if there is one *)
  assert ((exists k, (k < n)%nat /\ answers k = true /\
             forall j, (j < k)%nat -> answers j = false) \/
          (forall k, (k < n)%nat -> answers k = false)) as Hcase.
  { clear. induction n as [|n [(k & Hk & Hok & Hmin)|Hall]].
    - right. intros k Hk. lia.
    - left. exists k. split; [lia|done].
    - destruct (answers n) eqn:Hn.
      + left. exists n. split; [lia|]. split; [done|]. intros j Hj. apply Hall. lia.
      + right. intros k Hk. destruct (decide (k = n)) as [->|Hne]; [done|].
        apply Hall. lia. }
  destruct Hcase as [(k & Hk & Hok & Hmin)|Hall].
  - rewrite (Hs k Hk Hok Hmin extra). fold (backoff url (S k)). cbn [fst snd].
    destruct (backoff_counts url (S k)) as (Hp & Hsl & He).
    split; [|split; [|split; [|split; [|split]]]].
    + intros k' Hk' Hok' Hmin'.
      destruct (Nat.lt_trichotomy k k') as [Hlt|[->|Hgt]]; [| done |].
      * specialize (Hmin' k Hlt). congruence.
      * specialize (Hmin k' Hgt). congruence.
    + intros Hall. specialize (Hall k Hk). congruence.
    + split; [eauto|done].
    + rewrite Hp. lia.
    + rewrite Hsl.
      assert (2 ^ Z.of_nat k <= 2 ^ 4)%Z by (apply Z.pow_le_mono_r; lia). lia.
    + apply He.
  - rewrite (Hf Hall extra Hextra). fold (backoff url n). cbn [fst snd].
    destruct (backoff_counts url n) as (Hp & Hsl & He).
    split; [|split; [|split; [|split; [|split]]]].
    + intros k Hk Hok _. specialize (Hall k Hk). congruence.
    + done.
    + split; [done|]. intros (k & Hk & Hok). specialize (Hall k Hk). congruence.
    + rewrite Hp. lia.
    + rewrite Hsl. clear Hextra Hs Hf Hall Hp Hsl He. destruct n as [|i]; [lia|].
      assert (2 ^ Z.of_nat i <= 2 ^ 4)%Z by (apply Z.pow_le_mono_r; lia). lia.
    + apply He.
Qed.

End RetryFacts.

Section ResetFacts.
Import PyText Startup StartupRules.

Lemma rstrip_chars_fixed (s : pystr) :
  last s <> Some 47%N -> rstrip_chars (py "/") s = s.
Proof.
  intros Hl. pose proof (rstrip_slashes s 0 Hl) as Hr. cbn [replicate] in Hr.
  by rewrite app_nil_r in Hr.
Qed.

Lemma reset_url_spec (suffix url : pystr) :
  suffix <> [] -> last suffix <> Some 47%N ->
  endswith (rstrip_chars (py "/") (reset_url suffix url)) suffix = true /\
  reset_url suffix (reset_url suffix url) = reset_url suffix url /\
  (endswith (rstrip_chars (py "/") url) suffix = true -> reset_url suffix url = url) /\
  (endswith (rstrip_chars (py "/") url) suffix = false ->
     reset_url suffix url = rstrip_chars (py "/") url ++ suffix /\
     rstrip_chars (py "/") (reset_url suffix url) = reset_url suffix url).
Proof.
  intros Hne Hl.
  destruct (endswith (rstrip_chars (py "/") url) suffix) eqn:He.
  - assert (reset_url suffix url = url) as Hr by (unfold reset_url; by rewrite He).
    rewrite !Hr. split; [done|]. split; [done|]. split; [done|].
    intros Hf. discriminate Hf.
  - assert (reset_url suffix url = rstrip_chars (py "/") url ++ suffix) as Hr
      by (unfold reset_url; by rewrite He).
    assert (rstrip_chars (py "/") (rstrip_chars (py "/") url ++ suffix)
            = rstrip_chars (py "/") url ++ suffix) as Hfix.
    { apply rstrip_chars_fixed. destruct suffix as [|c suffix _] using rev_ind; [done|].
      rewrite app_assoc, last_snoc. by rewrite last_snoc in Hl. }
    assert (endswith (rstrip_chars (py "/") url ++ suffix) suffix = true) as Hends
      by (apply endswith_spec; eauto).
    rewrite !Hr, Hfix. split; [done|]. split; [|split; [intros Hf; discriminate Hf|done]].
    unfold reset_url. by rewrite Hfix, Hends.
Qed.

Lemma retries_post_first (url : pystr) (answers : nat -> bool) :
  exists effects, fst (_post_with_retries url 5 answers) = Post url :: effects.
Proof.
  unfold _post_with_retries. change (seq 0 (Z.to_nat 5)) with (0%nat :: seq 1 4). cbn [attempts].
  change (delays !! 0%nat) with (Some 0%Z). cbn [Z.eqb app].
  destruct (answers 0%nat); [by eexists|].
  destruct (attempts url answers (seq 1 4)) as [effects result]. by eexists.
Qed.

Lemma attempts_effects (url : pystr) (answers : nat -> bool) (turns : list nat) e :
  e ∈ fst (attempts url answers turns) -> e = Post url \/ exists d, e = Sleep d.
Proof.
  induction turns as [|a turns IH]; cbn [attempts]; [by intros ?%elem_of_nil|].
  destruct (delays !! a) as [d|]; [|done].
  destruct (answers a).
  - cbn [fst]. intros [He|He]%elem_of_app.
    + destruct (d =? 0)%Z; [by apply elem_of_nil in He|].
      apply list_elem_of_singleton in He. eauto.
    + apply list_elem_of_singleton in He. eauto.
  - destruct (attempts url answers turns) as [effects result]. cbn [fst] in *.
    intros [He|He]%elem_of_app.
    + destruct (d =? 0)%Z; [by apply elem_of_nil in He|].
      apply list_elem_of_singleton in He. eauto.
    + apply elem_of_cons in He as [->|He]; [by left|by apply IH].
Qed.

(** X11. The reset requests of start-up and shutdown: the URL that is
    posted to ends, apart from trailing slashes, with [/reset] (monitor) or
    [/admin/reset] (explorer); a configured URL that already ends so is
    taken as it is, trailing slashes included ([http://m/reset/] is posted
    to as it stands), any other loses its trailing slashes and gets the
    path appended, so that applying the rule twice changes nothing; without a
    configured URL nothing is sent, with one the first POST goes out at
    once, and every POST of the retries goes to that one URL. *)
Theorem reset_requests (url : pystr) (answers : nat -> bool) :
  let monitor := reset_url (py "/reset") url in
  let explorer := reset_url (py "/admin/reset") url in
  endswith (rstrip_chars (py "/") monitor) (py "/reset") = true /\
  endswith (rstrip_chars (py "/") explorer) (py "/admin/reset") = true /\
  reset_url (py "/reset") monitor = monitor /\
  reset_url (py "/admin/reset") explorer = explorer /\
  (endswith (rstrip_chars (py "/") url) (py "/reset") = true -> monitor = url) /\
  (endswith (rstrip_chars (py "/") url) (py "/admin/reset") = true -> explorer = url) /\
  reset_url (py "/reset") (py "http://m/reset/") = py "http://m/reset/" /\
  reset_url (py "/admin/reset") (py "http://x/admin/reset//") = py "http://x/admin/reset//" /\
  reset_url (py "/reset") (py "http://m/") = py "http://m/reset" /\
  (endswith (rstrip_chars (py "/") url) (py "/reset") = false ->
     monitor = rstrip_chars (py "/") url ++ py "/reset") /\
  (endswith (rstrip_chars (py "/") url) (py "/admin/reset") = false ->
     explorer = rstrip_chars (py "/") url ++ py "/admin/reset") /\
  (_post_monitor_reset url answers = [] <-> url = []) /\
  (_post_explorer_reset url answers = [] <-> url = []) /\
  (url <> [] ->
     head (_post_monitor_reset url answers) = Some (Post monitor) /\
     head (_post_explorer_reset url answers) = Some (Post explorer)) /\
  (forall e, e ∈ _post_monitor_reset url answers ->
     e = Post monitor \/ exists d, e = Sleep d) /\
  (forall e, e ∈ _post_explorer_reset url answers ->
     e = Post explorer \/ exists d, e = Sleep d).
Proof.
  intros monitor explorer.
  destruct (reset_url_spec (py "/reset") url) as (Hm1 & Hm2 & Hm0 & Hm3); [done|done|].
  destruct (reset_url_spec (py "/admin/reset") url) as (Hx1 & Hx2 & Hx0 & Hx3);
    [done|done|].
  split; [done|]. split; [done|]. split; [done|]. split; [done|].
  split; [done|]. split; [done|].
  split; [by vm_compute|]. split; [by vm_compute|]. split; [by vm_compute|].
  split; [by intros [? _]%Hm3|]. split; [by intros [? _]%Hx3|].
  unfold _post_monitor_reset, _post_explorer_reset. fold monitor explorer.
  destruct (retries_post_first monitor answers) as [em Hem].
  destruct (retries_post_first explorer answers) as [ex Hex].
  destruct url as [|c url'] eqn:Hu.
  - split; [done|]. split; [done|]. split; [done|].
    split; intros e He; by apply elem_of_nil in He.
  - split; [rewrite Hem; by split|]. split; [rewrite Hex; by split|].
    split; [intros _; by rewrite Hem, Hex|].
    split; intros e He; by apply attempts_effects in He.
Qed.

End ResetFacts.

(** ** The allow-list of areas *)

Section AreasFacts.
Context `{PyRuntime}.
Import PyText Startup StartupRules.

Lemma split_on_cons (sep : N) (s : pystr) : exists p ps, split_on sep s = p :: ps.
Proof.
  induction s as [|c s (p & ps & IH)]; cbn [split_on]; [by eexists _, _|].
  destruct (c =? sep)%N; [by eexists _, _|]. rewrite IH. by eexists _, _.
Qed.

Lemma join_cons (sep : N) (p q : pystr) (qs : list pystr) :
  join sep (p :: q :: qs) = p ++ sep :: join sep (q :: qs).
Proof. done. Qed.

Lemma split_on_join (sep : N) (s : pystr) : join sep (split_on sep s) = s.
Proof.
  induction s as [|c s IH]; cbn [split_on]; [done|].
  destruct (split_on_cons sep s) as (p & ps & Hs). rewrite Hs in IH |- *.
  destruct (c =? sep)%N eqn:Hc.
  - apply N.eqb_eq in Hc as ->. by rewrite join_cons, IH.
  - destruct ps as [|q ps].
    + cbn [join] in *. by rewrite IH.
    + rewrite join_cons in *. by rewrite <- IH.
Qed.

Lemma split_on_pieces (sep : N) (s p : pystr) :
  p ∈ split_on sep s -> (sep ∉ p) /\ forall c, c ∈ p -> c ∈ s.
Proof.
  revert p. induction s as [|c s IH]; intros p; cbn [split_on].
  - intros ->%list_elem_of_singleton. split; [apply not_elem_of_nil|done].
  - destruct (c =? sep)%N eqn:Hc.
    + intros [->|Hp]%elem_of_cons.
      * split; [apply not_elem_of_nil|]. by intros ? ?%elem_of_nil.
      * destruct (IH p Hp) as [Hn Hs]. split; [done|]. intros d Hd. right. auto.
    + destruct (split_on_cons sep s) as (q & qs & Hs). rewrite Hs in IH |- *.
      apply N.eqb_neq in Hc.
      intros [->|Hp]%elem_of_cons.
      * destruct (IH q) as [Hn Hq]; [left|]. split.
        -- intros [->|Hin]%elem_of_cons; [done|by apply Hn].
        -- intros d [->|Hd]%elem_of_cons; [left|right; auto].
      * destruct (IH p) as [Hn Hq]; [by right|]. split; [done|].
        intros d Hd. right. auto.
Qed.

Lemma lstrip_by_fixed (p : N -> bool) (s : pystr) :
  (forall c, head s = Some c -> p c = false) -> lstrip_by p s = s.
Proof. destruct s as [|c s]; [done|]. intros Hc. cbn [lstrip_by]. by rewrite Hc. Qed.

Lemma rstrip_by_fixed (p : N -> bool) (s : pystr) :
  (forall c, last s = Some c -> p c = false) -> rstrip_by p s = s.
Proof.
  intros Hc. unfold rstrip_by. rewrite lstrip_by_fixed; [apply rev_involutive|].
  intros c Hh. apply Hc. by rewrite <- (rev_involutive s), last_rev.
Qed.

Lemma strip_by_ends (p : N -> bool) (s : pystr) :
  (forall c, head (strip_by p s) = Some c -> p c = false) /\
  (forall c, last (strip_by p s) = Some c -> p c = false).
Proof.
  split; [|intros c; apply rstrip_by_last].
  intros c Hc. unfold strip_by in Hc.
  destruct (rstrip_by_split p (lstrip_by p s)) as (t & Ht & _).
  apply (lstrip_by_head p s). rewrite Ht.
  destruct (rstrip_by p (lstrip_by p s)); [done|]. done.
Qed.

Lemma strip_by_idemp (p : N -> bool) (s : pystr) :
  strip_by p (strip_by p s) = strip_by p s.
Proof.
  destruct (strip_by_ends p s) as [Hh Hl].
  unfold strip_by at 1. rewrite (lstrip_by_fixed p (strip_by p s) Hh).
  by apply rstrip_by_fixed.
Qed.

(** X12. The allow-list [AREAS]: its members are the non-empty stripped
    pieces of the variable between its commas; so no member is empty, none
    holds a comma, none begins or ends with whitespace, and every character
    of a member stands in the variable; joined with commas the pieces give
    the variable back; an unset, empty or blank variable gives the empty
    list, which the forwarder reads as all areas. *)
Theorem areas_are_stripped_pieces (env : pystr) :
  (forall a, a ∈ parse_areas env <->
     a <> [] /\ exists piece, piece ∈ split_on 44 env /\ a = Py.strip piece) /\
  join 44 (split_on 44 env) = env /\
  (forall piece, piece ∈ split_on 44 env -> 44%N ∉ piece) /\
  (forall a, a ∈ parse_areas env ->
     a <> [] /\ (44%N ∉ a) /\ Py.strip a = a /\
     (forall c, head a = Some c -> isspace c = false) /\
     (forall c, last a = Some c -> isspace c = false) /\
     (forall c, c ∈ a -> c ∈ env)) /\
  (Forall (fun c => isspace c = true) env -> parse_areas env = ∅).
Proof.
  assert (forall a, a ∈ parse_areas env <->
            a <> [] /\ exists piece, piece ∈ split_on 44 env /\ a = Py.strip piece) as Hmem.
  { intros a. unfold parse_areas. rewrite elem_of_list_to_set, list_elem_of_fmap.
    split.
    - intros (piece & -> & Hin). apply list_elem_of_In, filter_In in Hin as [Hin Hne].
      apply negb_true_iff, bool_decide_eq_false in Hne.
      split; [done|]. exists piece. by rewrite list_elem_of_In.
    - intros (Hne & piece & Hin & ->). exists piece. split; [done|].
      apply list_elem_of_In, filter_In. split; [by apply list_elem_of_In|].
      by apply negb_true_iff, bool_decide_eq_false. }
  split; [done|]. split; [apply split_on_join|].
  split; [intros piece Hp; by apply split_on_pieces in Hp as [? _]|]. split.
  - intros a (Hne & piece & Hin & ->)%Hmem.
    destruct (split_on_pieces _ _ _ Hin) as [Hsep Hsub].
    destruct (strip_by_ends isspace piece) as [Hh Hl].
    split; [done|]. split; [|split; [apply strip_by_idemp|split; [done|split; [done|]]]].
    + intros Hc. apply Hsep. by apply strip_by_sublist in Hc.
    + intros c Hc. apply Hsub. by apply strip_by_sublist in Hc.
  - intros Hblank. apply set_eq. intros a. rewrite Hmem. split; [|by intros ?%not_elem_of_empty].
    intros (Hne & piece & Hin & ->). exfalso. apply Hne.
    destruct (split_on_pieces _ _ _ Hin) as [_ Hsub].
    unfold Py.strip, strip_by.
    assert (lstrip_by isspace piece = []) as ->; [|done].
    assert (Forall (fun c => isspace c = true) piece) as Hall.
    { apply Forall_forall. intros c Hc. rewrite Forall_forall in Hblank. auto. }
    clear -Hall. induction Hall as [|c l Hc _ IH]; [done|]. cbn [lstrip_by]. by rewrite Hc.
Qed.

End AreasFacts.

(** ** The REST base URL of the adapter *)

Section AdapterBaseUrlFacts.
Import PyText Startup StartupRules SetPropertyCli.

Lemma before_first_absent (sep s : pystr) :
  contains sep s = false -> before_first sep s = s.
Proof.
  induction s as [|c s IH]; intros Hc; [done|]. cbn [before_first].
  rewrite (contains_false_startswith _ _ Hc). f_equal. apply IH.
  by apply (contains_false_tail _ c).
Qed.

Lemma before_first_least (sep p q : pystr) :
  sep <> [] ->
  (forall p' q', p ++ sep ++ q = p' ++ sep ++ q' -> (length p <= length p')%nat) ->
  before_first sep (p ++ sep ++ q) = p.
Proof.
  intros Hne. induction p as [|c p IH]; intros Hmin.
  - destruct sep as [|d sep]; [done|]. cbn [app before_first].
    assert (startswith (d :: sep ++ q) (d :: sep) = true) as ->; [|done].
    apply startswith_spec. by exists q.
  - cbn [app before_first].
    destruct (startswith (c :: p ++ sep ++ q) sep) eqn:Hs.
    + apply startswith_spec in Hs as [q' Hq'].
      specialize (Hmin [] q' Hq'). cbn in Hmin. lia.
    + f_equal. apply IH. intros p' q' Heq.
      specialize (Hmin (c :: p') q'). cbn [app length] in Hmin.
      rewrite Heq in Hmin. specialize (Hmin eq_refl). lia.
Qed.

(** X13. The REST base URL of the adapter against that of the command-line
    tools: the adapter cuts the rewritten websocket URL at the first
    [/api/websocket], wherever it stands, and its REST client strips the
    trailing slashes; when [/api/websocket] occurs nowhere but at the very
    end of the URL, the result is the URL the command-line tools derive;
    with a slash after the path the two differ; a non-empty [HA_BASE_URL]
    of the environment is taken as it is. *)
Theorem adapter_base_url_agrees (HA_URL : pystr) :
  let b := replace (py "wss://") (py "https://")
             (replace (py "ws://") (py "http://") HA_URL) in
  ((forall p q, b = p ++ py "/api/websocket" ++ q -> q = []) ->
     rest_base_url (HA_BASE_URL None HA_URL) = _derive_base_url HA_URL) /\
  (contains (py "/api/websocket") b = false -> HA_BASE_URL None HA_URL = b) /\
  (forall p q, b = p ++ py "/api/websocket" ++ q ->
     contains (py "/api/websocket") (p ++ py "/api/websocke") = false ->
     HA_BASE_URL None HA_URL = p) /\
  (forall base, base <> [] -> HA_BASE_URL (Some base) HA_URL = base) /\
  HA_BASE_URL (Some []) HA_URL = HA_BASE_URL None HA_URL /\
  rest_base_url (HA_BASE_URL None (py "ws://hub:8123/api/websocket/")) = py "http://hub:8123" /\
  _derive_base_url (py "ws://hub:8123/api/websocket/") = py "http://hub:8123/api/websocket".
Proof.
  intros b. split; [|split; [|split; [|split; [|split; [done|split; by vm_compute]]]]].
  - intros Hend. unfold rest_base_url, HA_BASE_URL, _derive_base_url. fold b.
    destruct (contains (py "/api/websocket") b) eqn:Hc.
    + apply contains_spec in Hc as (p & q & Hb). pose proof (Hend p q Hb) as ->.
      rewrite app_nil_r in Hb.
      assert (endswith b (py "/api/websocket") = true) as -> by (apply endswith_spec; eauto).
      rewrite Hb, drop_last_app. f_equal.
      replace (p ++ py "/api/websocket") with (p ++ py "/api/websocket" ++ [])
        by (by rewrite app_nil_r).
      apply before_first_least; [done|].
      intros p' q' Heq. rewrite app_nil_r, <- Hb in Heq.
      pose proof (Hend p' q' Heq) as ->. rewrite Hb, app_nil_r in Heq.
      apply (f_equal length) in Heq. rewrite !length_app in Heq. lia.
    + rewrite (before_first_absent _ _ Hc).
      assert (endswith b (py "/api/websocket") = false) as ->; [|done].
      apply not_true_iff_false. intros [p Hp]%endswith_spec.
      assert (contains (py "/api/websocket") b = true); [|congruence].
      apply contains_spec. exists p, []. by rewrite app_nil_r.
  - intros Hc. unfold HA_BASE_URL. fold b. by apply before_first_absent.
  - intros p q Hb Hfirst. unfold HA_BASE_URL. fold b. rewrite Hb.
    apply before_first_least; [done|]. intros p' q' Heq.
    destruct (decide (length p <= length p')%nat) as [|Hlt]; [done|]. exfalso.
    assert (contains (py "/api/websocket") (p ++ py "/api/websocke") = true);
      [|congruence].
    apply contains_spec.
    (* an occurrence that begins before [p] ends lies within [p] and the
       first 13 characters of the separator *)
    assert (p' ++ py "/api/websocket" = take (length p' + 14) (p ++ py "/api/websocket" ++ q))
      as Htake.
    { rewrite Heq. rewrite app_assoc.
      rewrite take_app_length'; [done|]. by rewrite length_app. }
    assert (length p' + 14 <= length p + 13)%nat as Hle by lia.
    exists p', (drop (length p' + 14) (p ++ py "/api/websocke")).
    rewrite app_assoc, Htake.
    assert (take (length p' + 14) (p ++ py "/api/websocket" ++ q)
            = take (length p' + 14) (p ++ py "/api/websocke")) as ->.
    { change (py "/api/websocket") with (py "/api/websocke" ++ [116%N]).
      rewrite <- (app_assoc (py "/api/websocke")), (app_assoc p).
      rewrite take_app_le; [done|]. rewrite length_app. cbn. lia. }
    by rewrite take_drop.
  - intros base Hne. by destruct base.
Qed.

End AdapterBaseUrlFacts.

(** ** Notifications and artifact URIs *)

Section NotifyFacts.
Context `{PyRuntime}.
Import PyText Adapter Notify NotifyRules.

Lemma rstrip_chars_slashes (s : pystr) (n : nat) :
  rstrip_chars (py "/") (s ++ replicate n 47%N) = rstrip_chars (py "/") s.
Proof.
  unfold rstrip_chars, rstrip_by. rewrite rev_app_distr.
  assert (rev (replicate n 47%N) = replicate n 47%N) as ->.
  { induction n as [|n IH]; [done|].
    rewrite replicate_S_end at 1. rewrite rev_app_distr. cbn. by rewrite IH. }
  f_equal. induction n as [|n IH]; [done|]. cbn [replicate app lstrip_by]. by rewrite IH.
Qed.

Lemma hex_digit_plain (n : N) :
  hex_digit n <> 47%N /\ hex_digit n <> 35%N /\ hex_digit n <> 63%N /\
  hex_digit n <> 32%N /\ hex_digit n <> 37%N.
Proof. unfold hex_digit. destruct (N.ltb_spec n 10); lia. Qed.

Lemma quote_plain (s : pystr) (c : N) :
  c ∈ quote s -> c = 37%N \/ (unreserved c = true \/ exists n, c = hex_digit n).
Proof.
  unfold quote. intros Hc. apply list_elem_of_In, in_flat_map in Hc as (b & _ & Hc).
  apply list_elem_of_In in Hc. unfold quote_byte in Hc.
  destruct (unreserved b) eqn:Hb.
  - apply list_elem_of_singleton in Hc as ->. auto.
  - apply elem_of_cons in Hc as [->|Hc]; [by left|]. right. right.
    apply elem_of_cons in Hc as [->|Hc]; [eauto|].
    apply list_elem_of_singleton in Hc as ->. eauto.
Qed.

Lemma quote_no_delimiter (s : pystr) (c : N) :
  c ∈ [47; 35; 63; 32]%N -> c ∉ quote s.
Proof.
  intros Hc Hq. apply quote_plain in Hq as [->|[Hu|[n ->]]].
  - revert Hc. rewrite !elem_of_cons, elem_of_nil. intros [?|[?|[?|[?|[]]]]]; done.
  - revert Hc Hu. rewrite !elem_of_cons, elem_of_nil.
    intros [->|[->|[->|[->|[]]]]]; by vm_compute.
  - pose proof (hex_digit_plain n) as (? & ? & ? & ? & ?).
    revert Hc. rewrite !elem_of_cons, elem_of_nil. intros [?|[?|[?|[?|[]]]]]; done.
Qed.

(** What the forwarder posts for a message it lets through. *)
Lemma forward_message_some (cfg : config) (ix : registry_index) (msg : ws_message)
    (n : notification) :
  forward_message cfg ix msg = Some n ->
  exists e state area ev,
    Spec.msg_entity msg = Some e /\ Spec.msg_state msg = Some state /\
    ent_to_area ix !! e = Some area /\ msg_event msg = Some ev /\
    e <> [] /\ area <> [] /\
    let attrs := default ∅ (so_attributes <$> (Spec.msg_data msg ≫= data_new_state)) in
    let profile := profile_url (BASE_WS_URI cfg) area (artifact_label ix e) in
    n = {| artifactUri := profile ++ py "#artifact";
           propertyUri := profile ++ py "/props/"
             ++ Py.str (or_else (attrs !! py "device_class") (PStr (py "state")));
           value := fst (_infer_value_and_type state);
           valueTypeUri := snd (_infer_value_and_type state);
           timestamp := time_fired ev;
           triggerUri := profile ++ py "/actions/read" |}.
Proof.
  unfold forward_message, Spec.msg_entity, Spec.msg_state, Spec.msg_data.
  destruct (bool_decide (msg_type msg = Some (py "event"))); [|done]. cbn [negb].
  destruct (bool_decide (msg_event msg ≫= event_type = Some (py "state_changed")))
    eqn:Hev; [|done]. cbn [negb].
  apply bool_decide_eq_true in Hev.
  destruct (msg_event msg) as [ev|] eqn:Hmsg; [|done]. cbn [mbind option_bind fmap option_fmap option_map default] in *.
  destruct (event_data_ ev ≫= data_entity_id) as [[|c e]|] eqn:He;
    cbn [present negb orb]; [done| |done].
  destruct (bool_decide ((event_data_ ev ≫= data_new_state) ≫= so_state
                          ∈ [None; Some (py "unknown"); Some (py "unavailable")]))
    eqn:Hst; [done|]. apply bool_decide_eq_false in Hst.
  destruct ((event_data_ ev ≫= data_new_state) ≫= so_state) as [state|] eqn:Hstate;
    [|exfalso; apply Hst; left].
  cbn [default from_option id].
  destruct (ent_to_area ix !! (c :: e)) as [[|a area]|] eqn:Harea;
    cbn [present negb orb default from_option id]; [done| |done].
  destruct (negb (bool_decide (AREAS cfg = ∅)) && negb (bool_decide (a :: area ∈ AREAS cfg)));
    [done|].
  intros Hn. exists (c :: e), state, (a :: area), ev.
  repeat (split; [done|]). cbv zeta.
  assert ((if negb (present (if present (ent_to_device ix !! (c :: e))
                             then dev_by_id ix !! default [] (ent_to_device ix !! (c :: e))
                                  ≫= dev_name
                             else None))
           then split1_last 46 (c :: e)
           else default [] (if present (ent_to_device ix !! (c :: e))
                            then dev_by_id ix !! default [] (ent_to_device ix !! (c :: e))
                                 ≫= dev_name
                            else None)) = artifact_label ix (c :: e)) as Hlabel.
  { unfold artifact_label.
    destruct (ent_to_device ix !! (c :: e)) as [[|d did]|]; [done| |done].
    cbn [present default from_option id].
    by destruct (dev_by_id ix !! (d :: did) ≫= dev_name) as [[|? ?]|]. }
  rewrite Hlabel in Hn.
  destruct (_infer_value_and_type state) as [v xt]. injection Hn as <-.
  unfold profile_url. cbn [fst snd]. f_equal; by rewrite <- ?app_assoc.
Qed.

Lemma register_state_forward (cfg : config) (ix : registry_index) (st : rest_state) :
  AREAS cfg <> ∅ -> rs_entity_id st <> Some [] -> rs_attributes st <> AttrsNull ->
  register_state cfg ix st
  = as_message (or_else (rs_last_changed st) (or_else (rs_last_updated st) (PStr []))) st
    ≫= forward_message cfg ix.
Proof.
  intros Ha He Hattrs. unfold register_state, as_message.
  assert (exists attrs, forwarded_attributes (rs_attributes st) = Some attrs /\
            match rs_attributes st with
            | Attrs attrs => attrs
            | AttrsAbsent | AttrsNull => ∅
            end = attrs) as (attrs & -> & ->).
  { destruct (rs_attributes st); [by eexists| done | by eexists]. }
  cbn [mbind option_bind]. unfold forward_message.
  cbn [msg_type msg_event event_type event_data_ data_entity_id data_new_state so_state
       so_attributes time_fired mbind option_bind fmap option_fmap option_map
       default from_option id].
  assert (forall x : option pystr, bool_decide (x = x) = true) as Hrefl
    by (intros x; by apply bool_decide_eq_true_2).
  rewrite !Hrefl. rewrite (bool_decide_eq_false_2 (AREAS cfg = ∅)) by done.
  cbn [negb andb].
  destruct (rs_entity_id st) as [[|c e]|]; [done| |].
  - cbn [present negb orb mbind option_bind default from_option id].
    destruct (bool_decide (rs_state st ∈ [None; Some (py "unknown"); Some (py "unavailable")])).
    + by destruct (negb (present (ent_to_area ix !! (c :: e))) || _).
    + done.
  - cbn [present negb orb mbind option_bind]. done.
Qed.

Lemma register_state_null_attributes (cfg : config) (ix : registry_index)
    (st : rest_state) :
  rs_attributes st = AttrsNull ->
  register_state cfg ix st = register_state cfg ix (with_attributes st AttrsAbsent).
Proof.
  intros Hnull. unfold register_state, with_attributes.
  cbn [rs_entity_id rs_state rs_attributes rs_last_changed rs_last_updated].
  by rewrite Hnull.
Qed.

(** Where the two differ: an entity id that is the empty string. *)
Lemma register_state_empty_id (cfg : config) (ix : registry_index) (st : rest_state)
    (area : pystr) :
  rs_entity_id st = Some [] -> ent_to_area ix !! [] = Some area -> area <> [] ->
  area ∈ AREAS cfg -> rs_state st ∉ Spec.dead_states ->
  is_Some (register_state cfg ix st) /\
  forall stamp, as_message stamp st ≫= forward_message cfg ix = None.
Proof.
  intros He Harea Hne Hin Hdead. split.
  - unfold register_state. rewrite He. cbn [mbind option_bind]. rewrite Harea.
    destruct area as [|a area]; [done|].
    cbn [present negb orb default from_option id].
    rewrite (bool_decide_eq_true_2 _ Hin). cbn [negb].
    rewrite (bool_decide_eq_false_2 _ Hdead).
    by destruct (_infer_value_and_type (default [] (rs_state st))).
  - intros stamp. unfold as_message.
    destruct (forwarded_attributes (rs_attributes st)) as [attrs|]; [|done].
    cbn [mbind option_bind]. unfold forward_message.
    cbn [msg_type msg_event event_type event_data_ data_entity_id data_new_state so_state
         so_attributes time_fired mbind option_bind fmap option_fmap option_map
         default from_option id].
    rewrite He.
    by rewrite !(bool_decide_eq_true_2 (Some _ = Some _)).
Qed.

(** X14. The registration of the known artifacts at start-up: nothing is
    sent without a monitor URL or with an empty allow-list of areas, where
    the forwarder takes the empty list for all areas; otherwise a fetched
    state whose entity id is not the empty string and whose attributes are
    not [null] is treated as the forwarder treats the [state_changed]
    message of that state, stamped with [last_changed], else
    [last_updated], else the empty string: the same states are skipped and
    the same bodies are posted, in the order of the states. The two
    exceptions are stated as they are in the code: attributes that are
    [null] are registered like missing ones (the forwarder has no body for
    them, it raises), and a state whose entity id is the empty string is
    registered when the index files that id under an allowed area, while
    the forwarder skips it. Every body posted is for an entity whose area
    is in the allow-list and whose state is not absent, unknown or
    unavailable. *)
Theorem startup_registration_like_forwarder (cfg : config) (ix : registry_index)
    (states : list rest_state) :
  let stamp st := or_else (rs_last_changed st) (or_else (rs_last_updated st) (PStr [])) in
  let sent := _register_known_artifacts_to_monitor cfg ix states in
  ((MONITOR_URL cfg = [] \/ AREAS cfg = ∅) -> sent = []) /\
  (MONITOR_URL cfg <> [] -> AREAS cfg <> ∅ ->
   (forall st, st ∈ states ->
      rs_entity_id st <> Some [] /\ rs_attributes st <> AttrsNull) ->
   sent = omap (fun st => as_message (stamp st) st ≫= forward_message cfg ix) states) /\
  (forall st, rs_attributes st = AttrsNull ->
     as_message (stamp st) st = None /\
     as_message (stamp st) st ≫= forward_message cfg ix = None /\
     register_state cfg ix st = register_state cfg ix (with_attributes st AttrsAbsent)) /\
  (forall st area,
     rs_entity_id st = Some [] -> ent_to_area ix !! [] = Some area -> area <> [] ->
     area ∈ AREAS cfg -> rs_state st ∉ Spec.dead_states ->
     is_Some (register_state cfg ix st) /\
     as_message (stamp st) st ≫= forward_message cfg ix = None) /\
  (forall n, n ∈ sent ->
     exists st area, st ∈ states /\ register_state cfg ix st = Some n /\
       (rs_entity_id st ≫= fun e => ent_to_area ix !! e) = Some area /\
       area ∈ AREAS cfg /\ rs_state st ∉ Spec.dead_states).
Proof.
  intros stamp sent. subst sent. unfold _register_known_artifacts_to_monitor.
  split; [|split; [|split; [|split]]].
  - intros [Hm|Ha].
    + by rewrite (bool_decide_eq_true_2 _ Hm).
    + rewrite (bool_decide_eq_true_2 _ Ha). by rewrite orb_true_r.
  - intros Hm Ha Hids.
    rewrite (bool_decide_eq_false_2 _ Hm), (bool_decide_eq_false_2 _ Ha). cbn [orb].
    induction states as [|st states IH]; [done|]. cbn [omap list_omap].
    rewrite register_state_forward; [|done|apply Hids; left|apply Hids; left].
    rewrite IH; [done|]. intros st' Hst'. apply Hids. by right.
  - intros st Hnull. split.
    + unfold as_message. by rewrite Hnull.
    + split; [unfold as_message; by rewrite Hnull|].
      by apply register_state_null_attributes.
  - intros st area He Harea Hne Hin Hdead.
    destruct (register_state_empty_id cfg ix st area He Harea Hne Hin Hdead) as [Hreg Hfwd].
    split; [exact Hreg | apply Hfwd].
  - intros n Hn.
    destruct (bool_decide (MONITOR_URL cfg = []) || bool_decide (AREAS cfg = ∅));
      [by apply elem_of_nil in Hn|].
    apply list_elem_of_omap in Hn as (st & Hst & Hreg). exists st.
    unfold register_state in Hreg.
    destruct (rs_entity_id st ≫= (fun e => ent_to_area ix !! e)) as [[|a area]|] eqn:Harea;
      cbn [present negb orb default from_option id] in Hreg; [done| |done].
    destruct (bool_decide (a :: area ∈ AREAS cfg)) eqn:Hin; [|done].
    apply bool_decide_eq_true in Hin. cbn [negb] in Hreg.
    destruct (bool_decide (rs_state st ∈ [None; Some (py "unknown"); Some (py "unavailable")]))
      eqn:Hdead; [done|]. apply bool_decide_eq_false in Hdead.
    exists (a :: area). repeat split; try done.
    unfold register_state. rewrite Harea.
    cbn [present negb orb default from_option id].
    rewrite (bool_decide_eq_true_2 _ Hin). cbn [negb].
    by rewrite (bool_decide_eq_false_2 _ Hdead).
Qed.

Lemma split1_last_cases (s : pystr) :
  (46%N ∉ s -> split1_last 46 s = s) /\
  (forall dom obj, 46%N ∉ dom -> s = dom ++ 46%N :: obj -> split1_last 46 s = obj).
Proof.
  unfold split1_last. split.
  - intros Hs. assert (snd (cut 46 s) = None) as ->; [|done].
    induction s as [|c s IH]; [done|]. cbn [cut].
    destruct (c =? 46)%N eqn:Hc.
    + apply N.eqb_eq in Hc as ->. exfalso. apply Hs. left.
    + destruct (cut 46 s) as [a b]. cbn [snd] in *. apply IH.
      intros Hin. apply Hs. by right.
  - intros dom obj Hdom ->. assert (snd (cut 46 (dom ++ 46%N :: obj)) = Some obj) as ->; [|done].
    induction dom as [|c dom IH]; [done|]. cbn [app cut].
    destruct (c =? 46)%N eqn:Hc.
    + apply N.eqb_eq in Hc as ->. exfalso. apply Hdom. left.
    + destruct (cut 46 (dom ++ 46%N :: obj)) as [a b]. cbn [snd] in *. apply IH.
      intros Hin. apply Hdom. by right.
Qed.

(** X15. The body the forwarder posts for a message it lets through: the
    three URIs extend one profile URL, base/workspaces/area/artifacts/name,
    where the area is the one the index files the entity under and the name
    is that of the entity's device or, without a named device, what follows
    the first dot of the entity id (the whole id when it has no dot); the
    name is percent-encoded, so it holds no slash, hash, question mark or
    blank; value and type are those of the classifier; trailing slashes of
    the configured base URI make no difference. *)
Theorem forwarder_notification_uris (cfg : config) (ix : registry_index)
    (msg : ws_message) :
  (forall k, forward_message (with_base cfg (BASE_WS_URI cfg ++ replicate k 47%N)) ix msg
             = forward_message cfg ix msg) /\
  (forall n, forward_message cfg ix msg = Some n ->
     exists e state area,
       Spec.msg_entity msg = Some e /\ Spec.msg_state msg = Some state /\
       ent_to_area ix !! e = Some area /\
       let profile := profile_url (BASE_WS_URI cfg) area (artifact_label ix e) in
       artifactUri n = profile ++ py "#artifact" /\
       triggerUri n = profile ++ py "/actions/read" /\
       (exists prop, propertyUri n = profile ++ py "/props/" ++ prop) /\
       (value n, valueTypeUri n) = _infer_value_and_type state /\
       (forall c, c ∈ [47; 35; 63; 32]%N -> c ∉ quote (artifact_label ix e))) /\
  (forall e, artifact_label ix e <> split1_last 46 e ->
     exists did d, ent_to_device ix !! e = Some did /\ dev_by_id ix !! did = Some d /\
       dev_name d = Some (artifact_label ix e)) /\
  (forall e, (46%N ∉ e -> split1_last 46 e = e) /\
     (forall dom obj, 46%N ∉ dom -> e = dom ++ 46%N :: obj -> split1_last 46 e = obj)).
Proof.
  split; [|split; [|split]].
  - intros k. unfold forward_message, with_base. cbn [BASE_WS_URI AREAS MONITOR_URL].
    by rewrite rstrip_chars_slashes.
  - intros n Hn.
    destruct (forward_message_some cfg ix msg n Hn)
      as (e & state & area & ev & He & Hs & Ha & _ & _ & _ & ->).
    exists e, state, area. repeat (split; [done|]). cbv zeta.
    cbn [artifactUri triggerUri propertyUri value valueTypeUri].
    repeat split; try done.
    + eauto.
    + by destruct (_infer_value_and_type state).
    + intros c Hc. by apply quote_no_delimiter.
  - intros e Hl. unfold artifact_label in *.
    destruct (ent_to_device ix !! e) as [[|c did]|]; [done| |done].
    destruct (dev_by_id ix !! (c :: did)) as [d|] eqn:Hd; [|done].
    cbn [mbind option_bind] in *.
    destruct (dev_name d) as [[|a name]|] eqn:Hname; [done| |done].
    by exists (c :: did), d.
  - apply split1_last_cases.
Qed.

Lemma rdf_base_slash (request_base : pystr) :
  request_base <> [] ->
  rdf_base (Some request_base) = rstrip_chars (py "/") request_base ++ py "/".
Proof. intros Hne. unfold rdf_base. by destruct request_base. Qed.

(** X16. One artifact, one URI: for a device with a name in an area, the
    URI registered with the explorer, the URI listed by [list_artifacts]
    when the request's base URL is the configured base URI up to trailing
    slashes, and the [artifactUri] of every notification the forwarder
    posts for an entity that the index files under this device and area are
    the same, base/workspaces/area/artifacts/name#artifact; the explorer
    registration of an area comes to nothing exactly when one of the area's
    devices has a null name. *)
Theorem artifact_has_one_uri (cfg : config) (request_base : pystr)
    (devices : list listed_device) (d : listed_device) (area name : pystr) :
  d ∈ devices -> ld_name d = Name name -> ld_area_id d = Some area ->
  request_base <> [] ->
  rstrip_chars (py "/") request_base = rstrip_chars (py "/") (BASE_WS_URI cfg) ->
  let uri := artifact_uri (BASE_WS_URI cfg) area name in
  (forall uris, explorer_uris cfg area devices = Some uris -> uri ∈ uris) /\
  (forall uris, list_artifacts request_base area devices = Some uris -> uri ∈ uris) /\
  (forall ix msg n e,
     forward_message cfg ix msg = Some n -> Spec.msg_entity msg = Some e ->
     ent_to_area ix !! e = Some area -> ent_to_device ix !! e = Some (ld_id d) ->
     dev_by_id ix !! ld_id d = Some (as_device d) ->
     ld_id d <> [] -> name <> [] -> artifactUri n = uri) /\
  (explorer_uris cfg area devices = None <->
     exists d', d' ∈ devices /\ ld_area_id d' = Some area /\ ld_name d' = NameNull).
Proof.
  intros Hd Hname Harea Hrb Hbase uri.
  assert (d ∈ get_devices (Some area) devices) as Hlisted.
  { unfold get_devices. apply list_elem_of_In, filter_In. split; [by apply list_elem_of_In|].
    by apply bool_decide_eq_true. }
  assert (label d = Some name) as Hlabel by (unfold label; by rewrite Hname).
  split; [|split; [|split]].
  - intros uris Hu. unfold explorer_uris in Hu. apply mapM_Some in Hu.
    apply list_elem_of_lookup in Hlisted as [i Hi].
    destruct (Forall2_lookup_l _ _ _ _ _ Hu Hi) as (u & Hui & Heq).
    rewrite Hlabel in Heq. cbn [mbind option_bind] in Heq. injection Heq as <-.
    apply list_elem_of_lookup_2 in Hui. revert Hui.
    unfold uri, artifact_uri, profile_url. by rewrite <- !app_assoc.
  - intros uris Hu. unfold list_artifacts in Hu. apply mapM_Some in Hu.
    apply list_elem_of_lookup in Hlisted as [i Hi].
    destruct (Forall2_lookup_l _ _ _ _ _ Hu Hi) as (u & Hui & Heq).
    rewrite Hlabel in Heq. cbn [mbind option_bind] in Heq. injection Heq as <-.
    apply list_elem_of_lookup_2 in Hui. revert Hui.
    rewrite (rdf_base_slash _ Hrb), Hbase.
    unfold uri, artifact_uri, profile_url. rewrite <- !app_assoc. intros Hui.
    match goal with
    | |- ?a ∈ _ => match type of Hui with ?b ∈ _ => replace a with b; [done|] end
    end.
    f_equal. change (py "/workspaces/") with (py "/" ++ py "workspaces/").
    rewrite <- (app_assoc (py "/")). f_equal.
    change (py "workspaces/") with ([119; 111; 114; 107; 115; 112; 97; 99; 101; 115; 47]%N).
    cbn [app]. by rewrite <- !app_assoc.
  - intros ix msg n e Hn He Ha Hdev Hby Hid Hnm.
    destruct (forward_message_some cfg ix msg n Hn)
      as (e' & state & area' & ev & He' & _ & Ha' & _ & _ & _ & ->).
    rewrite He in He'. injection He' as <-. rewrite Ha in Ha'. injection Ha' as <-.
    cbn [artifactUri]. unfold uri, artifact_uri. do 2 f_equal.
    unfold artifact_label. rewrite Hdev.
    destruct (ld_id d) as [|c did] eqn:Hldid; [done|]. rewrite Hby.
    cbn [mbind option_bind as_device dev_name]. rewrite Hname. by destruct name.
  - unfold explorer_uris. rewrite mapM_None, Exists_exists. split.
    + intros (d' & Hin & Hnone). exists d'.
      unfold get_devices in Hin. apply list_elem_of_In, filter_In in Hin as [Hin Ha].
      apply bool_decide_eq_true in Ha. split; [by apply list_elem_of_In|]. split; [done|].
      unfold label in Hnone. by destruct (ld_name d').
    + intros (d' & Hin & Ha & Hnull). exists d'. split.
      * unfold get_devices. apply list_elem_of_In, filter_In.
        split; [by apply list_elem_of_In|]. by apply bool_decide_eq_true.
      * unfold label. by rewrite Hnull.
Qed.

End NotifyFacts.

Section NotifyWitnesses.
Import PyText Adapter Notify NotifyRules.

Lemma artifact_has_one_uri_witness :
  explorer_uris Examples.kitchen_cfg (py "kitchen") [Examples.desk_lamp]
  = Some [py "http://localhost:8080/workspaces/kitchen/artifacts/Desk%20Lamp#artifact"] /\
  py "http://localhost:8080/workspaces/kitchen/artifacts/Desk%20Lamp#artifact"
  ∈ [py "http://localhost:8080/workspaces/kitchen/artifacts/Desk%20Lamp#artifact"].
Proof.
  split; [by vm_compute|].
  refine (proj1 (artifact_has_one_uri (H := ascii_runtime) Examples.kitchen_cfg
            (py "http://localhost:8080") [Examples.desk_lamp] Examples.desk_lamp
            (py "kitchen") (py "Desk Lamp") _ eq_refl eq_refl _ _) _ _).
  - left.
  - discriminate.
  - by vm_compute.
  - by vm_compute.
Defined.

End NotifyWitnesses.

(** ** The endpoints of an artifact *)

Section EndpointFacts.
Context `{PyRuntime}.
Import PyText Adapter SetProperty Notify Endpoints.

Lemma find_first {A} (f : A -> bool) (l : list A) :
  match List.find f l with
  | Some x => exists i, l !! i = Some x /\ f x = true /\
                forall j y, (j < i)%nat -> l !! j = Some y -> f y = false
  | None => forall x, x ∈ l -> f x = false
  end.
Proof.
  induction l as [|a l IH]; cbn [List.find].
  - intros x Hx. by apply elem_of_nil in Hx.
  - destruct (f a) eqn:Ha.
    + exists 0%nat. repeat split; try done. intros j y Hj. lia.
    + destruct (List.find f l) as [x|].
      * destruct IH as (i & Hi & Hx & Hmin). exists (S i). repeat split; try done.
        intros [|j] y Hj Hy; cbn in Hy; [by injection Hy as <-|]. apply (Hmin j); [lia|done].
      * intros x [->|Hx]%elem_of_cons; [done|by apply IH].
Qed.

Lemma pick_entity_spec (device_entities : list entity) (domain : pystr) :
  match _pick_entity device_entities domain with
  | Some ent =>
    exists i e rest, device_entities !! i = Some e /\ entity_id e = ent /\
      ent = domain ++ py "." ++ rest /\
      forall j e', (j < i)%nat -> device_entities !! j = Some e' ->
        startswith (entity_id e') (domain ++ py ".") = false
  | None =>
    forall e, e ∈ device_entities -> startswith (entity_id e) (domain ++ py ".") = false
  end.
Proof.
  unfold _pick_entity.
  pose proof (find_first (fun e => startswith (entity_id e) (domain ++ py ".")) device_entities)
    as Hf.
  destruct (List.find _ device_entities) as [e|]; cbn [fmap option_fmap option_map]; [|done].
  destruct Hf as (i & Hi & He & Hmin).
  apply startswith_spec in He as [rest Hrest].
  exists i, e, rest. split; [done|]. split; [done|]. split; [|done].
  by rewrite Hrest, <- app_assoc.
Qed.

Lemma resolve_spec (devices : list device) (entities : list entity)
    (workspace_id decoded_name : pystr) (device : device) (device_entities : list entity) :
  _resolve_device_and_entities devices entities workspace_id decoded_name
  = inr (device, device_entities) ->
  device ∈ devices /\ dev_area_id device = Some workspace_id /\
  dev_name device = Some decoded_name /\ device_entities <> [] /\
  forall e, e ∈ device_entities <-> e ∈ entities /\ device_id e = Some (dev_id device).
Proof.
  unfold _resolve_device_and_entities.
  destruct (List.find _ _) as [d|] eqn:Hf; [|done].
  apply find_some in Hf as [Hin Hn]. apply bool_decide_eq_true in Hn.
  apply filter_In in Hin as [Hin Ha]. apply bool_decide_eq_true in Ha.
  destruct (List.filter _ entities) as [|e l] eqn:Hl; [done|].
  intros [= <- <-]. split; [by apply list_elem_of_In|].
  split; [done|]. split; [done|]. split; [done|]. intros e0. rewrite <- Hl.
  rewrite list_elem_of_In, filter_In, bool_decide_eq_true, <- list_elem_of_In. done.
Qed.

(** X17. [action_ha_service] calls the requested service of the requested
    domain, and only after it found the artifact by name in the workspace,
    an entity of the artifact whose id begins with the domain and a dot,
    and the service in the catalogue's first entry for the domain; the
    entity is the first such entity of the artifact, and it is what the
    call carries under [entity_id], whatever the request's body gave for
    that key; every other key of the body is passed on unchanged. *)
Theorem ha_service_call_targets_entity (devices : list device) (entities : list entity)
    (services : list domain_services)
    (workspace_id decoded_name domain service : pystr) (payload : gmap pystr pyvalue) :
  forall call,
    action_ha_service devices entities services workspace_id decoded_name domain service
      payload = inr call ->
    call_domain call = domain /\ call_service call = service /\
    (exists device device_entities i e rest svc,
       _resolve_device_and_entities devices entities workspace_id decoded_name
       = inr (device, device_entities) /\
       dev_name device = Some decoded_name /\ dev_area_id device = Some workspace_id /\
       device_entities !! i = Some e /\ device_id e = Some (dev_id device) /\
       entity_id e = domain ++ py "." ++ rest /\
       (forall j e', (j < i)%nat -> device_entities !! j = Some e' ->
          startswith (entity_id e') (domain ++ py ".") = false) /\
       call_data call !! py "entity_id" = Some (PStr (entity_id e)) /\
       List.find (fun s => eqb (svc_domain s) domain) services = Some svc /\
       service ∈ (default [] (svc_services svc)).*1) /\
    (forall k, k <> py "entity_id" -> call_data call !! k = payload !! k).
Proof.
  intros call. unfold action_ha_service, _ensure_entity.
  destruct (_resolve_device_and_entities devices entities workspace_id decoded_name)
    as [f|[device device_entities]] eqn:Hres; [done|].
  pose proof (pick_entity_spec device_entities domain) as Hp.
  destruct (_pick_entity device_entities domain) as [[|c ent]|]; [done| |done].
  destruct Hp as (i & e & rest & Hi & He & Hrest & Hmin).
  destruct (List.find _ services) as [svc|] eqn:Hsvc; [|done].
  destruct (bool_decide (service ∈ (default [] (svc_services svc)).*1)) eqn:Hin; [|done].
  apply bool_decide_eq_true in Hin. intros [= <-]. cbn [call_domain call_service call_data].
  destruct (resolve_spec _ _ _ _ _ _ Hres) as (Hdev & Harea & Hname & Hne & Hents).
  split; [done|]. split; [done|]. split.
  - exists device, device_entities, i, e, rest, svc.
    repeat (split; [done|]).
    split; [apply (Hents e); by apply list_elem_of_lookup_2 in Hi|].
    split; [by rewrite He|]. split; [done|].
    split; [by rewrite lookup_insert_eq, He|done].
  - intros k Hk. by rewrite lookup_insert_ne.
Qed.

Lemma insert_sorted_elem (x y : pystr) (l : list pystr) :
  y ∈ insert_sorted x l <-> y = x \/ y ∈ l.
Proof.
  induction l as [|z l IH]; cbn [insert_sorted].
  - rewrite list_elem_of_singleton, elem_of_nil. tauto.
  - destruct (str_leb x z); rewrite !elem_of_cons; [done|]. rewrite IH. tauto.
Qed.

Lemma sorted_set_elem (x : pystr) (l : list pystr) : x ∈ sorted_set l <-> x ∈ l.
Proof.
  unfold sorted_set. rewrite <- (elem_of_remove_dups l).
  induction (remove_dups l) as [|y l' IH]; cbn [foldr]; [done|].
  rewrite insert_sorted_elem, elem_of_cons, IH. done.
Qed.

Lemma cut_at_sep (sep : N) (s : pystr) :
  sep ∈ s -> exists rest, s = split_first sep s ++ sep :: rest.
Proof.
  unfold split_first. induction s as [|c s IH]; [by intros ?%elem_of_nil|].
  cbn [cut]. destruct (c =? sep)%N eqn:Hc.
  - apply N.eqb_eq in Hc as ->. intros _. by exists s.
  - apply N.eqb_neq in Hc. intros [->|Hs]%elem_of_cons; [done|].
    destruct (IH Hs) as [rest Hrest]. exists rest.
    destruct (cut sep s) as [a b]. cbn [fst] in *. cbn [app]. by f_equal.
Qed.

Lemma svc_by_domain_lookup (services : list domain_services) (dom : pystr)
    (svcs : list (pystr * service_meta)) :
  svc_by_domain services !! dom = Some svcs ->
  dom <> [] /\ exists svc, svc ∈ services /\ svc_domain svc = dom /\
    svcs = default [] (svc_services svc).
Proof.
  unfold svc_by_domain. induction services as [|svc services IH] using rev_ind; [done|].
  rewrite foldl_snoc.
  destruct (svc_domain svc) as [|c d] eqn:Hd.
  - intros Hl. destruct (IH Hl) as (Hne & svc' & Hin & Hrest).
    split; [done|]. exists svc'. split; [|done]. apply elem_of_app. by left.
  - destruct (decide (c :: d = dom)) as [<-|Hne].
    + rewrite lookup_insert_eq. intros [= <-]. split; [done|]. exists svc.
      split; [|done]. apply elem_of_app. right. left.
    + rewrite lookup_insert_ne by done. intros Hl.
      destruct (IH Hl) as (Hne' & svc' & Hin & Hrest).
      split; [done|]. exists svc'. split; [|done]. apply elem_of_app. by left.
Qed.

Lemma find_unique_domain (services : list domain_services) (svc : domain_services) :
  NoDup (svc_domain <$> services) -> svc ∈ services ->
  List.find (fun s => eqb (svc_domain s) (svc_domain svc)) services = Some svc.
Proof.
  induction services as [|s services IH]; intros Hnd Hin; [by apply elem_of_nil in Hin|].
  cbn [List.find]. rewrite fmap_cons in Hnd. apply NoDup_cons in Hnd as [Hs Hnd].
  apply elem_of_cons in Hin as [->|Hin].
  - by replace (eqb (svc_domain s) (svc_domain s)) with true
      by (symmetry; by apply eqb_true).
  - destruct (eqb (svc_domain s) (svc_domain svc)) eqn:He; [|by apply IH].
    apply eqb_true in He. exfalso. apply Hs. rewrite He.
    apply list_elem_of_fmap. eauto.
Qed.

Lemma ha_actions_elem (profile : pystr) (services : list domain_services)
    (device_entities : list entity) (a : ha_action) :
  a ∈ ha_actions profile services device_entities ->
  exists e svc definition,
    e ∈ device_entities /\ split_first 46 (entity_id e) = ha_domain a /\
    svc ∈ services /\ svc_domain svc = ha_domain a /\ ha_domain a <> [] /\
    (ha_service a, definition) ∈ default [] (svc_services svc) /\
    Spec.candidate (ha_domain a) definition /\
    ha_name a = _camel_token (ha_domain a) ++ _camel_token (ha_service a) /\
    ha_target a = profile ++ py "/ha/" ++ quote (ha_domain a) ++ py "/"
                  ++ quote (ha_service a).
Proof.
  unfold ha_actions. intros Ha.
  apply list_elem_of_In, in_flat_map in Ha as (domain & Hdom & Ha).
  apply list_elem_of_In in Hdom. rewrite sorted_set_elem in Hdom.
  unfold domains_of in Hdom. apply list_elem_of_fmap in Hdom as (e & -> & He).
  apply in_flat_map in Ha as ([svc_name definition] & Hsvc & Ha).
  destruct (legacy_applies definition || modern_applies _ definition) eqn:Happ;
    cbn [negb] in Ha; [|done].
  destruct Ha as [<-|[]]. cbn [ha_domain ha_service ha_name ha_target].
  destruct (svc_by_domain services !! split_first 46 (entity_id e)) as [svcs|] eqn:Hl;
    [|done].
  destruct (svc_by_domain_lookup _ _ _ Hl) as (Hne & svc & Hin & Hd & ->).
  exists e, svc, definition. repeat split; try done.
  - by apply list_elem_of_In.
  - by apply applies_spec.
Qed.

(** X18. Every service action that [get_artifact] puts into the description
    of an artifact belongs to the domain of one of the artifact's entities
    and to a service of the catalogue that is applicable to that domain; its
    name is the camel-cased domain followed by the camel-cased service and
    its target is the profile URL followed by /ha/domain/service; and when
    the catalogue lists each domain once and the entity ids have their dot,
    [action_ha_service] serves the action: it calls that service of that
    domain on an entity of the artifact in that domain. *)
Theorem advertised_ha_actions_are_served (devices : list device) (entities : list entity)
    (services : list domain_services) (workspace_id decoded_name profile : pystr)
    (payload : gmap pystr pyvalue) (device : device) (device_entities : list entity)
    (a : ha_action) :
  _resolve_device_and_entities devices entities workspace_id decoded_name
  = inr (device, device_entities) ->
  a ∈ ha_actions profile services device_entities ->
  (exists e definition,
     e ∈ device_entities /\ split_first 46 (entity_id e) = ha_domain a /\
     (ha_domain a, (ha_service a, definition)) ∈ Spec.enumerate services /\
     Spec.candidate (ha_domain a) definition) /\
  ha_name a = _camel_token (ha_domain a) ++ _camel_token (ha_service a) /\
  ha_target a = profile ++ py "/ha/" ++ quote (ha_domain a) ++ py "/"
                ++ quote (ha_service a) /\
  (NoDup (svc_domain <$> services) ->
   (forall e, e ∈ device_entities -> 46%N ∈ entity_id e) ->
   exists ent,
     startswith ent (ha_domain a ++ py ".") = true /\
     action_ha_service devices entities services workspace_id decoded_name
       (ha_domain a) (ha_service a) payload
     = inr {| call_domain := ha_domain a; call_service := ha_service a;
              call_data := <[ py "entity_id" := PStr ent ]> payload |}).
Proof.
  intros Hres Ha.
  destruct (ha_actions_elem _ _ _ _ Ha)
    as (e & svc & definition & He & Hdom & Hsvc & Hd & Hne & Hin & Happ & Hname & Htarget).
  split; [|split; [done|split; [done|]]].
  - exists e, definition. repeat split; try done.
    unfold Spec.enumerate. apply list_elem_of_In, in_flat_map. exists svc.
    split; [by apply list_elem_of_In|]. rewrite <- Hd.
    apply in_map. by apply list_elem_of_In.
  - intros Hnd Hdots. unfold action_ha_service, _ensure_entity. rewrite Hres.
    pose proof (pick_entity_spec device_entities (ha_domain a)) as Hp.
    destruct (_pick_entity device_entities (ha_domain a)) as [ent|].
    + destruct Hp as (i & e' & rest & Hi & He' & Hrest & _).
      destruct ent as [|c ent].
      { exfalso. apply (f_equal length) in Hrest. rewrite !length_app in Hrest.
        cbn in Hrest. lia. }
      rewrite <- Hd, (find_unique_domain services svc Hnd Hsvc).
      rewrite bool_decide_eq_true_2.
      2:{ apply list_elem_of_fmap. by exists (ha_service a, definition). }
      exists (c :: ent). split; [|by rewrite Hd].
      apply startswith_spec. exists rest. by rewrite Hrest, Hd, <- app_assoc.
    + exfalso. destruct (cut_at_sep 46 (entity_id e) (Hdots e He)) as [rest Hrest].
      specialize (Hp e He). apply not_true_iff_false in Hp. apply Hp.
      apply startswith_spec. exists rest. rewrite <- Hdom.
      rewrite Hrest at 1. by rewrite <- app_assoc.
Qed.

Lemma sensor_action_name_shape (device_class unit : option pystr) (a : pystr) :
  _sensor_action_name device_class unit = Some a ->
  startswith a (py "get") = true /\ contains (py "In") (drop 3 a) = true.
Proof.
  unfold _sensor_action_name.
  destruct (negb (present (_sanitize_unit unit))); [done|].
  destruct (Py.strip (default [] device_class)) as [|c dc].
  - intros [= <-]. split; [apply startswith_spec; by eexists|]. apply contains_spec.
    exists [], (_camel_token (default [] (_sanitize_unit unit))). reflexivity.
  - intros [= <-]. split; [apply startswith_spec; by eexists|]. apply contains_spec.
    exists (_camel_token (c :: dc)), (_camel_token (default [] (_sanitize_unit unit))).
    reflexivity.
Qed.

Lemma nodup_fmap_eq {A B} (f : A -> B) (l : list A) (x y : A) :
  NoDup (f <$> l) -> x ∈ l -> y ∈ l -> f x = f y -> x = y.
Proof.
  intros Hnd [i Hi]%list_elem_of_lookup [j Hj]%list_elem_of_lookup Hf.
  assert (i = j) as ->.
  { apply (NoDup_lookup _ i j (f x) Hnd).
    - by rewrite list_lookup_fmap, Hi.
    - by rewrite list_lookup_fmap, Hj, Hf. }
  congruence.
Qed.

(** X19. The sensor action of an artifact: every name that
    [_sensor_action_name] builds begins with "get" and holds "In" after it,
    so the shape test of [action_sensor_dynamic] lets it through; the action
    that [get_artifact] puts into the description is named after the latest
    state of the artifact's first sensor entity, and when the states list
    each entity once, [action_sensor_dynamic] answers that action with the
    text of that state; the name without the device class is served the
    same way. *)
Theorem advertised_sensor_action_is_served (devices : list device)
    (entities : list entity) (states : list sensor_state)
    (workspace_id decoded_name : pystr) (device : device)
    (device_entities : list entity) (a : pystr) :
  _resolve_device_and_entities devices entities workspace_id decoded_name
  = inr (device, device_entities) ->
  sensor_action states device_entities = Some a ->
  (forall dc unit name, _sensor_action_name dc unit = Some name ->
     startswith name (py "get") = true /\ contains (py "In") (drop 3 name) = true) /\
  exists ent st,
    _pick_entity device_entities (py "sensor") = Some ent /\
    st ∈ states /\ ss_entity_id st = ent /\
    _sensor_action_name (ss_device_class st) (ss_unit_of_measurement st) = Some a /\
    (NoDup (ss_entity_id <$> states) ->
     action_sensor_dynamic devices entities states workspace_id decoded_name a
     = inr (Py.str (default (PStr []) (ss_state st))) /\
     forall alias, _sensor_action_name None (ss_unit_of_measurement st) = Some alias ->
       action_sensor_dynamic devices entities states workspace_id decoded_name alias
       = inr (Py.str (default (PStr []) (ss_state st)))).
Proof.
  intros Hres Ha. split; [apply sensor_action_name_shape|].
  unfold sensor_action in Ha.
  destruct (bool_decide (py "sensor" ∈ domains_of device_entities)); [|done].
  destruct (_pick_entity device_entities (py "sensor")) as [[|c ent]|] eqn:Hpick.
  { cbn [mbind option_bind] in Ha. by vm_compute in Ha. }
  2:{ cbn [mbind option_bind] in Ha. by vm_compute in Ha. }
  destruct (list_to_map _ !! (c :: ent)) as [st|] eqn:Hst.
  2:{ cbn [mbind option_bind] in Ha. by vm_compute in Ha. }
  cbn [mbind option_bind] in Ha.
  apply elem_of_list_to_map_2 in Hst.
  apply list_elem_of_fmap in Hst as (st' & [= Hid ->] & Hin).
  rewrite elem_of_reverse in Hin.
  destruct (_sensor_action_name (ss_device_class st') (ss_unit_of_measurement st'))
    as [[|n name]|] eqn:Hname; [done| |done].
  injection Ha as <-.
  exists (c :: ent), st'. split; [done|]. split; [done|]. split; [done|]. split; [done|].
  intros Hnd.
  assert (List.find (fun s => eqb (ss_entity_id s) (c :: ent)) states = Some st') as Hfind.
  { pose proof (find_first (fun s => eqb (ss_entity_id s) (c :: ent)) states) as Hf.
    destruct (List.find _ states) as [st''|].
    - destruct Hf as (i & Hi & Heq & _). apply eqb_true in Heq. f_equal.
      apply (nodup_fmap_eq ss_entity_id states); try done.
      + by apply list_elem_of_lookup_2 in Hi.
      + congruence.
    - specialize (Hf st' Hin). apply eqb_false in Hf. congruence. }
  assert (forall name', startswith name' (py "get") = true ->
            contains (py "In") (drop 3 name') = true ->
            Some name' ∈ List.filter present
              [_sensor_action_name (ss_device_class st') (ss_unit_of_measurement st');
               _sensor_action_name None (ss_unit_of_measurement st')] ->
            action_sensor_dynamic devices entities states workspace_id decoded_name name'
            = inr (Py.str (default (PStr []) (ss_state st')))) as Hserved.
  { intros name' Hget Hin' Hexp. unfold action_sensor_dynamic.
    rewrite Hget, Hin'. cbn [andb negb]. rewrite Hres, Hpick, Hfind.
    by rewrite bool_decide_eq_true_2. }
  split.
  - destruct (sensor_action_name_shape _ _ _ Hname) as [Hget Hin'].
    apply Hserved; [done|done|]. rewrite Hname.
    apply list_elem_of_In, filter_In. split; [left; done|done].
  - intros alias Halias. destruct (sensor_action_name_shape _ _ _ Halias) as [Hget Hin'].
    apply Hserved; [done|done|]. rewrite Halias.
    apply list_elem_of_In, filter_In. split; [right; left; done|].
    unfold _sensor_action_name in Halias.
    destruct (negb (present (_sanitize_unit (ss_unit_of_measurement st')))); [done|].
    assert (Py.strip (default [] None) = []) as Hs by done. rewrite Hs in Halias.
    by injection Halias as <-.
Qed.

End EndpointFacts.

Section EndpointWitnesses.
Import PyText Adapter SetProperty Notify Endpoints EndpointExamples.

Lemma ha_service_call_witness :
  action_ha_service [lamp] [lamp_light; lamp_lux] catalogue (py "kitchen")
    (py "Desk Lamp") (py "light") (py "turn_on")
    {[ py "entity_id" := PStr (py "light.other") ]}
  = inr {| call_domain := py "light"; call_service := py "turn_on";
           call_data := {[ py "entity_id" := PStr (py "light.desk") ]} |} /\
  call_domain {| call_domain := py "light"; call_service := py "turn_on";
                 call_data := {[ py "entity_id" := PStr (py "light.desk") ]} |}
  = py "light".
Proof.
  assert (action_ha_service [lamp] [lamp_light; lamp_lux] catalogue (py "kitchen")
            (py "Desk Lamp") (py "light") (py "turn_on")
            {[ py "entity_id" := PStr (py "light.other") ]}
          = inr {| call_domain := py "light"; call_service := py "turn_on";
                   call_data := {[ py "entity_id" := PStr (py "light.desk") ]} |}) as Hcall
    by (vm_compute; reflexivity).
  split; [exact Hcall|].
  exact (proj1 (ha_service_call_targets_entity _ _ _ _ _ _ _ _ _ Hcall)).
Defined.

Lemma advertised_ha_action_witness :
  turn_on_action
  ∈ ha_actions (H := ascii_runtime)
      (py "http://localhost:8080/workspaces/kitchen/artifacts/Desk%20Lamp")
      catalogue [lamp_light; lamp_lux] /\
  ha_name turn_on_action
  = _camel_token (H := ascii_runtime) (py "light")
    ++ _camel_token (H := ascii_runtime) (py "turn_on").
Proof.
  assert (turn_on_action
          ∈ ha_actions (H := ascii_runtime)
              (py "http://localhost:8080/workspaces/kitchen/artifacts/Desk%20Lamp")
              catalogue [lamp_light; lamp_lux]) as Hin by (vm_compute; left).
  split; [exact Hin|].
  refine (proj1 (proj2 (advertised_ha_actions_are_served (H := ascii_runtime)
            [lamp] [lamp_light; lamp_lux] catalogue (py "kitchen") (py "Desk Lamp")
            _ ∅ lamp [lamp_light; lamp_lux] turn_on_action _ Hin))).
  vm_compute. reflexivity.
Defined.

Lemma advertised_sensor_action_witness :
  sensor_action (H := ascii_runtime) [lux_state] [lamp_light; lamp_lux]
  = Some (py "getIlluminanceInLx") /\
  startswith (py "getIlluminanceInLx") (py "get") = true /\
  contains (py "In") (drop 3 (py "getIlluminanceInLx")) = true.
Proof.
  assert (sensor_action (H := ascii_runtime) [lux_state] [lamp_light; lamp_lux]
          = Some (py "getIlluminanceInLx")) as Ha by (vm_compute; reflexivity).
  split; [exact Ha|].
  refine (proj1 (advertised_sensor_action_is_served (H := ascii_runtime)
            [lamp] [lamp_light; lamp_lux] [lux_state] (py "kitchen") (py "Desk Lamp")
            lamp [lamp_light; lamp_lux] _ _ Ha) (Some (py "illuminance")) (Some (py "lx")) _ _).
  - vm_compute. reflexivity.
  - vm_compute. reflexivity.
Defined.

End EndpointWitnesses.

(** ** The request loops *)

Section ProtocolFacts.
Import Protocol ProtocolRules.

Lemma answers_dec (ident : Z) (msg : reply) :
  bool_decide (rp_id msg = Some ident) && bool_decide (rp_type msg = Some (py "result"))
  = true <-> answers ident msg.
Proof. unfold answers. by rewrite andb_true_iff, !bool_decide_eq_true. Qed.

Lemma await_spec (ident : Z) (inbox : list reply) :
  match await ident inbox with
  | (Pending, rest) => rest = [] /\ forall msg, msg ∈ inbox -> ~ answers ident msg
  | (how, rest) =>
    exists skipped msg,
      inbox = skipped ++ msg :: rest /\ answers ident msg /\
      (forall m, m ∈ skipped -> ~ answers ident m) /\
      how = (if succeeded msg
             then match rp_result msg with
                  | Some result => Returned result
                  | None => KeyError
                  end
             else RuntimeError (rp_error msg))
  end.
Proof.
  induction inbox as [|msg inbox IH]; cbn [await].
  - split; [done|]. intros msg Hm. by apply elem_of_nil in Hm.
  - destruct (bool_decide (rp_id msg = Some ident)
              && bool_decide (rp_type msg = Some (py "result"))) eqn:Ha.
    + apply answers_dec in Ha.
      assert (exists skipped msg0,
                msg :: inbox = skipped ++ msg0 :: inbox /\ answers ident msg0 /\
                (forall m, m ∈ skipped -> ~ answers ident m) /\
                (if succeeded msg
                 then match rp_result msg with
                      | Some result => Returned result
                      | None => KeyError
                      end
                 else RuntimeError (rp_error msg))
                = (if succeeded msg0
                   then match rp_result msg0 with
                        | Some result => Returned result
                        | None => KeyError
                        end
                   else RuntimeError (rp_error msg0))) as Hex.
      { exists [], msg. split; [done|]. split; [done|]. split; [|done].
        intros m Hm. by apply elem_of_nil in Hm. }
      destruct (succeeded msg); [destruct (rp_result msg)|]; exact Hex.
    + assert (~ answers ident msg) as Hn.
      { intros Hc. apply answers_dec in Hc. congruence. }
      destruct (await ident inbox) as [how rest].
      destruct how;
        try (destruct IH as (skipped & msg0 & -> & Ha0 & Hsk & Hhow);
             exists (msg :: skipped), msg0; split; [done|]; split; [done|];
             split; [|done]; intros m [->|Hm]%elem_of_cons; [done|by apply Hsk]).
      destruct IH as [-> Hall]. split; [done|].
      intros m [->|Hm]%elem_of_cons; [done|by apply Hall].
Qed.

(** X20. One call over the websocket: the message sent carries the counter's
    next value as its id, whatever id the payload gave, and the payload's
    other keys unchanged; the call ends with the first message received that
    has this id and the type "result": with its result when it reports
    success, else with its error; every message read before it is dropped
    for good, and without such a message the call goes on waiting; two calls
    in a row use different ids. *)
Theorem ws_call_takes_first_answer (counter : Z) (payload : gmap pystr pyvalue)
    (inbox : list reply) :
  let c := _ws_call counter payload inbox in
  sent c !! py "id" = Some (PInt (counter + 1)) /\
  (forall k, k <> py "id" -> sent c !! k = payload !! k) /\
  counter_after c = (counter + 1)%Z /\
  (ended c = Pending <-> forall msg, msg ∈ inbox -> ~ answers (counter + 1) msg) /\
  (ended c <> Pending ->
   exists skipped msg,
     inbox = skipped ++ msg :: unread c /\ answers (counter + 1) msg /\
     (forall m, m ∈ skipped -> ~ answers (counter + 1) m) /\
     (succeeded msg = true -> forall result, rp_result msg = Some result ->
        ended c = Returned result) /\
     (succeeded msg = false -> ended c = RuntimeError (rp_error msg))) /\
  (forall payload' inbox',
     sent (_ws_call (counter_after c) payload' inbox') !! py "id" <> sent c !! py "id").
Proof.
  intros c. subst c. unfold _ws_call.
  pose proof (await_spec (counter + 1) inbox) as Ha.
  destruct (await (counter + 1) inbox) as [how rest].
  cbn [sent counter_after ended unread].
  split; [apply lookup_insert_eq|]. split; [intros k Hk; by rewrite lookup_insert_ne|].
  split; [done|]. split; [|split].
  - destruct how.
    4:{ destruct Ha as [_ Hall]. split; [intros _; exact Hall|done]. }
    all: split; [done|]; intros Hall.
    all: destruct Ha as (skipped & msg & -> & Hans & _); exfalso.
    all: apply (Hall msg); [apply elem_of_app; right; left|done].
  - destruct how; [| | |done].
    all: destruct Ha as (skipped & msg & -> & Hans & Hsk & Hhow); intros _.
    all: exists skipped, msg; split; [done|]; split; [done|]; split; [done|].
    all: split; [intros Hs result' Hr; rewrite Hs, Hr in Hhow; congruence|].
    all: intros Hs; rewrite Hs in Hhow; congruence.
  - intros payload' inbox'. destruct (await (counter + 1 + 1) inbox') as [how' rest'].
    cbn [sent]. rewrite !lookup_insert_eq. intros [= Heq]. lia.
Qed.

Lemma collect_done (d e : pyvalue) (inbox : list reply) :
  d <> PNone -> e <> PNone -> collect (Some d) (Some e) inbox = Both d e.
Proof. intros Hd He. destruct inbox, d, e; done. Qed.

Lemma collect_skip (devices entities : option pyvalue) (msg : reply) (rest : list reply) :
  ~ listing msg -> collect devices entities (msg :: rest) = collect devices entities rest.
Proof.
  intros Hn. cbn [collect].
  destruct (is_none devices || is_none entities) eqn:Hw.
  2:{ destruct rest; cbn [collect]; by rewrite Hw. }
  destruct (bool_decide (rp_type msg = Some (py "result")) && succeeded msg) eqn:Hr; [|done].
  apply andb_true_iff in Hr as [Ht Hs]. apply bool_decide_eq_true in Ht.
  destruct (bool_decide (rp_id msg = Some 1%Z)) eqn:H1.
  { apply bool_decide_eq_true in H1. exfalso. apply Hn. unfold listing. auto. }
  destruct (bool_decide (rp_id msg = Some 2%Z)) eqn:H2; [|done].
  apply bool_decide_eq_true in H2. exfalso. apply Hn. unfold listing. auto.
Qed.

Lemma collect_skip_all (devices entities : option pyvalue) (noise rest : list reply) :
  (forall m, m ∈ noise -> ~ listing m) ->
  collect devices entities (noise ++ rest) = collect devices entities rest.
Proof.
  induction noise as [|m noise IH]; intros Hn; [done|]. cbn [app].
  rewrite collect_skip by (apply Hn; left). apply IH. intros m' Hm'. apply Hn. by right.
Qed.

(** X21. The receive loop of [_build_entity_area_map]: the two listings are
    taken from the successful results with the ids 1 and 2 in whichever
    order they arrive, and the loop ends as soon as both are there, leaving
    later messages unread; every other message, an event, a result with
    another id or a result that reports failure, is passed over, wherever it
    arrives; so after a failed request the loop goes on waiting for as long
    as no successful result for it comes. *)
Theorem registry_listings_in_any_order (devices entities : pyvalue)
    (noise1 noise2 noise3 later : list reply) :
  devices <> PNone -> entities <> PNone ->
  (forall m, m ∈ noise1 ++ noise2 ++ noise3 -> ~ listing m) ->
  collect None None
    (noise1 ++ result_of 1 devices :: noise2 ++ result_of 2 entities :: later)
  = Both devices entities /\
  collect None None
    (noise1 ++ result_of 2 entities :: noise2 ++ result_of 1 devices :: later)
  = Both devices entities /\
  collect None None (noise1 ++ result_of 1 devices :: noise2) = Waiting /\
  collect None None (noise1 ++ noise2 ++ noise3) = Waiting.
Proof.
  intros Hd He Hnoise.
  assert (forall m, m ∈ noise1 -> ~ listing m) as H1
    by (intros m Hm; apply Hnoise; apply elem_of_app; by left).
  assert (forall m, m ∈ noise2 -> ~ listing m) as H2
    by (intros m Hm; apply Hnoise; rewrite !elem_of_app; auto).
  assert (forall m, m ∈ noise3 -> ~ listing m) as H3
    by (intros m Hm; apply Hnoise; rewrite !elem_of_app; auto).
  assert (forall d e, collect d e [] = if is_none d || is_none e then Waiting
                                       else Both (default PNone d) (default PNone e)) as Hnil
    by done.
  split; [|split; [|split]].
  - rewrite collect_skip_all by done.
    change (collect None None (result_of 1 devices :: ?l))
      with (collect (Some devices) None l).
    rewrite collect_skip_all by done.
    assert (collect (Some devices) None (result_of 2 entities :: later)
            = collect (Some devices) (Some entities) later) as ->.
    { cbn [collect]. by destruct devices. }
    by apply collect_done.
  - rewrite collect_skip_all by done.
    change (collect None None (result_of 2 entities :: ?l))
      with (collect None (Some entities) l).
    rewrite collect_skip_all by done.
    assert (collect None (Some entities) (result_of 1 devices :: later)
            = collect (Some devices) (Some entities) later) as ->.
    { cbn [collect]. by destruct entities. }
    by apply collect_done.
  - rewrite collect_skip_all by done.
    change (collect None None (result_of 1 devices :: ?l))
      with (collect (Some devices) None l).
    rewrite <- (app_nil_r noise2), collect_skip_all by done.
    rewrite Hnil. cbn [is_none]. by rewrite orb_true_r.
  - rewrite <- (app_nil_r noise3), !collect_skip_all by done. by rewrite Hnil.
Qed.

End ProtocolFacts.

Section ProtocolWitnesses.
Import Protocol ProtocolRules.

Lemma registry_listings_witness :
  collect None None
    [result_of 2 (PList [PStr (py "light.desk")]); result_of 1 (PList [PStr (py "d1")])]
  = Both (PList [PStr (py "d1")]) (PList [PStr (py "light.desk")]).
Proof.
  refine (proj1 (proj2 (registry_listings_in_any_order
            (PList [PStr (py "d1")]) (PList [PStr (py "light.desk")]) [] [] [] []
            _ _ _))).
  - discriminate.
  - discriminate.
  - intros m Hm. by apply elem_of_nil in Hm.
Defined.

End ProtocolWitnesses.

(** ** The life of the forwarder task *)

Section LifecycleFacts.
Context `{PyRuntime}.
Import Adapter.

Lemma step_appends (cfg : config) (w : world) (i : input) :
  exists more, posted (step cfg w i) = posted w ++ more /\
    (more <> [] -> task_phase w = SUBSCRIBED /\ exists m, i = Received m).
Proof.
  destruct i, (task_phase w) eqn:E; unfold step; rewrite ?E; cbn [posted set_phase];
    try (exists []; split; [by rewrite app_nil_r|done]).
  eexists. split; [done|]. eauto.
Qed.

Lemma step_stopped (cfg : config) (w : world) (i : input) :
  task_phase w = STOPPED ->
  task_phase (step cfg w i) = STOPPED /\ posted (step cfg w i) = posted w /\
  task_index (step cfg w i) = task_index w.
Proof. intros E. destruct i; unfold step; rewrite ?E; by cbn. Qed.

Lemma step_received (cfg : config) (w : world) (m : ws_message) :
  task_phase w = SUBSCRIBED ->
  task_phase (step cfg w (Received m)) = SUBSCRIBED /\
  task_index (step cfg w (Received m)) = task_index w /\
  posted (step cfg w (Received m))
  = posted w ++ option_list (forward_message cfg (task_index w) m).
Proof. intros E. unfold step. by rewrite E. Qed.

Lemma step_received_elsewhere (cfg : config) (w : world) (m : ws_message) :
  task_phase w <> SUBSCRIBED -> step cfg w (Received m) = w.
Proof. intros E. unfold step. by destruct (task_phase w). Qed.

(** X22. The life of the forwarder task: what it has posted only grows, and
    only by the message it receives while subscribed; a run of messages
    received while subscribed posts the bodies of the messages let through,
    in the order of arrival, with the index unchanged; during the delay
    after an error and while connecting no message is read, so nothing is
    posted until the subscription is made anew; once the task is cancelled
    it stays stopped and posts nothing more, whatever happens. *)
Theorem forwarder_posts_in_order (cfg : config) (w : world) (inputs : list input)
    (msgs : list ws_message) :
  (exists more, posted (run cfg w inputs) = posted w ++ more /\
     forall n, n ∈ more ->
       exists m, Received m ∈ inputs /\ forward_message cfg (task_index w) m = Some n) /\
  (task_phase w = SUBSCRIBED ->
     let w' := run cfg w (Received <$> msgs) in
     task_phase w' = SUBSCRIBED /\
     posted w' = posted w ++ omap (forward_message cfg (task_index w)) msgs) /\
  (task_phase w <> SUBSCRIBED -> run cfg w (Received <$> msgs) = w) /\
  (task_phase w = SUBSCRIBED ->
     posted (run cfg w (Failed :: (Received <$> msgs))) = posted w /\
     posted (run cfg w (Failed :: Slept :: (Received <$> msgs))) = posted w /\
     posted (run cfg w (Failed :: Slept :: Connected :: (Received <$> msgs)))
     = posted w ++ omap (forward_message cfg (task_index w)) msgs) /\
  (task_phase w = STOPPED ->
     task_phase (run cfg w inputs) = STOPPED /\ posted (run cfg w inputs) = posted w) /\
  task_phase (run cfg w (inputs ++ [Cancelled])) = STOPPED.
Proof.
  assert (forall w msgs, task_phase w = SUBSCRIBED ->
            task_phase (run cfg w (Received <$> msgs)) = SUBSCRIBED /\
            posted (run cfg w (Received <$> msgs))
            = posted w ++ omap (forward_message cfg (task_index w)) msgs) as Hsub.
  { clear. intros w msgs. revert w. unfold run.
    induction msgs as [|m msgs IH]; intros w E; [by rewrite app_nil_r|].
    cbn [fmap list_fmap foldl omap list_omap].
    destruct (step_received cfg w m E) as (E' & Hix & Hp).
    destruct (IH _ E') as [Hphase Hposted]. split; [done|].
    rewrite Hposted, Hp, Hix, <- app_assoc. f_equal.
    by destruct (forward_message cfg (task_index w) m). }
  assert (forall w msgs, task_phase w <> SUBSCRIBED -> run cfg w (Received <$> msgs) = w)
    as Hout.
  { clear. intros w msgs E. unfold run.
    induction msgs as [|m msgs IH]; [done|].
    cbn [fmap list_fmap foldl]. by rewrite step_received_elsewhere. }
  split; [|split; [|split; [|split; [|split]]]].
  - clear Hsub Hout msgs. revert w. unfold run.
    induction inputs as [|i inputs IH]; intros w.
    + exists []. split; [by rewrite app_nil_r|]. intros n Hn. by apply elem_of_nil in Hn.
    + cbn [foldl]. destruct (IH (step cfg w i)) as (more & Hp & Hmore).
      destruct (step_appends cfg w i) as (one & Hone & _).
      exists (one ++ more). split; [by rewrite Hp, Hone, app_assoc|].
      intros n [Hn|Hn]%elem_of_app.
      * assert (n ∈ posted (step cfg w i)) as Hin
          by (rewrite Hone; apply elem_of_app; by right).
        apply step_posted in Hin as [Hin|(m & -> & Hf)].
        -- assert (exists m, i = Received m /\ forward_message cfg (task_index w) m = Some n)
             as (m & -> & Hf).
           { clear -Hone Hn. destruct i, (task_phase w) eqn:E; unfold step in Hone;
               rewrite ?E in Hone; cbn [posted set_phase] in Hone;
               try (rewrite <- (app_nil_r (posted w)) in Hone at 1;
                    apply app_inv_head in Hone; subst one; by apply elem_of_nil in Hn).
             apply app_inv_head in Hone. subst one. exists m. split; [done|].
             destruct (forward_message cfg (task_index w) m); cbn in Hn.
             - by apply list_elem_of_singleton in Hn as ->.
             - by apply elem_of_nil in Hn. }
           exists m. split; [left|done].
        -- exists m. split; [left|done].
      * destruct (Hmore n Hn) as (m & Hm & Hf). exists m. split; [by right|].
        by rewrite step_task_index in Hf.
  - intros E w'. by apply Hsub.
  - apply Hout.
  - intros E.
    assert (step cfg w Failed = set_phase w DISCONNECTED) as Hf
      by (unfold step; by rewrite E).
    assert (step cfg (set_phase w DISCONNECTED) Slept
            = set_phase (set_phase w DISCONNECTED) CONNECTING) as Hs by done.
    assert (step cfg (set_phase (set_phase w DISCONNECTED) CONNECTING) Connected
            = set_phase (set_phase (set_phase w DISCONNECTED) CONNECTING) SUBSCRIBED)
      as Hc by done.
    unfold run in *. cbn [foldl]. rewrite Hf. split; [|split].
    + by rewrite Hout.
    + rewrite Hs. by rewrite Hout.
    + rewrite Hs, Hc.
      by destruct (Hsub (set_phase (set_phase (set_phase w DISCONNECTED) CONNECTING)
                           SUBSCRIBED) msgs eq_refl) as [_ ->].
  - intros E. clear Hsub Hout msgs. revert w E. unfold run.
    induction inputs as [|i inputs IH]; intros w E; [done|]. cbn [foldl].
    destruct (step_stopped cfg w i E) as (E' & Hp & _).
    destruct (IH _ E') as [Hphase Hposted]. split; [done|]. by rewrite Hposted.
  - unfold run. rewrite foldl_snoc. cbn [foldl].
    generalize (foldl (step cfg) w inputs). intros w'.
    unfold step. destruct (task_phase w') eqn:E; cbn [task_phase set_phase]; congruence.
Qed.

End LifecycleFacts.

(** ** Reading back what [str] wrote *)

Section ConfigFacts.
Context `{PyRuntime}.
Import AdjustLux LuxConfig.

Lemma uint_digits_chars (u : Decimal.uint) :
  Forall (fun c => ascii_isdigit c = true) (uint_digits u).
Proof. induction u; cbn [uint_digits]; constructor; done. Qed.

Lemma scan_uint_digits (u : Decimal.uint) :
  Py.scan false (uint_digits u) = Some (uint_values u, []).
Proof. induction u; cbn [uint_digits uint_values Py.scan]; [done|..]; by rewrite IHu. Qed.

Lemma length_uint_values (u : Decimal.uint) :
  length (uint_values u) = length (uint_digits u).
Proof. induction u; cbn [uint_digits uint_values length]; congruence. Qed.

Lemma digits_value_acc (u : Decimal.uint) (acc : positive) :
  fold_left (fun a d => (10 * a + d)%N) (uint_values u) (Npos acc)
  = Npos (Pos.of_uint_acc u acc).
Proof.
  revert acc. induction u; intros acc; cbn [uint_values fold_left Pos.of_uint_acc];
    [done|..];
    match goal with
    | |- fold_left _ _ ?a = N.pos (Pos.of_uint_acc _ ?b) =>
      replace a with (N.pos b) by lia
    end; apply IHu.
Qed.

Lemma digits_value_uint (u : Decimal.uint) :
  Py.digits_value (uint_values u) = N.of_uint u.
Proof.
  unfold Py.digits_value, N.of_uint.
  induction u; cbn [uint_values fold_left Pos.of_uint]; [done|apply IHu|..];
    match goal with
    | |- fold_left _ _ ?a = N.pos (Pos.of_uint_acc _ ?b) =>
      change a with (N.pos b)
    end; apply digits_value_acc.
Qed.

Lemma str_of_N_digits (n : N) :
  exists u, str_of_N n = uint_digits u /\ N.of_uint u = n /\ u <> Decimal.Nil.
Proof.
  destruct n as [|p].
  - by exists (Decimal.D0 Decimal.Nil).
  - exists (N.to_uint (Npos p)). split; [done|]. split; [apply DecimalN.Unsigned.of_to|].
    apply DecimalPos.Unsigned.to_uint_nonnil.
Qed.

Lemma int_of_digits (neg : bool) (u : Decimal.uint) :
  u <> Decimal.Nil -> (length (uint_digits u) <= 640)%nat ->
  Py.int_of_str ((if neg then [45%N] else []) ++ uint_digits u)
  = Some (Py.signed neg (N.of_uint u)).
Proof.
  intros Hu Hlen. unfold Py.int_of_str, Py.transform.
  assert (forallb is_ascii ((if neg then [45%N] else []) ++ uint_digits u) = true) as ->.
  { apply forallb_elem. intros c [Hc|Hc]%elem_of_app.
    - destruct neg; [|by apply elem_of_nil in Hc].
      by apply list_elem_of_singleton in Hc as ->.
    - pose proof (uint_digits_chars u) as Hd. rewrite Forall_forall in Hd.
      specialize (Hd c Hc). unfold ascii_isdigit, between in Hd. unfold is_ascii.
      apply andb_true_iff in Hd as [_ Hd]. apply N.leb_le in Hd. apply N.ltb_lt. lia. }
  assert (Py.split_sign (lstrip_by c_isspace ((if neg then [45%N] else []) ++ uint_digits u))
          = (neg, uint_digits u)) as ->.
  { destruct neg; [done|]. cbn [app]. by destruct u. }
  assert (startswith (uint_digits u) [95%N] = false) as -> by (by destruct u).
  rewrite scan_uint_digits. cbn [lstrip_by].
  destruct (uint_values u) as [|d ds] eqn:Hv; [by destruct u|]. rewrite <- Hv.
  assert (Py.too_many_digits (N.of_nat (length (uint_values u))) = false) as ->.
  { unfold Py.too_many_digits. rewrite length_uint_values.
    assert ((640 <? N.of_nat (length (uint_digits u)))%N = false) as ->
      by (apply N.ltb_ge; lia). done. }
  by rewrite digits_value_uint.
Qed.

Lemma int_of_str_of_Z (z : Z) :
  (length (str_of_Z z) <= 640)%nat -> Py.int_of_str (str_of_Z z) = Some z.
Proof.
  intros Hlen. unfold str_of_Z in *.
  destruct z as [|p|p].
  - destruct (str_of_N_digits (Z.to_N 0)) as (u & Hs & Hv & Hu). rewrite Hs in *.
    pose proof (int_of_digits false u Hu Hlen) as Hi. cbn [app] in Hi.
    rewrite Hi, Hv. done.
  - destruct (str_of_N_digits (Z.to_N (Z.pos p))) as (u & Hs & Hv & Hu). rewrite Hs in *.
    pose proof (int_of_digits false u Hu Hlen) as Hi. cbn [app] in Hi.
    rewrite Hi, Hv. done.
  - destruct (str_of_N_digits (N.pos p)) as (u & Hs & Hv & Hu). rewrite Hs in *.
    cbn [length] in Hlen.
    pose proof (int_of_digits true u Hu ltac:(lia)) as Hi. cbn [app] in Hi.
    rewrite Hi, Hv. done.
Qed.

(** X23. The deltas that [main] of adjust_lux_on_events.py reads from the
    environment: [int] reads back every integer that [str] wrote, as long
    as it has no more than 640 characters; so with nothing set the
    increments are 100 for lights and 50 for blinds, and a decrement that is
    not set equals the increment of its kind, whatever that was set to;
    a decrement that is set is read on its own. *)
Theorem lux_config_defaults
    (INCREMENT_LIGHT DECREMENT_LIGHT INCREMENT_BLINDS DECREMENT_BLINDS : option pystr) :
  (forall z, (length (Py.str (PInt z)) <= 640)%nat ->
     Py.int_of_str (Py.str (PInt z)) = Some z) /\
  read_config None None None None
  = Some {| inc_light := 100; dec_light := 100; inc_blinds := 50; dec_blinds := 50 |} /\
  (forall cfg,
     read_config INCREMENT_LIGHT DECREMENT_LIGHT INCREMENT_BLINDS DECREMENT_BLINDS
     = Some cfg ->
     env_int INCREMENT_LIGHT (py "100") = Some (inc_light cfg) /\
     env_int INCREMENT_BLINDS (py "50") = Some (inc_blinds cfg) /\
     (forall d, DECREMENT_LIGHT = Some d -> Py.int_of_str d = Some (dec_light cfg)) /\
     (forall d, DECREMENT_BLINDS = Some d -> Py.int_of_str d = Some (dec_blinds cfg)) /\
     (DECREMENT_LIGHT = None -> (length (str_of_Z (inc_light cfg)) <= 640)%nat ->
        dec_light cfg = inc_light cfg) /\
     (DECREMENT_BLINDS = None -> (length (str_of_Z (inc_blinds cfg)) <= 640)%nat ->
        dec_blinds cfg = inc_blinds cfg)) /\
  (forall il ib,
     env_int INCREMENT_LIGHT (py "100") = Some il ->
     env_int INCREMENT_BLINDS (py "50") = Some ib ->
     (length (str_of_Z il) <= 640)%nat -> (length (str_of_Z ib) <= 640)%nat ->
     read_config INCREMENT_LIGHT None INCREMENT_BLINDS None
     = Some {| inc_light := il; dec_light := il; inc_blinds := ib; dec_blinds := ib |}).
Proof.
  split; [intros z Hz; by apply int_of_str_of_Z|]. split; [|split].
  - unfold read_config, env_int. cbn [default from_option id].
    assert (Py.int_of_str (py "100") = Some 100%Z) as -> by reflexivity.
    cbn [mbind option_bind Py.str]. rewrite int_of_str_of_Z by (cbn; lia).
    assert (Py.int_of_str (py "50") = Some 50%Z) as -> by reflexivity.
    cbn [mbind option_bind Py.str]. rewrite int_of_str_of_Z by (cbn; lia). done.
  - intros cfg. unfold read_config.
    destruct (env_int INCREMENT_LIGHT (py "100")) as [il|] eqn:Hil; [|done].
    cbn [mbind option_bind].
    destruct (env_int DECREMENT_LIGHT (Py.str (PInt il))) as [dl|] eqn:Hdl; [|done].
    cbn [mbind option_bind].
    destruct (env_int INCREMENT_BLINDS (py "50")) as [ib|] eqn:Hib; [|done].
    cbn [mbind option_bind].
    destruct (env_int DECREMENT_BLINDS (Py.str (PInt ib))) as [db|] eqn:Hdb; [|done].
    cbn [mbind option_bind]. intros [= <-].
    cbn [inc_light dec_light inc_blinds dec_blinds].
    split; [done|]. split; [done|]. unfold env_int in Hdl, Hdb.
    split; [intros d ->; exact Hdl|]. split; [intros d ->; exact Hdb|]. split.
    + intros -> Hlen. cbn [default from_option id Py.str] in Hdl.
      rewrite int_of_str_of_Z in Hdl by done. by injection Hdl.
    + intros -> Hlen. cbn [default from_option id Py.str] in Hdb.
      rewrite int_of_str_of_Z in Hdb by done. by injection Hdb.
  - intros il ib Hil Hib Hl Hb. unfold read_config. rewrite Hil, Hib.
    cbn [mbind option_bind]. unfold env_int. cbn [default from_option id Py.str].
    rewrite !int_of_str_of_Z by done. done.
Qed.

End ConfigFacts.
